(** * Smart-Deals-hunter: affiliate links, price refresh, retention, notifications

    A shallow embedding of the routines of
      - [affiliate_link_generator.py] (class [RealAffiliateGenerator]),
      - [price_monitor.py]            (class [PriceMonitor]),
      - [notifications.py]            (class [NotificationManager]),
      - [database.py]                 (the ORM schema),
    together with the properties the specification states about them.

    Conventions.
      - A Python [str] is a Rocq [string] holding the UTF-8 bytes of the text,
        a surrogate code point (which a [str] can hold and UTF-8 cannot
        encode) being written as the three bytes [surrogatepass] gives it.
        Substring tests against ASCII literals, the ASCII character classes of
        the regular expressions and percent-encoding all act on those bytes
        exactly as Python does on the text. [str.lower] is computed on ASCII
        text; on any other text it is what the interpreter's Unicode database
        makes it, an input of the model ([unicode_lower]).
      - A Python [float] is a primitive binary64 float ([PrimFloat.float]).
      - A nullable column, or an argument defaulting to [None], is an [option].
      - A [datetime] is an integer number of microseconds ([Z]).
      - Random draws and the outcome of message deliveries are inputs. *)

From Stdlib Require Import String Ascii List Bool Arith ZArith Lia.
From Stdlib Require Import Permutation Sorted Floats.
From Stdlib Require Import Numbers.DecimalString.
Import ListNotations.

Set Implicit Arguments.

(* ===================================================================== *)
(** ** Python strings *)
(* ===================================================================== *)

Module PyStr.

Open Scope string_scope.

(** [strip_prefix p s]: the rest of [s] after the leading [p], if [s] starts with [p]. *)
Fixpoint strip_prefix (p s : string) : option string :=
  match p with
  | EmptyString => Some s
  | String a p' =>
      match s with
      | EmptyString => None
      | String b s' => if Ascii.eqb a b then strip_prefix p' s' else None
      end
  end.

(** [needle in hay] *)
Fixpoint contains (needle hay : string) : bool :=
  match strip_prefix needle hay with
  | Some _ => true
  | None =>
      match hay with
      | EmptyString => false
      | String _ t => contains needle t
      end
  end.

Fixpoint map_chars (f : ascii -> ascii) (s : string) : string :=
  match s with
  | EmptyString => EmptyString
  | String c t => String (f c) (map_chars f t)
  end.

Fixpoint all_chars (f : ascii -> bool) (s : string) : bool :=
  match s with
  | EmptyString => true
  | String c t => f c && all_chars f t
  end.

Definition in_range (lo hi c : ascii) : bool :=
  (nat_of_ascii lo <=? nat_of_ascii c)%nat && (nat_of_ascii c <=? nat_of_ascii hi)%nat.

Definition is_upper (c : ascii) : bool := in_range "A" "Z" c.
Definition is_lower (c : ascii) : bool := in_range "a" "z" c.
Definition is_digit (c : ascii) : bool := in_range "0" "9" c.

Definition lower_char (c : ascii) : ascii :=
  if is_upper c then ascii_of_nat (nat_of_ascii c + 32) else c.

(** Text that is ASCII throughout. *)
Definition is_ascii_text (s : string) : bool :=
  all_chars (fun c => (nat_of_ascii c <? 128)%nat) s.

Section Unicode.

(** [s.lower()] for text that is not ASCII throughout, as the Unicode
    database of the interpreter gives it. *)
Variable unicode_lower : string -> string.

(** [s.lower()]: in ASCII text the capital letters [A-Z] become [a-z] and
    nothing else changes. *)
Definition lower (s : string) : string :=
  if is_ascii_text s then map_chars lower_char s else unicode_lower s.

End Unicode.

(** Whether the text holds a surrogate (U+D800..U+DFFF): in the bytes, [ED]
    followed by a byte in [A0..BF]. *)
Fixpoint has_surrogate (s : string) : bool :=
  match s with
  | EmptyString => false
  | String c t =>
      match t with
      | EmptyString => false
      | String d _ =>
          (Ascii.eqb c "237" && in_range "160" "191" d) || has_surrogate t
      end
  end.

(** [s.encode('utf-8')] succeeds; it raises [UnicodeEncodeError] otherwise. *)
Definition encodable (s : string) : bool := negb (has_surrogate s).

(** [s.replace(' ', '_')] *)
Definition replace_space_underscore (s : string) : string :=
  map_chars (fun c => if Ascii.eqb c " " then "_"%char else c) s.

(** Truth value of an optional string: [None] and [''] are false. *)
Definition truthy (o : option string) : bool :=
  match o with
  | None => false
  | Some s => negb (String.eqb s "")
  end.

(** [a or b] on optional strings. *)
Definition py_or (a b : option string) : option string :=
  if truthy a then a else b.

(** [str(v)] for a value that is a string or [None]. *)
Definition str_of_opt (o : option string) : string :=
  match o with
  | None => "None"
  | Some s => s
  end.

(** [str(n)] for an integer. *)
Definition str_of_Z (n : Z) : string := NilZero.string_of_int (Z.to_int n).

(** *** urllib.parse.quote / quote_plus / urlencode

    The three functions encode their text as UTF-8 and quote the bytes; on
    text that is not [encodable] they raise [UnicodeEncodeError], and what
    is defined here is their result on the text that is. *)

Definition hex_digit (n : nat) : ascii :=
  if (n <? 10)%nat then ascii_of_nat (48 + n) else ascii_of_nat (55 + n).

(** Characters never quoted: letters, digits and [_.-~]. *)
Definition unreserved (c : ascii) : bool :=
  is_upper c || is_lower c || is_digit c
  || Ascii.eqb c "_" || Ascii.eqb c "." || Ascii.eqb c "-" || Ascii.eqb c "~".

Definition percent (c : ascii) : string :=
  String "%" (String (hex_digit (nat_of_ascii c / 16))
             (String (hex_digit (nat_of_ascii c mod 16)) EmptyString)).

(** [quote(s)] with the default [safe='/']. *)
Fixpoint quote (s : string) : string :=
  match s with
  | EmptyString => EmptyString
  | String c t =>
      if unreserved c || Ascii.eqb c "/" then String c (quote t)
      else percent c ++ quote t
  end.

(** [quote_plus(s)]: nothing but the unreserved characters is safe, a space becomes [+]. *)
Fixpoint quote_plus (s : string) : string :=
  match s with
  | EmptyString => EmptyString
  | String c t =>
      if unreserved c then String c (quote_plus t)
      else if Ascii.eqb c " " then String "+" (quote_plus t)
      else percent c ++ quote_plus t
  end.

(** [urlencode(d)] for a dict given as its items in insertion order. *)
Fixpoint urlencode (items : list (string * string)) : string :=
  match items with
  | [] => EmptyString
  | [(k, v)] => quote_plus k ++ "=" ++ quote_plus v
  | (k, v) :: rest => quote_plus k ++ "=" ++ quote_plus v ++ "&" ++ urlencode rest
  end.

End PyStr.

(* ===================================================================== *)
(** ** The fragment of Python's [re] the generator uses *)
(* ===================================================================== *)

Module Re.

Import PyStr.
Open Scope string_scope.

(** Literals, greedy bounded repetition of a character class, capturing
    group 1, sequence, alternation and the [$] anchor. *)
Inductive regex : Type :=
| Lit (p : string)
| Rep (cls : ascii -> bool) (lo : nat) (hi : option nat)
| Grp (r : regex)
| Seq (r1 r2 : regex)
| Alt (r1 r2 : regex)
| Eol.

(** The text of group 1 of a match ([None]: the group took no part). *)
Definition groups := option string.

Fixpoint take (n : nat) (s : string) : string :=
  match n, s with
  | S n', String c t => String c (take n' t)
  | _, _ => EmptyString
  end.

Fixpoint drop (n : nat) (s : string) : string :=
  match n, s with
  | S n', String _ t => drop n' t
  | _, _ => s
  end.

(** Number of leading characters of [s] in the class, at most [hi]. *)
Fixpoint span (cls : ascii -> bool) (hi : option nat) (s : string) : nat :=
  match s with
  | EmptyString => 0
  | String c t =>
      if cls c then
        match hi with
        | None => S (span cls None t)
        | Some 0 => 0
        | Some (S h) => S (span cls (Some h) t)
        end
      else 0
  end.

(** Greedy repetition: try the longest run first, then give characters back
    one at a time, never going below [lo]. *)
Fixpoint give_back (A : Type) (n lo : nat) (try : nat -> option A) : option A :=
  match try n with
  | Some x => Some x
  | None =>
      match n with
      | 0 => None
      | S n' => if (lo <=? n')%nat then give_back n' lo try else None
      end
  end.

(** [$]: at the end of the string, or just before a final newline. *)
Definition at_eol (s : string) : bool :=
  String.eqb s "" || String.eqb s (String "010" "").

(** Backtracking matcher anchored at the start of [s]; [k] is what remains to
    be matched, given the rest of the input and the group captured so far. *)
Fixpoint match_re (A : Type) (r : regex) (s : string) (g : groups)
         (k : string -> groups -> option A) : option A :=
  match r with
  | Lit p =>
      match strip_prefix p s with
      | Some s' => k s' g
      | None => None
      end
  | Rep cls lo hi =>
      let n := span cls hi s in
      if (n <? lo)%nat then None else give_back n lo (fun m => k (drop m s) g)
  | Grp r1 =>
      match_re r1 s g
        (fun s' _ => k s' (Some (take (String.length s - String.length s') s)))
  | Seq r1 r2 => match_re r1 s g (fun s' g' => match_re r2 s' g' k)
  | Alt r1 r2 =>
      match match_re r1 s g k with
      | Some x => Some x
      | None => match_re r2 s g k
      end
  | Eol => if at_eol s then k s g else None
  end.

(** [re.search(pattern, s)]: the match at the leftmost position that has one. *)
Fixpoint search (r : regex) (s : string) : option groups :=
  match match_re r s None (fun _ g => Some g) with
  | Some m => Some m
  | None =>
      match s with
      | EmptyString => None
      | String _ t => search r t
      end
  end.

(** What the expressions mean. [matches r s g s' g']: [r] matches a prefix of
    [s], leaving the suffix [s'], and turns the captured group [g] into [g']. *)
Inductive matches : regex -> string -> groups -> string -> groups -> Prop :=
| m_lit : forall p s g, matches (Lit p) (p ++ s) g s g
| m_rep : forall cls lo hi w s g,
    all_chars cls w = true ->
    lo <= String.length w ->
    (forall h, hi = Some h -> String.length w <= h) ->
    matches (Rep cls lo hi) (w ++ s) g s g
| m_grp : forall r w s g g',
    matches r (w ++ s) g s g' -> matches (Grp r) (w ++ s) g s (Some w)
| m_seq : forall r1 r2 s g s1 g1 s2 g2,
    matches r1 s g s1 g1 -> matches r2 s1 g1 s2 g2 -> matches (Seq r1 r2) s g s2 g2
| m_alt_l : forall r1 r2 s g s' g',
    matches r1 s g s' g' -> matches (Alt r1 r2) s g s' g'
| m_alt_r : forall r1 r2 s g s' g',
    matches r2 s g s' g' -> matches (Alt r1 r2) s g s' g'
| m_eol : forall s g, at_eol s = true -> matches Eol s g s g.

(** [r] matches somewhere in [s], capturing [m]. *)
Definition matches_in (r : regex) (s : string) (m : groups) : Prop :=
  exists pre suf rest, s = pre ++ suf /\ matches r suf None rest m.

End Re.

(* ===================================================================== *)
(** ** affiliate_link_generator.py *)
(* ===================================================================== *)

Module Affiliate.

Import PyStr Re.
Open Scope string_scope.

(** The credentials the builders read from [Config]. [config.py] defines
    [AMAZON_ASSOCIATE_TAG] only ([os.getenv], [None] when unset); the other
    five are looked up behind [hasattr], so [None] stands for an attribute
    that is absent or unset. *)
Record Config : Type := {
  AMAZON_ASSOCIATE_TAG : option string;
  EBAY_CAMPAIGN_ID : option string;
  ALIEXPRESS_TRACKING_ID : option string;
  WALMART_PUBLISHER_ID : option string;
  TARGET_PUBLISHER_ID : option string;
  BESTBUY_PUBLISHER_ID : option string
}.

(** [Config] exactly as [config.py] declares it, given the environment's tag. *)
Definition repo_config (amazon_tag : option string) : Config :=
  {| AMAZON_ASSOCIATE_TAG := amazon_tag;
     EBAY_CAMPAIGN_ID := None;
     ALIEXPRESS_TRACKING_ID := None;
     WALMART_PUBLISHER_ID := None;
     TARGET_PUBLISHER_ID := None;
     BESTBUY_PUBLISHER_ID := None |}.

(** [[A-Z0-9]] and [[/?]] *)
Definition asin_char (c : ascii) : bool := is_upper c || is_digit c.
Definition slash_or_query (c : ascii) : bool := Ascii.eqb c "/" || Ascii.eqb c "?".

Definition asin_group : regex := Grp (Rep asin_char 10 (Some 10)).

(** The [patterns] of [extract_amazon_asin], in order. *)
Definition amazon_patterns : list regex :=
  [ Seq (Lit "/dp/") asin_group;                          (* /dp/([A-Z0-9]{10}) *)
    Seq (Lit "/gp/product/") asin_group;                  (* /gp/product/([A-Z0-9]{10}) *)
    Seq (Lit "/product/") asin_group;                     (* /product/([A-Z0-9]{10}) *)
    Seq (Lit "asin=") asin_group;                         (* asin=([A-Z0-9]{10}) *)
    Seq (Lit "/") (Seq asin_group
                       (Alt (Rep slash_or_query 1 (Some 1)) Eol)) ].
                                                          (* /([A-Z0-9]{10})(?:[/?]|$) *)

Definition digits_group (lo : nat) : regex := Grp (Rep is_digit lo None).

(** The [patterns] of [extract_ebay_item_id], in order. *)
Definition ebay_patterns : list regex :=
  [ Seq (Lit "/itm/") (digits_group 1);                   (* /itm/([0-9]+) *)
    Seq (Lit "item=") (digits_group 1);                   (* item=([0-9]+) *)
    Seq (Lit "/") (digits_group 12) ].                    (* /([0-9]{12,}) *)

(** [for pattern in patterns: match = re.search(pattern, url);
     if match: return match.group(1)] and [return None] after the loop. *)
Fixpoint first_match (patterns : list regex) (url : string) : option string :=
  match patterns with
  | [] => None
  | p :: rest =>
      match search p url with
      | Some m => m
      | None => first_match rest url
      end
  end.

Definition extract_amazon_asin (url : string) : option string :=
  first_match amazon_patterns url.

Definition extract_ebay_item_id (url : string) : option string :=
  first_match ebay_patterns url.

(** [separator = "&" if "?" in product_url else "?"] *)
Definition separator (product_url : string) : string :=
  if contains "?" product_url then "&" else "?".

Definition amazon_canonical (asin tag : string) : string :=
  "https://www.amazon.com/dp/" ++ asin ++ "?tag=" ++ tag ++ "&linkCode=ogi&th=1&psc=1".

Definition amazon_tag_append (product_url tag : string) : string :=
  product_url ++ separator product_url ++ "tag=" ++ tag.

Section Builders.

Variable unicode_lower : string -> string.
Variable cfg : Config.

(** Of the operations of the builders (f-strings, [re.search], [in],
    [quote], [urlencode]) only [quote] and [urlencode] can fail on text: they
    raise [UnicodeEncodeError] when a text they quote holds a surrogate. A
    builder is given by the link it returns and, where it quotes, by the
    test [..._raises] of when it raises instead of returning. *)

Definition generate_amazon_link (product_url : string) (product_id : option string) : string :=
  if negb (truthy (AMAZON_ASSOCIATE_TAG cfg)) then product_url
  else
    let tag := str_of_opt (AMAZON_ASSOCIATE_TAG cfg) in
    let asin := py_or (extract_amazon_asin product_url) product_id in
    if truthy asin then amazon_canonical (str_of_opt asin) tag
    else amazon_tag_append product_url tag.

(** [now] is [int(time.time())]. *)
Definition generate_ebay_link (now : Z) (product_url : string) (product_id : option string) : string :=
  if negb (truthy (EBAY_CAMPAIGN_ID cfg)) then product_url
  else
    let base_url := "https://rover.ebay.com/rover/1/711-53200-19255-0/1" in
    let params :=
      [ ("icep_ff3", "2");
        ("pub", str_of_opt (EBAY_CAMPAIGN_ID cfg));
        ("toolid", "10001");
        ("campid", "5338452986");
        ("customid", "");
        ("icep_item", str_of_opt (py_or product_id (extract_ebay_item_id product_url)));
        ("ipn", "psmain");
        ("icep_vectorid", "229466");
        ("kwid", "902099");
        ("mtid", "824");
        ("kw", "lg");
        ("srcrot", "711-53200-19255-0");
        ("rvr_id", "2348474186");
        ("rvr_ts", str_of_Z now) ] in
    base_url ++ "?" ++ urlencode params ++ "&mpre=" ++ quote product_url.

(** [generate_ebay_link] raises: the campaign id is set, and the campaign
    id, the item id or the product URL cannot be encoded. *)
Definition generate_ebay_link_raises (product_url : string) (product_id : option string)
  : bool :=
  truthy (EBAY_CAMPAIGN_ID cfg)
  && negb (encodable (str_of_opt (EBAY_CAMPAIGN_ID cfg))
           && encodable (str_of_opt (py_or product_id (extract_ebay_item_id product_url)))
           && encodable product_url).

Definition generate_aliexpress_link (product_url : string) (product_id : option string) : string :=
  if negb (truthy (ALIEXPRESS_TRACKING_ID cfg)) then product_url
  else
    let affiliate_params :=
      "aff_trace_key=" ++ str_of_opt (ALIEXPRESS_TRACKING_ID cfg)
      ++ "&terminal_id=d4c0d3b6c8a44e6b9c8f2e1a3b5d7f9e" in
    product_url ++ separator product_url ++ affiliate_params.

Definition generate_walmart_link (product_url : string) (product_id : option string) : string :=
  if negb (truthy (WALMART_PUBLISHER_ID cfg)) then product_url
  else
    let base_url := "https://goto.walmart.com/c/2003851/565706/9383" in
    base_url ++ "?veh=aff&sourceid=" ++ str_of_opt (WALMART_PUBLISHER_ID cfg)
    ++ "&u=" ++ quote product_url.

Definition generate_walmart_link_raises (product_url : string) : bool :=
  truthy (WALMART_PUBLISHER_ID cfg) && negb (encodable product_url).

Definition generate_target_link (product_url : string) (product_id : option string) : string :=
  if negb (truthy (TARGET_PUBLISHER_ID cfg)) then product_url
  else
    let base_url := "https://goto.target.com/c/2003851/81938/2092" in
    base_url ++ "?veh=aff&sourceid=" ++ str_of_opt (TARGET_PUBLISHER_ID cfg)
    ++ "&u=" ++ quote product_url.

Definition generate_target_link_raises (product_url : string) : bool :=
  truthy (TARGET_PUBLISHER_ID cfg) && negb (encodable product_url).

Definition generate_bestbuy_link (product_url : string) (product_id : option string) : string :=
  if negb (truthy (BESTBUY_PUBLISHER_ID cfg)) then product_url
  else
    let base_url := "https://bestbuy.7tiv.net/c/2003851/633495/10014" in
    base_url ++ "?veh=aff&sourceid=" ++ str_of_opt (BESTBUY_PUBLISHER_ID cfg)
    ++ "&u=" ++ quote product_url.

Definition generate_bestbuy_link_raises (product_url : string) : bool :=
  truthy (BESTBUY_PUBLISHER_ID cfg) && negb (encodable product_url).

Definition utm_params (store_name : string) : list (string * string) :=
  [ ("utm_source", "telegram_bot");
    ("utm_medium", "affiliate");
    ("utm_campaign", "deals_bot");
    ("utm_content", replace_space_underscore (lower unicode_lower store_name)) ].

(** What [urlencode] yields for the three fixed parameters and the key of the fourth. *)
Definition utm_prefix : string :=
  "utm_source=telegram_bot&utm_medium=affiliate&utm_campaign=deals_bot&utm_content=".

Definition generate_generic_tracking_link (product_url store_name : string) : string :=
  product_url ++ separator product_url ++ urlencode (utm_params store_name).

(** [generate_generic_tracking_link] raises: the value of [utm_content]
    cannot be encoded. *)
Definition generate_generic_tracking_link_raises (store_name : string) : bool :=
  negb (encodable (replace_space_underscore (lower unicode_lower store_name))).

(** The networks, in the order of the [if]/[elif] chain. *)
Inductive network : Type :=
  Amazon | Ebay | AliExpress | Walmart | Target | BestBuy | Generic.

(** Which branch of the chain a (lowercased) store name takes. *)
Definition route (store_name : string) : network :=
  if contains "amazon" store_name then Amazon
  else if contains "ebay" store_name then Ebay
  else if contains "aliexpress" store_name then AliExpress
  else if contains "walmart" store_name then Walmart
  else if contains "target" store_name then Target
  else if contains "bestbuy" store_name || contains "best buy" store_name then BestBuy
  else Generic.

(** The credential each network's builder requires before anything else. *)
Definition credential (n : network) : option string :=
  match n with
  | Amazon => AMAZON_ASSOCIATE_TAG cfg
  | Ebay => EBAY_CAMPAIGN_ID cfg
  | AliExpress => ALIEXPRESS_TRACKING_ID cfg
  | Walmart => WALMART_PUBLISHER_ID cfg
  | Target => TARGET_PUBLISHER_ID cfg
  | BestBuy => BESTBUY_PUBLISHER_ID cfg
  | Generic => None
  end.

(** The body of the [try]: the link of the builder the (lowercased) store
    name selects, or [None] when that builder raises. *)
Definition call_builder (now : Z) (product_url store_name : string)
           (product_id : option string) : option string :=
  match route store_name with
  | Amazon => Some (generate_amazon_link product_url product_id)
  | Ebay =>
      if generate_ebay_link_raises product_url product_id then None
      else Some (generate_ebay_link now product_url product_id)
  | AliExpress => Some (generate_aliexpress_link product_url product_id)
  | Walmart =>
      if generate_walmart_link_raises product_url then None
      else Some (generate_walmart_link product_url product_id)
  | Target =>
      if generate_target_link_raises product_url then None
      else Some (generate_target_link product_url product_id)
  | BestBuy =>
      if generate_bestbuy_link_raises product_url then None
      else Some (generate_bestbuy_link product_url product_id)
  | Generic =>
      if generate_generic_tracking_link_raises store_name then None
      else Some (generate_generic_tracking_link product_url store_name)
  end.

(** [generate_affiliate_link]: [except Exception] logs the error and returns
    the product URL. *)
Definition generate_affiliate_link (now : Z) (product_url store_name : string)
           (product_id : option string) : string :=
  let store_name := lower unicode_lower store_name in
  match call_builder now product_url store_name product_id with
  | Some link => link
  | None => product_url
  end.

End Builders.

End Affiliate.

(* ===================================================================== *)
(** ** database.py: the tables the passes read and write *)
(* ===================================================================== *)

Module Db.

Open Scope Z_scope.

(** A [datetime], in microseconds. *)
Definition datetime := Z.

(** [timedelta(hours=2)] and [timedelta(days=90)] *)
Definition hours_2 : Z := 2 * 3600 * 1000000.
Definition days_90 : Z := 90 * 86400 * 1000000.

(** SQL [col == True] on a nullable Boolean column. *)
Definition is_true (b : option bool) : bool :=
  match b with
  | Some true => true
  | _ => false
  end.

(** SQL [col < t] on a nullable DateTime column: NULL is never smaller. *)
Definition before (c : option datetime) (t : datetime) : bool :=
  match c with
  | Some x => x <? t
  | None => false
  end.

(** SQL [col >= x] on a nullable Float column: NULL is never greater or equal. *)
Definition at_least (c : option float) (x : float) : bool :=
  match c with
  | Some v => PrimFloat.leb x v
  | None => false
  end.

(** The columns of [Product] that the passes read or write. The remaining
    columns (description, URLs, category and store keys, review count, created
    and expiry dates) are only carried along by every routine modelled here. *)
Module Product.
Record t : Type := {
  id : Z;
  title : string;
  price : option float;
  original_price : option float;
  discount_percentage : option float;
  is_daily_deal : option bool;
  is_featured : option bool;
  is_active : option bool;
  rating : option float;
  updated_at : option datetime
}.

Definition set_price_update (p : t) (discount : option float) (new_price : float)
           (now : datetime) : t :=
  {| id := id p; title := title p;
     price := Some new_price;
     original_price := original_price p;
     discount_percentage := discount;
     is_daily_deal := is_daily_deal p; is_featured := is_featured p;
     is_active := is_active p; rating := rating p;
     updated_at := Some now |}.

Definition set_daily_deal (p : t) (flag : bool) (now : datetime) : t :=
  {| id := id p; title := title p;
     price := price p;
     original_price := original_price p;
     discount_percentage := discount_percentage p;
     is_daily_deal := Some flag; is_featured := is_featured p;
     is_active := is_active p; rating := rating p;
     updated_at := Some now |}.
End Product.

(** The columns of [User], as [database.py] declares them (the profile and
    preference columns are carried along). *)
Module User.
Record t : Type := {
  id : Z;
  telegram_id : Z;
  username : option string;
  is_admin : option bool;
  is_active : option bool
}.

Definition set_is_active (u : t) (flag : bool) : t :=
  {| id := id u; telegram_id := telegram_id u; username := username u;
     is_admin := is_admin u; is_active := Some flag |}.

(** The attribute names of the mapped class, as [filter_by] resolves them. *)
Definition columns : list string :=
  [ "id"; "telegram_id"; "username"; "first_name"; "last_name"; "is_admin";
    "is_active"; "preferred_categories"; "max_price_filter";
    "min_discount_filter"; "created_at"; "last_active"; "clicks" ]%string.

(** The value of a Boolean column, by name (the passes use no other column
    as a criterion). *)
Definition bool_value (name : string) (u : t) : option bool :=
  if String.eqb name "is_admin" then is_admin u
  else if String.eqb name "is_active" then is_active u
  else None.
End User.

Module ClickTracking.
Record t : Type := {
  id : Z;
  user_id : option Z;
  product_id : option Z;
  clicked_at : option datetime;
  ip_address : option string;
  user_agent : option string
}.
End ClickTracking.

Record Database : Type := {
  products : list Product.t;
  users : list User.t;
  click_tracking : list ClickTracking.t
}.

(** The session keeps one object per primary key; a commit writes the
    objects it holds back to their rows. *)
Definition find_product (i : Z) (objects : list Product.t) : option Product.t :=
  find (fun o => Product.id o =? i) objects.

Definition flush_products (objects table : list Product.t) : list Product.t :=
  map (fun row => match find_product (Product.id row) objects with
                  | Some o => o
                  | None => row
                  end) table.

Definition find_user (i : Z) (objects : list User.t) : option User.t :=
  find (fun o => User.id o =? i) objects.

Definition flush_users (objects table : list User.t) : list User.t :=
  map (fun row => match find_user (User.id row) objects with
                  | Some o => o
                  | None => row
                  end) table.

(** [session.query(User).filter_by] with Boolean keyword criteria:
    [None] when a keyword names no attribute of [User] (SQLAlchemy raises
    [InvalidRequestError]). *)
Fixpoint filter_by_users (criteria : list (string * bool)) (rows : list User.t)
  : option (list User.t) :=
  match criteria with
  | [] => Some rows
  | (name, v) :: rest =>
      if existsb (String.eqb name) User.columns then
        filter_by_users rest
          (filter (fun u => match User.bool_value name u with
                            | Some b => Bool.eqb b v
                            | None => false
                            end) rows)
      else None
  end.

End Db.

(* ===================================================================== *)
(** ** Python's [random] and float helpers *)
(* ===================================================================== *)

Module Py.

(** Truth value of a float: zero (of either sign) is false. *)
Definition float_truthy (x : float) : bool := negb (PrimFloat.eqb x 0%float).

(** [max(a, b)]: [b] only when [b > a]. *)
Definition max2 (a b : float) : float := if PrimFloat.ltb a b then b else a.

(** [l[j] = y] *)
Fixpoint list_set (A : Type) (l : list A) (j : nat) (y : A) : list A :=
  match l, j with
  | [], _ => []
  | _ :: t, 0 => y :: t
  | x :: t, S j' => x :: list_set t j' y
  end.

(** The selection loop of [random.sample(population, k)] for a population of
    at most 21 elements (the pool branch of CPython's implementation):
      [for i in range(k): j = randbelow(n - i); result[i] = pool[j];
                          pool[j] = pool[n - i - 1]].
    [rand i] is the raw random number behind the [i]-th [randbelow], which
    reduces it below its bound. *)
Fixpoint sample_loop (A : Type) (rand : nat -> nat) (n steps i : nat) (pool : list A)
  : list A :=
  match steps with
  | 0 => []
  | S steps' =>
      let j := rand i mod (n - i) in
      match nth_error pool j, nth_error pool (n - i - 1) with
      | Some x, Some y => x :: sample_loop rand n steps' (S i) (list_set pool j y)
      | _, _ => []
      end
  end.

Definition sample (A : Type) (rand : nat -> nat) (population : list A) (k : nat) : list A :=
  sample_loop rand (length population) k 0 population.

(** [random.randint(a, b)], from the raw random number [r]. *)
Definition randint (r a b : nat) : nat := a + r mod (b - a + 1).

End Py.

(* ===================================================================== *)
(** ** price_monitor.py *)
(* ===================================================================== *)

Module PriceMonitor.

Import Db Py.

(** The outcome of [random.choices(['none', 'small', 'big'], weights=[70, 20, 10])]
    together with the [random.uniform] factor drawn for a change. *)
Inductive Draw : Type :=
| NoChange
| SmallChange (factor : float)
| BigChange (factor : float).

(** An entry of [price_drops]. *)
Record PriceDrop : Type := {
  drop_product : Product.t;
  drop_old_price : float;
  drop_new_price : float;
  drop_discount : float
}.

(** The literals [0.9] and [0.99] as binary64 values. *)
Definition f0_9 : float := 0x1.ccccccccccccdp-1%float.
Definition f0_99 : float := 0x1.fae147ae147aep-1%float.

Section Passes.

(** [round(x, 2)], Python's built-in. *)
Variable round2 : float -> float.

(** [_simulate_price_change(current_price)] for a price that is a float. *)
Definition simulate_float (current_price : float) (d : Draw) : float :=
  if negb (float_truthy current_price) then current_price
  else
    match d with
    | NoChange => current_price
    | SmallChange factor | BigChange factor =>
        let new_price := round2 (current_price * factor)%float in
        max2 new_price f0_99
    end.

(** [_simulate_price_change]: a price of [None] is returned as it is. *)
Definition _simulate_price_change (current_price : option float) (d : Draw) : option float :=
  match current_price with
  | None => None
  | Some c => Some (simulate_float c d)
  end.

(** [discount_pct if discount_pct > 0 else None] for
    [discount_pct = ((original_price - new_price) / original_price) * 100]. *)
Definition discount_of (original_price new_price : float) : option float :=
  let discount_pct := ((original_price - new_price) / original_price * 100)%float in
  if PrimFloat.ltb 0%float discount_pct then Some discount_pct else None.

(** Lines 80-97 of the loop body, for a product whose price is [old_price]
    and whose simulated price is [new_price]: the product afterwards and the
    entry appended to [price_drops], if any. *)
Definition apply_price (now : datetime) (product : Product.t)
           (old_price new_price : float) : Product.t * bool * option PriceDrop :=
  if negb (PrimFloat.eqb new_price old_price) then
    let discount :=
      match Product.original_price product with
      | Some original =>
          if float_truthy original then discount_of original new_price
          else Product.discount_percentage product
      | None => Product.discount_percentage product
      end in
    let product' := Product.set_price_update product discount new_price now in
    let drop :=
      if float_truthy old_price && PrimFloat.ltb new_price (old_price * f0_9)%float
      then Some {| drop_product := product';
                   drop_old_price := old_price;
                   drop_new_price := new_price;
                   drop_discount := ((old_price - new_price) / old_price * 100)%float |}
      else None in
    (product', true, drop)
  else (product, false, None).

(** One iteration of [for product in products]. A price of [None] simulates
    to [None], and [None != None] is false. Nothing in the body can raise on
    floats (the division is guarded by the truth value of [original_price]),
    so the [except] of the iteration is never entered. *)
Definition update_product (now : datetime) (product : Product.t) (d : Draw)
  : Product.t * bool * option PriceDrop :=
  match Product.price product, _simulate_price_change (Product.price product) d with
  | Some old_price, Some new_price => apply_price now product old_price new_price
  | _, _ => (product, false, None)
  end.

Record UpdateResult : Type := {
  objects : list Product.t;
  updated_count : nat;
  price_drops : list PriceDrop
}.

(** The loop over the batch; [draws i] and [stamp i] are the random draw and
    the reading of [datetime.utcnow()] at the [i]-th product. *)
Fixpoint update_loop (draws : nat -> Draw) (stamp : nat -> datetime) (i : nat)
         (batch : list Product.t) : UpdateResult :=
  match batch with
  | [] => {| objects := []; updated_count := 0; price_drops := [] |}
  | product :: rest =>
      let '(product', changed, drop) := update_product (stamp i) product (draws i) in
      let r := update_loop draws stamp (S i) rest in
      {| objects := product' :: objects r;
         updated_count := (if changed then 1 else 0) + updated_count r;
         price_drops := match drop with
                        | Some d => d :: price_drops r
                        | None => price_drops r
                        end |}
  end.

(** The object the loop leaves for the [j]-th product of the batch. *)
Definition updated (draws : nat -> Draw) (stamp : nat -> datetime) (j : nat)
           (p : Product.t) : Product.t :=
  fst (fst (update_product (stamp j) p (draws j))).

(** The filter of the query: active, and last updated before the cutoff. *)
Definition stale (cutoff_time : datetime) (p : Product.t) : bool :=
  is_true (Product.is_active p) && before (Product.updated_at p) cutoff_time.

(** [session.query(Product).filter(...).limit(50).all()]: the first 50 rows
    that pass the filter, in the order the table yields them. *)
Definition stale_batch (now : datetime) (table : list Product.t) : list Product.t :=
  let cutoff_time := (now - hours_2)%Z in
  firstn 50 (filter (stale cutoff_time) table).

Record PassResult : Type := {
  table_after : list Product.t;
  pass_updated : nat;
  pass_drops : list PriceDrop
}.

(** [update_product_prices]: the products table after [session.commit()],
    the logged count and the price drops queued for notification (handing
    them to [_notify_price_drops] happens after the commit). *)
Definition update_product_prices (now : datetime) (draws : nat -> Draw)
           (stamp : nat -> datetime) (table : list Product.t) : PassResult :=
  let products := stale_batch now table in
  let r := update_loop draws stamp 0 products in
  {| table_after := flush_products (objects r) table;
     pass_updated := updated_count r;
     pass_drops := price_drops r |}.

End Passes.

(** *** refresh_daily_deals *)

(** [session.query(Product).filter(Product.is_daily_deal == True).update(
     {'is_daily_deal': False})]; the UPDATE also applies the column's
    [onupdate=datetime.utcnow]. *)
Definition clear_daily_deals (now : datetime) (table : list Product.t) : list Product.t :=
  map (fun p => if is_true (Product.is_daily_deal p)
                then Product.set_daily_deal p false now else p) table.

(** The filter of the candidates query. *)
Definition is_candidate (p : Product.t) : bool :=
  is_true (Product.is_active p)
  && at_least (Product.discount_percentage p) 15%float
  && at_least (Product.rating p) 4%float.

(** [ORDER BY discount_percentage DESC], NULLs last. *)
Definition discount_geb (a b : Product.t) : bool :=
  match Product.discount_percentage a, Product.discount_percentage b with
  | Some x, Some y => PrimFloat.leb y x
  | Some _, None => true
  | None, Some _ => false
  | None, None => true
  end.

Fixpoint insert_desc (p : Product.t) (l : list Product.t) : list Product.t :=
  match l with
  | [] => [p]
  | q :: l' => if discount_geb p q then p :: q :: l' else q :: insert_desc p l'
  end.

Definition order_by_discount_desc (l : list Product.t) : list Product.t :=
  fold_right insert_desc [] l.

(** A product the ordering ranks: its discount is set and is a number. *)
Definition ranked (p : Product.t) : Prop :=
  exists d, Product.discount_percentage p = Some d /\ PrimFloat.leb d d = true.

(** [a] is ordered before or level with [b]. *)
Definition geR (a b : Product.t) : Prop := discount_geb a b = true.

(** [session.query(Product).filter(...).order_by(...desc()).limit(20).all()] *)
Definition candidates (table : list Product.t) : list Product.t :=
  firstn 20 (order_by_discount_desc (filter is_candidate table)).

(** [for product in daily_deals: product.is_daily_deal = True; ...] *)
Fixpoint mark_daily_deals (stamp : nat -> datetime) (i : nat) (deals : list Product.t)
  : list Product.t :=
  match deals with
  | [] => []
  | p :: rest => Product.set_daily_deal p true (stamp i) :: mark_daily_deals stamp (S i) rest
  end.

Record DealsResult : Type := {
  deals_cleared : list Product.t;     (* the table after the clearing UPDATE *)
  deals_candidates : list Product.t;
  num_deals : nat;
  daily_deals : list Product.t;
  deals_table : list Product.t        (* the table after the commit *)
}.

(** [refresh_daily_deals]; [r_num] is the raw random number behind
    [random.randint(8, 12)] and [rand] those behind [random.sample]. *)
Definition refresh_daily_deals (now : datetime) (stamp : nat -> datetime)
           (r_num : nat) (rand : nat -> nat) (table : list Product.t) : DealsResult :=
  let cleared := clear_daily_deals now table in
  let cands := candidates cleared in
  let n := randint r_num 8 12 in
  let deals := sample rand cands (Nat.min n (length cands)) in
  {| deals_cleared := cleared;
     deals_candidates := cands;
     num_deals := n;
     daily_deals := deals;
     deals_table := flush_products (mark_daily_deals stamp 0 deals) cleared |}.

(** *** cleanup_old_data *)

(** [session.query(ClickTracking).filter(ClickTracking.clicked_at < cutoff_date).delete()]:
    the database after the commit and the number of rows deleted. *)
Definition cleanup_old_data (now : datetime) (db : Database) : Database * nat :=
  let cutoff_date := (now - days_90)%Z in
  let old := fun c => before (ClickTracking.clicked_at c) cutoff_date in
  ({| products := products db;
      users := users db;
      click_tracking := filter (fun c => negb (old c)) (click_tracking db) |},
   length (filter old (click_tracking db))).

End PriceMonitor.

(* ===================================================================== *)
(** ** notifications.py *)
(* ===================================================================== *)

Module Notifications.

Import Db PyStr.
Open Scope string_scope.

(** What [await self.bot.send_message(...)] does: it returns, or raises a
    [TelegramError] whose [str] is [message] (the transport reports every
    delivery failure as a [TelegramError]). *)
Inductive SendResult : Type :=
| Delivered
| TelegramError (message : string).

(** The lines written to the log. *)
Inductive LogEntry : Type :=
| InfoNoDailyDeals                                  (* "No daily deals to send" *)
| ErrorSendFailed (chat_id : Z) (message : string)  (* "Failed to send ... to user ..." *)
| InfoSentCount (n : nat)                           (* "... sent to {sent_count} users" *)
| ErrorPriceDropAlert.                              (* "Error sending price drop alert: ..." *)

(** ["bot was blocked" in str(e).lower()] *)
Definition bot_was_blocked (unicode_lower : string -> string) (message : string) : bool :=
  contains "bot was blocked" (lower unicode_lower message).

Record NotifyResult : Type := {
  users_after : list User.t;   (* the users table when the coroutine ends *)
  log : list LogEntry;
  attempts : list Z;           (* the chat ids [send_message] was called with, in order *)
  raised : bool                (* whether the coroutine ended by an exception *)
}.

Record LoopState : Type := {
  ls_table : list User.t;      (* committed rows *)
  ls_objects : list User.t;    (* objects changed and not yet committed *)
  ls_sent : nat;
  ls_log : list LogEntry;
  ls_attempts : list Z
}.

Definition is_delivered (r : SendResult) : bool :=
  match r with
  | Delivered => true
  | TelegramError _ => false
  end.

(** [enumerate(l)] *)
Definition enumerate (A : Type) (l : list A) : list (nat * A) :=
  combine (seq 0 (length l)) l.

(** The failures among the calls [(i, user)] of a pass, as the log lists them. *)
Definition failures (send : nat -> Z -> SendResult) (calls : list (nat * User.t))
  : list LogEntry :=
  flat_map (fun iu => match send (fst iu) (User.telegram_id (snd iu)) with
                      | Delivered => []
                      | TelegramError e => [ErrorSendFailed (User.telegram_id (snd iu)) e]
                      end) calls.

(** How many of the calls [(i, user)] of a pass are delivered. *)
Definition deliveries (send : nat -> Z -> SendResult) (calls : list (nat * User.t))
  : nat :=
  length (filter (fun iu => is_delivered (send (fst iu) (User.telegram_id (snd iu))))
                 calls).

Section Transport.

Variable unicode_lower : string -> string.

(** [send i chat_id]: the outcome of the [i]-th call of a pass, to [chat_id].
    The text of the message plays no part in what the passes do next. *)
Variable send : nat -> Z -> SendResult.

(** The loop of [send_daily_deals_notification]: a blocked user is
    deactivated and committed at once. *)
Fixpoint daily_loop (i : nat) (recipients : list User.t) (st : LoopState) : LoopState :=
  match recipients with
  | [] => st
  | user :: rest =>
      let chat := User.telegram_id user in
      match send i chat with
      | Delivered =>
          daily_loop (S i) rest
            {| ls_table := ls_table st; ls_objects := ls_objects st;
               ls_sent := S (ls_sent st);
               ls_log := ls_log st;
               ls_attempts := ls_attempts st ++ [chat] |}
      | TelegramError e =>
          daily_loop (S i) rest
            {| ls_table := if bot_was_blocked unicode_lower e
                           then flush_users [User.set_is_active user false] (ls_table st)
                           else ls_table st;
               ls_objects := ls_objects st;
               ls_sent := ls_sent st;
               ls_log := ls_log st ++ [ErrorSendFailed chat e];
               ls_attempts := ls_attempts st ++ [chat] |}
      end
  end.

(** The loop of [send_price_drop_alert]: a blocked user is deactivated in the
    session; the commit follows the loop. *)
Fixpoint alert_loop (i : nat) (recipients : list User.t) (st : LoopState) : LoopState :=
  match recipients with
  | [] => st
  | user :: rest =>
      let chat := User.telegram_id user in
      match send i chat with
      | Delivered =>
          alert_loop (S i) rest
            {| ls_table := ls_table st; ls_objects := ls_objects st;
               ls_sent := S (ls_sent st);
               ls_log := ls_log st;
               ls_attempts := ls_attempts st ++ [chat] |}
      | TelegramError e =>
          alert_loop (S i) rest
            {| ls_table := ls_table st;
               ls_objects := if bot_was_blocked unicode_lower e
                             then ls_objects st ++ [User.set_is_active user false]
                             else ls_objects st;
               ls_sent := ls_sent st;
               ls_log := ls_log st ++ [ErrorSendFailed chat e];
               ls_attempts := ls_attempts st ++ [chat] |}
      end
  end.

(** What the loop of the daily pass makes of one row of the users table:
    the row is replaced when a blocked recipient has its key. *)
Fixpoint settle (i : nat) (recipients : list User.t) (row : User.t) : User.t :=
  match recipients with
  | [] => row
  | user :: rest =>
      settle (S i) rest
        (match send i (User.telegram_id user) with
         | Delivered => row
         | TelegramError e =>
             if bot_was_blocked unicode_lower e && (User.id row =? User.id user)%Z
             then User.set_is_active user false else row
         end)
  end.

Definition start (table : list User.t) : LoopState :=
  {| ls_table := table; ls_objects := []; ls_sent := 0; ls_log := []; ls_attempts := [] |}.

(** The [daily_deals] query: flagged, active, at most 5. *)
Definition todays_deals (products : list Product.t) : list Product.t :=
  firstn 5 (filter (fun p => is_true (Product.is_daily_deal p)
                             && is_true (Product.is_active p)) products).

Definition send_daily_deals_notification (db : Database) : NotifyResult :=
  match todays_deals (products db) with
  | [] =>
      {| users_after := users db; log := [InfoNoDailyDeals]; attempts := []; raised := false |}
  | _ :: _ =>
      match filter_by_users [("is_active", true)] (users db) with
      | None =>
          {| users_after := users db; log := []; attempts := []; raised := true |}
      | Some recipients =>
          let st := daily_loop 0 recipients (start (users db)) in
          {| users_after := ls_table st;
             log := ls_log st ++ [InfoSentCount (ls_sent st)];
             attempts := ls_attempts st;
             raised := false |}
      end
  end.

(** [send_price_drop_alert]; the product and the prices only appear in the
    text of the message. A failing query is caught by [except Exception]. *)
Definition send_price_drop_alert (db : Database) : NotifyResult :=
  match filter_by_users [("is_active", true); ("notifications_enabled", true)] (users db) with
  | None =>
      {| users_after := users db; log := [ErrorPriceDropAlert]; attempts := []; raised := false |}
  | Some [] =>
      {| users_after := users db; log := []; attempts := []; raised := false |}
  | Some recipients =>
      let st := alert_loop 0 recipients (start (users db)) in
      {| users_after := flush_users (ls_objects st) (ls_table st);
         log := ls_log st ++ [InfoSentCount (ls_sent st)];
         attempts := ls_attempts st;
         raised := false |}
  end.

End Transport.

End Notifications.

(* ===================================================================== *)
(** ** Sample rows *)
(* ===================================================================== *)

Module Examples.

Import Db.

(** The texts of the examples are ASCII unless they hold [surrogate], and
    none of those is lowercased: [unicode_lower] is never consulted. *)
Definition ascii_only (s : string) : string := s.

(** The surrogate U+D800, as [surrogatepass] writes it. *)
Definition surrogate : string :=
  String "237" (String "160" (String "128" EmptyString)).

(** A configuration that has the Walmart publisher id only. *)
Definition walmart_config : Affiliate.Config :=
  {| Affiliate.AMAZON_ASSOCIATE_TAG := None;
     Affiliate.EBAY_CAMPAIGN_ID := None;
     Affiliate.ALIEXPRESS_TRACKING_ID := None;
     Affiliate.WALMART_PUBLISHER_ID := Some "pub42"%string;
     Affiliate.TARGET_PUBLISHER_ID := None;
     Affiliate.BESTBUY_PUBLISHER_ID := None |}.

(** An active, unfeatured product rated 4.5. *)
Definition product (id : Z) (price original_price discount : option float)
           (daily_deal : bool) (updated_at : datetime) : Product.t :=
  {| Product.id := id;
     Product.title := "Sample product";
     Product.price := price;
     Product.original_price := original_price;
     Product.discount_percentage := discount;
     Product.is_daily_deal := Some daily_deal;
     Product.is_featured := Some false;
     Product.is_active := Some true;
     Product.rating := Some 4.5%float;
     Product.updated_at := Some updated_at |}.

Definition user (id telegram_id : Z) (active : bool) : User.t :=
  {| User.id := id;
     User.telegram_id := telegram_id;
     User.username := None;
     User.is_admin := Some false;
     User.is_active := Some active |}.

Definition click (id : Z) (clicked_at : option datetime) : ClickTracking.t :=
  {| ClickTracking.id := id;
     ClickTracking.user_id := Some 1%Z;
     ClickTracking.product_id := None;
     ClickTracking.clicked_at := clicked_at;
     ClickTracking.ip_address := None;
     ClickTracking.user_agent := None |}.

(** A database with one active daily deal and the given users. *)
Definition sample_db (users : list User.t) : Database :=
  {| products := [product 1 (Some 80%float) (Some 100%float) (Some 20%float) true 0%Z];
     users := users;
     click_tracking := [] |}.

(** Thirteen active products rated 4.5 with discounts of 21% to 33%, none
    flagged, and one with a discount of 5%. *)
Definition catalogue : list Product.t :=
  map (fun kd => product (Z.of_nat (fst kd)) (Some 50%float) (Some 100%float)
                         (Some (snd kd)) false 0%Z)
      (combine (seq 1 13)
               [21; 22; 23; 24; 25; 26; 27; 28; 29; 30; 31; 32; 33]%float)
  ++ [product 14 (Some 95%float) (Some 100%float) (Some 5%float) true 0%Z].

(** Three hours, in microseconds: a time of day at which a row last updated
    at time 0 is stale. *)
Definition three_hours : datetime := (3 * 3600 * 1000000)%Z.

End Examples.

(* ===================================================================== *)
(** ** Counting characters *)
(* ===================================================================== *)

Module Text.

(** [s.count(c)] for a single character. *)
Fixpoint count_char (c : ascii) (s : string) : nat :=
  match s with
  | EmptyString => 0
  | String a t => (if Ascii.eqb a c then 1 else 0) + count_char c t
  end.

(** The characters [quote] leaves in its result. *)
Definition quoted_char (c : ascii) : bool :=
  PyStr.unreserved c || Ascii.eqb c "/" || Ascii.eqb c "%".

(** The characters [quote_plus] leaves in its result. *)
Definition plus_quoted_char (c : ascii) : bool :=
  PyStr.unreserved c || Ascii.eqb c "+" || Ascii.eqb c "%".

End Text.

(* ===================================================================== *)
(** ** affiliate_manager.py: the first link generator *)
(* ===================================================================== *)

Module LegacyAffiliate.

Import PyStr Re Affiliate.
Open Scope string_scope.

(** The [patterns] of [AffiliateManager.extract_amazon_asin], in order. *)
Definition patterns : list regex :=
  [ Seq (Lit "/dp/") asin_group;                          (* /dp/([A-Z0-9]{10}) *)
    Seq (Lit "/gp/product/") asin_group;                  (* /gp/product/([A-Z0-9]{10}) *)
    Seq (Lit "asin=") asin_group;                         (* asin=([A-Z0-9]{10}) *)
    Seq (Lit "/") (Seq asin_group
                       (Alt (Rep slash_or_query 1 (Some 1)) Eol)) ].
                                                          (* /([A-Z0-9]{10})(?:[/?]|$) *)

Definition extract_amazon_asin (url : string) : option string :=
  first_match patterns url.

(** [add_tracking_parameters(url, store_name)]; [now] is [int(time.time())]. *)
Definition add_tracking_parameters (now : Z) (url store_name : string) : string :=
  let tracking_id := "affiliate_bot_" ++ str_of_Z now in
  url ++ separator url ++ "utm_source=affiliate_bot&utm_medium=telegram&utm_campaign="
      ++ store_name ++ "&ref=" ++ tracking_id.

Section Manager.

Variable unicode_lower : string -> string.
Variable cfg : Config.

Definition generate_amazon_affiliate_link (product_url : string) : string :=
  if negb (truthy (AMAZON_ASSOCIATE_TAG cfg)) then product_url
  else
    let tag := str_of_opt (AMAZON_ASSOCIATE_TAG cfg) in
    let asin := extract_amazon_asin product_url in
    if truthy asin then "https://www.amazon.com/dp/" ++ str_of_opt asin ++ "?tag=" ++ tag
    else product_url ++ separator product_url ++ "tag=" ++ tag.

Definition generate_ebay_affiliate_link (now : Z) (product_url : string) : string :=
  add_tracking_parameters now product_url "ebay".

Definition generate_aliexpress_affiliate_link (now : Z) (product_url : string) : string :=
  add_tracking_parameters now product_url "aliexpress".

(** [generate_affiliate_link(product_url, store_name, product_title="")];
    the title plays no part. Nothing is quoted, so nothing raises. *)
Definition generate_affiliate_link (now : Z) (product_url store_name : string) : string :=
  let store_name := lower unicode_lower store_name in
  if contains "amazon" store_name then generate_amazon_affiliate_link product_url
  else if contains "ebay" store_name then generate_ebay_affiliate_link now product_url
  else if contains "aliexpress" store_name then generate_aliexpress_affiliate_link now product_url
  else add_tracking_parameters now product_url store_name.

End Manager.

End LegacyAffiliate.

(* ===================================================================== *)
(** ** price_monitor.py: statistics and the hand-over of price drops *)
(* ===================================================================== *)

Module Monitoring.

Import Db Py PriceMonitor Notifications.

Record Stats : Type := {
  total_products : nat;
  active_products : nat;
  daily_deals_count : nat;           (* the entry ['daily_deals'] *)
  last_update : option datetime
}.

(** [filter(Product.updated_at.isnot(None)).order_by(Product.updated_at.desc())
     .first()], then its [updated_at]: the greatest date that is set. *)
Fixpoint latest_update (rows : list Product.t) : option datetime :=
  match rows with
  | [] => None
  | p :: rest =>
      match Product.updated_at p, latest_update rest with
      | Some t, Some t' => Some (Z.max t t')
      | Some t, None => Some t
      | None, r => r
      end
  end.

Definition get_monitoring_stats (table : list Product.t) : Stats :=
  {| total_products := length table;
     active_products := length (filter (fun p => is_true (Product.is_active p)) table);
     daily_deals_count := length (filter (fun p => is_true (Product.is_daily_deal p)) table);
     last_update := latest_update table |}.

Record Handover : Type := {
  ho_users : list User.t;        (* the users table afterwards *)
  ho_log : list LogEntry;
  ho_attempts : list Z
}.

(** [_notify_price_drops(price_drops)]: one [send_price_drop_alert] per
    drop, in order; [sends k] is the transport during the [k]-th alert. *)
Fixpoint _notify_price_drops (unicode_lower : string -> string)
         (sends : nat -> nat -> Z -> SendResult) (k : nat)
         (price_drops : list PriceDrop) (db : Database) : Handover :=
  match price_drops with
  | [] => {| ho_users := users db; ho_log := []; ho_attempts := [] |}
  | _ :: rest =>
      let r := send_price_drop_alert unicode_lower (sends k) db in
      let db' := {| products := products db;
                    users := users_after r;
                    click_tracking := click_tracking db |} in
      let h := _notify_price_drops unicode_lower sends (S k) rest db' in
      {| ho_users := ho_users h;
         ho_log := log r ++ ho_log h;
         ho_attempts := attempts r ++ ho_attempts h |}
  end.

End Monitoring.

(* ===================================================================== *)
(** ** bot_handlers.py: recording a click *)
(* ===================================================================== *)

Module Clicks.

Import Db.
Open Scope Z_scope.

(** The key SQLite gives a new row: one more than the greatest key in use. *)
Definition next_click_id (clicks : list ClickTracking.t) : Z :=
  Z.succ (fold_right Z.max 0 (map ClickTracking.id clicks)).

(** An integer SQLite can bind to a statement: a signed 64-bit one. Binding
    any other raises [OverflowError]. *)
Definition sqlite_integer (n : Z) : bool := (- 2 ^ 63 <=? n) && (n <? 2 ^ 63).

(** [track_click(telegram_user_id, product_id)]: the database afterwards and
    whether the call raised; [now] is the reading of [datetime.utcnow()].
    The query binds [telegram_user_id] and the INSERT of the commit binds
    the user's key and [product_id]; when one of them cannot be bound the
    call raises [OverflowError] and no row is added. *)
Definition track_click (now : datetime) (telegram_user_id product_id : Z)
           (db : Database) : Database * bool :=
  if negb (sqlite_integer telegram_user_id) then (db, true)
  else
    match find (fun u => User.telegram_id u =? telegram_user_id) (users db) with
    | Some user =>
        if negb (sqlite_integer (User.id user) && sqlite_integer product_id)
        then (db, true)
        else
          ({| products := products db;
              users := users db;
              click_tracking :=
                click_tracking db
                ++ [ {| ClickTracking.id := next_click_id (click_tracking db);
                        ClickTracking.user_id := Some (User.id user);
                        ClickTracking.product_id := Some product_id;
                        ClickTracking.clicked_at := Some now;
                        ClickTracking.ip_address := None;
                        ClickTracking.user_agent := None |} ] |}, false)
    | None => (db, false)
    end.

End Clicks.

(* ===================================================================== *)
(** ** bot_handlers.py: registering a user *)
(* ===================================================================== *)

Module Registration.

Import Db.
Open Scope Z_scope.








End Registration.

(* ===================================================================== *)
(** ** notifications.py: UserPreferences *)
(* ===================================================================== *)

Module Prefs.

Open Scope Z_scope.








End Prefs.

(* ===================================================================== *)
(** ** database.py and config.py: the default stores *)
(* ===================================================================== *)

Module Defaults.

Import Db.
Open Scope string_scope.

Module Store.
Record t : Type := {
  id : Z;
  name : string;
  website_url : option string;
  affiliate_network : option string;
  commission_rate : option float;
  created_at : option datetime
}.
End Store.

(** [Config.SUPPORTED_STORES] *)
Definition SUPPORTED_STORES : list string :=
  [ "Amazon"; "eBay"; "AliExpress"; "Walmart"; "Target"; "Best Buy";
    "Nike"; "Adidas"; "Zara"; "H&M"; "Sephora"; "Ulta";
    "Home Depot"; "Lowe's"; "IKEA"; "Wayfair" ].

(** The keys of [Config.CATEGORIES] *)
Definition CATEGORY_KEYS : list string :=
  [ "daily_deals"; "electronics"; "mens_clothing"; "womens_clothing"; "beauty";
    "household"; "kitchen"; "sports"; "books"; "toys"; "automotive"; "health" ].

Definition next_store_id (table : list Store.t) : Z :=
  Z.succ (fold_right Z.max 0%Z (map Store.id table)).

(** [Store(name=store_name)] once inserted: the column defaults apply. *)
Definition new_store (now : datetime) (table : list Store.t) (store_name : string) : Store.t :=
  {| Store.id := next_store_id table;
     Store.name := store_name;
     Store.website_url := None;
     Store.affiliate_network := None;
     Store.commission_rate := Some 0%float;
     Store.created_at := Some now |}.

(** [session.query(Store).filter_by(name=store_name).first()] finds a row. *)
Definition has_store (store_name : string) (table : list Store.t) : bool :=
  existsb (fun s => String.eqb (Store.name s) store_name) table.

(** The loop of [add_default_stores]; each query sees the stores added
    before it (the session flushes before a query). [stamp i] is the
    reading of the clock when the [i]-th name is inserted. *)
Fixpoint add_stores (stamp : nat -> datetime) (i : nat) (names : list string)
         (table : list Store.t) : list Store.t :=
  match names with
  | [] => table
  | store_name :: rest =>
      add_stores stamp (S i) rest
        (if has_store store_name table then table
         else (table ++ [new_store (stamp i) table store_name])%list)
  end.

Definition add_default_stores (stamp : nat -> datetime) (table : list Store.t)
  : list Store.t :=
  add_stores stamp 0 SUPPORTED_STORES table.

End Defaults.

(* ===================================================================== *)
(** ** product_scraper.py: categorising a title *)
(* ===================================================================== *)

Module Scraper.

Import PyStr.
Open Scope string_scope.

Definition electronics_keywords : list string :=
  [ "phone"; "laptop"; "computer"; "tablet"; "headphone"; "speaker"; "tv";
    "monitor"; "camera"; "gaming"; "console"; "iphone"; "samsung"; "apple";
    "sony"; "lg" ].

Definition clothing_keywords : list string :=
  [ "shirt"; "pants"; "dress"; "shoes"; "jacket"; "coat"; "jeans"; "sneakers";
    "boots"; "hat"; "cap"; "sweater"; "hoodie"; "shorts" ].

Definition beauty_keywords : list string :=
  [ "makeup"; "lipstick"; "foundation"; "mascara"; "skincare"; "cream"; "serum";
    "perfume"; "cologne"; "beauty"; "cosmetic" ].

Definition kitchen_keywords : list string :=
  [ "kitchen"; "cooking"; "pot"; "pan"; "knife"; "blender"; "mixer"; "coffee";
    "maker"; "cookware"; "utensil" ].

Definition household_keywords : list string :=
  [ "vacuum"; "cleaning"; "furniture"; "home"; "decor"; "lamp"; "chair"; "table";
    "bed"; "storage" ].

Definition mens_words : list string := [ "men"; "mens"; "men's"; "male"; "boy" ].

Definition womens_words : list string :=
  [ "women"; "womens"; "women's"; "female"; "girl"; "ladies" ].

(** [any(keyword in text for keyword in keywords)] *)
Definition any_in (keywords : list string) (text : string) : bool :=
  existsb (fun keyword => contains keyword text) keywords.

Definition _categorize_product (unicode_lower : string -> string) (title : string)
  : string :=
  let title_lower := lower unicode_lower title in
  if any_in electronics_keywords title_lower then "electronics"
  else if any_in clothing_keywords title_lower then
    if any_in mens_words title_lower then "mens_clothing"
    else if any_in womens_words title_lower then "womens_clothing"
    else "mens_clothing"
  else if any_in beauty_keywords title_lower then "beauty"
  else if any_in kitchen_keywords title_lower then "kitchen"
  else if any_in household_keywords title_lower then "household"
  else "electronics".

End Scraper.

Unset Implicit Arguments.

(* ===================================================================== *)
(** * Properties *)
(* ===================================================================== *)

(** ** Strings *)

Module PyStrFacts.

Import PyStr.
Open Scope string_scope.

Lemma app_nil_r (s : string) : s ++ "" = s.
Proof. induction s as [|c s IH]; simpl; [reflexivity | now rewrite IH]. Qed.

Lemma app_assoc (a b c : string) : (a ++ b) ++ c = a ++ (b ++ c).
Proof. induction a as [|x a IH]; simpl; [reflexivity | now rewrite IH]. Qed.

Lemma length_app (a b : string) :
  String.length (a ++ b) = String.length a + String.length b.
Proof. induction a as [|x a IH]; simpl; [reflexivity | now rewrite IH]. Qed.

Lemma app_inv_head (a b c : string) : a ++ b = a ++ c -> b = c.
Proof.
  induction a as [|x a IH]; simpl; intros H; [exact H|].
  injection H as H. now apply IH.
Qed.

Lemma strip_prefix_app (p s : string) : strip_prefix p (p ++ s) = Some s.
Proof.
  induction p as [|a p IH]; simpl; [reflexivity|].
  now rewrite Ascii.eqb_refl.
Qed.

Lemma strip_prefix_Some (p s s' : string) :
  strip_prefix p s = Some s' -> s = p ++ s'.
Proof.
  revert s; induction p as [|a p IH]; simpl; intros s H.
  - now injection H as ->.
  - destruct s as [|b s]; [discriminate|].
    destruct (Ascii.eqb_spec a b) as [->|]; [|discriminate].
    now rewrite (IH _ H).
Qed.

Lemma contains_unfold (needle hay : string) :
  contains needle hay =
  match strip_prefix needle hay with
  | Some _ => true
  | None => match hay with
            | EmptyString => false
            | String _ t => contains needle t
            end
  end.
Proof. destruct hay; reflexivity. Qed.

(** [needle in hay] holds exactly when [hay] splits around [needle]. *)
Lemma contains_true_iff (needle hay : string) :
  contains needle hay = true <-> exists pre post, hay = pre ++ needle ++ post.
Proof.
  split.
  - induction hay as [|c t IH]; rewrite contains_unfold.
    + destruct (strip_prefix needle "") as [r|] eqn:E; [|discriminate].
      intros _. exists "", r. simpl. now apply strip_prefix_Some.
    + destruct (strip_prefix needle (String c t)) as [r|] eqn:E.
      * intros _. exists "", r. simpl. now apply strip_prefix_Some.
      * intros H. destruct (IH H) as (pre & post & ->).
        now exists (String c pre), post.
  - intros (pre & post & ->). induction pre as [|c pre IH].
    + rewrite contains_unfold. simpl. now rewrite strip_prefix_app.
    + rewrite contains_unfold.
      destruct (strip_prefix needle (String c pre ++ needle ++ post)); [reflexivity|].
      exact IH.
Qed.

Lemma contains_app_l (needle a b : string) :
  contains needle a = true -> contains needle (a ++ b) = true.
Proof.
  rewrite !contains_true_iff. intros (pre & post & ->).
  exists pre, (post ++ b). now rewrite !app_assoc.
Qed.

Lemma contains_app_r (needle a b : string) :
  contains needle b = true -> contains needle (a ++ b) = true.
Proof.
  rewrite !contains_true_iff. intros (pre & post & ->).
  exists (a ++ pre), post. now rewrite !app_assoc.
Qed.

Lemma is_upper_lower_char (c : ascii) : is_upper (lower_char c) = false.
Proof.
  unfold lower_char. destruct (is_upper c) eqn:E; [|exact E].
  destruct c as [[] [] [] [] [] [] [] []]; vm_compute in E; try discriminate; reflexivity.
Qed.

Lemma lower_char_idem (c : ascii) : lower_char (lower_char c) = lower_char c.
Proof.
  unfold lower_char at 1. now rewrite is_upper_lower_char.
Qed.

Lemma lower_char_ascii (c : ascii) :
  (nat_of_ascii c <? 128)%nat = true -> (nat_of_ascii (lower_char c) <? 128)%nat = true.
Proof.
  destruct c as [[] [] [] [] [] [] [] []]; intros H; try discriminate H; reflexivity.
Qed.

Lemma lower_ascii_text (s : string) :
  is_ascii_text s = true -> is_ascii_text (map_chars lower_char s) = true.
Proof.
  unfold is_ascii_text. induction s as [|c s IH]; simpl; [reflexivity|].
  intros H. apply andb_prop in H as [Hc Hs].
  now rewrite (lower_char_ascii _ Hc), IH.
Qed.

(** On ASCII text, [lower] is the mapping of the letters, whatever the
    Unicode database is. *)
Lemma lower_ascii (u : string -> string) (s : string) :
  is_ascii_text s = true -> lower u s = map_chars lower_char s.
Proof. intros H. unfold lower. now rewrite H. Qed.

Lemma lower_idem (u : string -> string) (s : string) :
  is_ascii_text s = true -> lower u (lower u s) = lower u s.
Proof.
  intros H. rewrite (lower_ascii u s H).
  rewrite (lower_ascii u _ (lower_ascii_text s H)).
  induction s as [|c s IH]; simpl; [reflexivity|].
  apply andb_prop in H as [_ Hs]. now rewrite lower_char_idem, IH.
Qed.

Lemma quote_plus_unreserved (s : string) :
  all_chars unreserved s = true -> quote_plus s = s.
Proof.
  induction s as [|c s IH]; simpl; [reflexivity|].
  intros H. apply andb_true_iff in H as [Hc Hs].
  now rewrite Hc, IH.
Qed.

Lemma truthy_Some (s : string) : truthy (Some s) = true <-> s <> "".
Proof.
  unfold truthy. destruct (String.eqb_spec s ""); simpl; split; congruence.
Qed.

Lemma truthy_false_iff (o : option string) :
  truthy o = false <-> o = None \/ o = Some "".
Proof.
  destruct o as [s|]; simpl.
  - destruct (String.eqb_spec s ""); simpl; split; intros H.
    + right; congruence.
    + reflexivity.
    + discriminate.
    + destruct H as [H|H]; congruence.
  - split; auto.
Qed.

End PyStrFacts.

(** ** The matcher agrees with the meaning of the expressions *)

Module ReFacts.

Import PyStr Re PyStrFacts.
Open Scope string_scope.

Lemma take_drop (n : nat) (s : string) : take n s ++ drop n s = s.
Proof.
  revert s; induction n as [|n IH]; intros [|c s]; simpl; try reflexivity.
  now rewrite IH.
Qed.

Lemma length_take (n : nat) (s : string) :
  n <= String.length s -> String.length (take n s) = n.
Proof.
  revert s; induction n as [|n IH]; intros [|c s]; simpl; intros H; try lia.
  rewrite IH; lia.
Qed.

Lemma take_app_length (w s : string) : take (String.length w) (w ++ s) = w.
Proof. induction w as [|c w IH]; simpl; [now destruct s | now rewrite IH]. Qed.

Lemma drop_app_length (w s : string) : drop (String.length w) (w ++ s) = s.
Proof. induction w as [|c w IH]; simpl; [now destruct s | exact IH]. Qed.

Lemma span_le_length cls hi (s : string) : span cls hi s <= String.length s.
Proof.
  revert hi; induction s as [|c s IH]; intros hi; simpl; [lia|].
  destruct (cls c); [|lia].
  destruct hi as [[|h]|]; [lia| |]; specialize (IH (Some h)) || specialize (IH None); lia.
Qed.

Lemma span_le_hi cls h (s : string) : span cls (Some h) s <= h.
Proof.
  revert h; induction s as [|c s IH]; intros h; simpl; [lia|].
  destruct (cls c); [|lia].
  destruct h as [|h]; [lia|]. specialize (IH h). lia.
Qed.

Lemma span_all cls hi (s : string) (m : nat) :
  m <= span cls hi s -> all_chars cls (take m s) = true.
Proof.
  revert hi m; induction s as [|c s IH]; intros hi m; simpl.
  - intros H. now replace m with 0 by lia.
  - destruct m as [|m]; [reflexivity|].
    destruct (cls c) eqn:Ec; [|lia].
    simpl. rewrite Ec. simpl.
    destruct hi as [[|h]|]; [lia| |]; intros H; eapply IH; apply le_S_n; exact H.
Qed.

Lemma span_ge cls hi (w s : string) :
  all_chars cls w = true ->
  (forall h, hi = Some h -> String.length w <= h) ->
  String.length w <= span cls hi (w ++ s).
Proof.
  revert hi; induction w as [|c w IH]; intros hi Hall Hhi; simpl; [lia|].
  simpl in Hall. apply andb_true_iff in Hall as [Hc Hw]. rewrite Hc.
  destruct hi as [[|h]|].
  - specialize (Hhi 0 eq_refl). simpl in Hhi. lia.
  - apply le_n_S, IH; [exact Hw|].
    intros h' [= <-]. specialize (Hhi (S h) eq_refl). simpl in Hhi. lia.
  - apply le_n_S, IH; [exact Hw|]. intros h' [=].
Qed.

Lemma give_back_Some (A : Type) (n lo : nat) (try : nat -> option A) (x : A) :
  lo <= n -> give_back n lo try = Some x ->
  exists m, lo <= m /\ m <= n /\ try m = Some x.
Proof.
  induction n as [|n IH]; simpl; intros Hlo H.
  - destruct (try 0) eqn:E; [|discriminate]. exists 0. injection H as <-. auto.
  - destruct (try (S n)) eqn:E.
    + injection H as <-. exists (S n). auto.
    + destruct (Nat.leb_spec lo n) as [Hle|]; [|discriminate].
      destruct (IH Hle H) as (m & ? & ? & ?). exists m. auto.
Qed.

Lemma give_back_complete (A : Type) (n lo m : nat) (try : nat -> option A) :
  lo <= m -> m <= n -> try m <> None -> give_back n lo try <> None.
Proof.
  induction n as [|n IH]; simpl; intros Hlo Hn Hm.
  - replace m with 0 in Hm by lia. destruct (try 0); congruence.
  - destruct (try (S n)) eqn:E; [discriminate|].
    destruct (Nat.eq_dec m (S n)) as [->|Hne]; [congruence|].
    destruct (Nat.leb_spec lo n) as [Hle|]; [|lia].
    apply IH; [assumption | lia | assumption].
Qed.

(** A match consumes a prefix of its input. *)
Lemma matches_consumes r s g s' g' :
  matches r s g s' g' -> exists w, s = w ++ s'.
Proof.
  induction 1 as [p s g|cls lo hi w s g _ _ _|r w s g g' _ _
                  |r1 r2 s g s1 g1 s2 g2 _ [w1 ->] _ [w2 ->]
                  |r1 r2 s g s' g' _ IH|r1 r2 s g s' g' _ IH|s g _].
  - now exists p.
  - now exists w.
  - now exists w.
  - exists (w1 ++ w2). now rewrite app_assoc.
  - exact IH.
  - exact IH.
  - now exists "".
Qed.

Lemma captured (w s' : string) :
  take (String.length (w ++ s') - String.length s') (w ++ s') = w.
Proof.
  rewrite length_app. replace (String.length w + String.length s' - String.length s')
    with (String.length w) by lia.
  apply take_app_length.
Qed.

(** Soundness: whatever the matcher returns comes from a match. *)
Lemma match_re_sound (A : Type) (r : regex) :
  forall (s : string) (g : groups) (k : string -> groups -> option A) (x : A),
    match_re r s g k = Some x ->
    exists s' g', matches r s g s' g' /\ k s' g' = Some x.
Proof.
  induction r as [p|cls lo hi|r IH|r1 IH1 r2 IH2|r1 IH1 r2 IH2|]; intros s g k x; simpl.
  - destruct (strip_prefix p s) as [s'|] eqn:E; [|discriminate].
    intros H. exists s', g. split; [|exact H].
    rewrite (strip_prefix_Some _ _ _ E). constructor.
  - destruct (Nat.ltb_spec (span cls hi s) lo) as [|Hlo]; [discriminate|].
    intros H. apply give_back_Some in H as (m & Hm1 & Hm2 & Hk); [|exact Hlo].
    exists (drop m s), g. split; [|exact Hk].
    rewrite <- (take_drop m s) at 1.
    assert (Hlen : String.length (take m s) = m).
    { apply length_take. pose proof (span_le_length cls hi s). lia. }
    constructor.
    + eapply span_all; eassumption.
    + lia.
    + intros h ->. pose proof (span_le_hi cls h s). lia.
  - intros H. apply IH in H as (s' & g' & Hm & Hk).
    destruct (matches_consumes _ _ _ _ _ Hm) as [w ->].
    rewrite captured in Hk.
    exists s', (Some w). split; [now apply m_grp with (g' := g') | exact Hk].
  - intros H. apply IH1 in H as (s1 & g1 & Hm1 & H).
    apply IH2 in H as (s2 & g2 & Hm2 & Hk).
    exists s2, g2. split; [econstructor; eassumption | exact Hk].
  - destruct (match_re r1 s g k) as [y|] eqn:E.
    + intros [= <-]. apply IH1 in E as (s' & g' & Hm & Hk).
      exists s', g'. split; [now apply m_alt_l | exact Hk].
    + intros H. apply IH2 in H as (s' & g' & Hm & Hk).
      exists s', g'. split; [now apply m_alt_r | exact Hk].
  - destruct (at_eol s) eqn:E; [|discriminate].
    intros H. exists s, g. split; [now constructor | exact H].
Qed.

(** Completeness: if there is a match the rest accepts, the matcher finds one. *)
Lemma match_re_complete (A : Type) r s g s' g' :
  matches r s g s' g' ->
  forall k : string -> groups -> option A,
    k s' g' <> None -> match_re r s g k <> None.
Proof.
  induction 1 as [p s g|cls lo hi w s g Hall Hlo Hhi|r w s g g' _ IH
                  |r1 r2 s g s1 g1 s2 g2 _ IH1 _ IH2
                  |r1 r2 s g s' g' _ IH|r1 r2 s g s' g' _ IH|s g Heol];
    intros k Hk; simpl.
  - now rewrite strip_prefix_app.
  - pose proof (span_ge cls hi w s Hall Hhi) as Hspan.
    destruct (Nat.ltb_spec (span cls hi (w ++ s)) lo) as [|_]; [lia|].
    apply give_back_complete with (m := String.length w); [assumption..|].
    now rewrite drop_app_length.
  - apply IH. now rewrite captured.
  - apply IH1. now apply IH2.
  - specialize (IH k Hk). destruct (match_re r1 s g k); congruence.
  - destruct (match_re r1 s g k); [discriminate|]. now apply IH.
  - now rewrite Heol.
Qed.

Lemma search_unfold (r : regex) (s : string) :
  search r s =
  match match_re r s None (fun _ g => Some g) with
  | Some m => Some m
  | None => match s with
            | EmptyString => None
            | String _ t => search r t
            end
  end.
Proof. destruct s; reflexivity. Qed.

(** [re.search] returns a match object only for a match somewhere in the string. *)
Lemma search_sound (r : regex) (s : string) (m : groups) :
  search r s = Some m -> matches_in r s m.
Proof.
  induction s as [|c s IH]; rewrite search_unfold.
  - destruct (match_re r "" None _) as [y|] eqn:E; [|discriminate].
    intros [= <-]. apply match_re_sound in E as (s' & g' & Hm & [= <-]).
    now exists "", "", s'.
  - destruct (match_re r (String c s) None _) as [y|] eqn:E.
    + intros [= <-]. apply match_re_sound in E as (s' & g' & Hm & [= <-]).
      now exists "", (String c s), s'.
    + intros H. destruct (IH H) as (pre & suf & rest & -> & Hm).
      now exists (String c pre), suf, rest.
Qed.

(** ... and returns one whenever the expression matches somewhere. *)
Lemma search_complete (r : regex) (s : string) (m : groups) :
  matches_in r s m -> search r s <> None.
Proof.
  intros (pre & suf & rest & -> & Hm).
  induction pre as [|c pre IH].
  - rewrite search_unfold. simpl.
    pose proof (match_re_complete groups _ _ _ _ _ Hm (fun _ g => Some g)) as H.
    destruct (match_re r suf None _); [discriminate|].
    exfalso. apply H; [cbv beta; discriminate | reflexivity].
  - rewrite search_unfold.
    destruct (match_re r (String c pre ++ suf) None _); [discriminate|].
    exact IH.
Qed.

Lemma search_None_iff (r : regex) (s : string) :
  search r s = None <-> forall m, ~ matches_in r s m.
Proof.
  split.
  - intros H m Hm. now apply (search_complete _ _ _ Hm).
  - intros H. destruct (search r s) as [m|] eqn:E; [|reflexivity].
    exfalso. exact (H m (search_sound _ _ _ E)).
Qed.

End ReFacts.

(** ** affiliate_link_generator.py *)

Module AffiliateFacts.

Import PyStr Re Affiliate PyStrFacts ReFacts.
Open Scope string_scope.

Ltac inv H := inversion H; subst; clear H.

Lemma app_inv_tail (a b c : string) : a ++ c = b ++ c -> a = b.
Proof.
  revert b; induction a as [|x a IH]; intros [|y b] H; simpl in H.
  - reflexivity.
  - exfalso. apply (f_equal String.length) in H. simpl in H.
    rewrite length_app in H. lia.
  - exfalso. apply (f_equal String.length) in H. simpl in H.
    rewrite length_app in H. lia.
  - injection H as -> H. now rewrite (IH _ H).
Qed.

(** What a match of [([A-Z0-9]{10})] looks like. *)
Lemma asin_group_inv s g s' g' :
  matches asin_group s g s' g' ->
  exists w, s = w ++ s' /\ g' = Some w
            /\ String.length w = 10 /\ all_chars asin_char w = true.
Proof.
  unfold asin_group. intros H. inv H.
  match goal with H : matches (Rep _ _ _) _ _ _ _ |- _ => inv H end.
  match goal with H : _ ++ s' = _ ++ s' |- _ => apply app_inv_tail in H; subst end.
  match goal with H : forall h, Some 10 = Some h -> _ |- _ =>
    specialize (H 10 eq_refl) end.
  eexists. repeat split; [lia | assumption].
Qed.

(** The tail [(?:[/?]|$)] captures nothing. *)
Lemma tail_keeps_group s g s' g' :
  matches (Alt (Rep slash_or_query 1 (Some 1)) Eol) s g s' g' -> g' = g.
Proof.
  intros H. inv H; match goal with H : matches _ _ _ _ _ |- _ => now inv H end.
Qed.

(** Every pattern of [extract_amazon_asin] captures ten characters of
    [[A-Z0-9]] taken from the string it is matched against. *)
Lemma amazon_pattern_capture p s g s' m :
  In p amazon_patterns -> matches p s g s' m ->
  exists pre w post, s = pre ++ w ++ post /\ m = Some w
                     /\ String.length w = 10 /\ all_chars asin_char w = true.
Proof.
  unfold amazon_patterns. simpl.
  intros [<-|[<-|[<-|[<-|[<-|[]]]]]] H; inv H;
    match goal with H : matches (Lit _) _ _ _ _ |- _ => inv H end.
  1-4: match goal with H : matches asin_group _ _ _ _ |- _ =>
         apply asin_group_inv in H as (w & -> & -> & Hlen & Hcls) end;
       eexists _, w, s'; repeat split; assumption.
  match goal with H : matches (Seq _ _) _ _ _ _ |- _ => inv H end.
  match goal with H : matches asin_group _ _ _ _ |- _ =>
    apply asin_group_inv in H as (w & -> & -> & Hlen & Hcls) end.
  match goal with H : matches (Alt _ _) _ _ _ _ |- _ =>
    apply tail_keeps_group in H as -> end.
  eexists _, w, _; repeat split; assumption.
Qed.

Lemma first_match_first (ps : list regex) (url : string) :
  forall tried p rest m,
    ps = (tried ++ p :: rest)%list ->
    (forall q, In q tried -> search q url = None) ->
    search p url = Some m ->
    first_match ps url = m.
Proof.
  intros tried; revert ps; induction tried as [|q tried IH]; intros ps p rest m -> Hnone Hp.
  - simpl. now rewrite Hp.
  - simpl. rewrite (Hnone q (or_introl eq_refl)).
    eapply IH; [reflexivity | | exact Hp].
    intros q' Hq'. apply Hnone. now right.
Qed.

Lemma first_match_Some (ps : list regex) (url a : string) :
  first_match ps url = Some a ->
  exists p, In p ps /\ search p url = Some (Some a).
Proof.
  induction ps as [|p ps IH]; simpl; [discriminate|].
  destruct (search p url) as [m|] eqn:E.
  - intros ->. exists p. auto.
  - intros H. destruct (IH H) as (q & Hq & Hs). exists q. auto.
Qed.

Lemma first_match_None (ps : list regex) (url : string) :
  (forall p, In p ps -> search p url = None) -> first_match ps url = None.
Proof.
  induction ps as [|p ps IH]; simpl; intros H; [reflexivity|].
  rewrite (H p (or_introl eq_refl)). apply IH. intros q Hq. apply H. now right.
Qed.

(** The identifier the extractor returns is ten characters of [[A-Z0-9]]
    occurring in the URL. *)
Lemma extract_amazon_asin_Some (url asin : string) :
  extract_amazon_asin url = Some asin ->
  String.length asin = 10 /\ all_chars asin_char asin = true
  /\ contains asin url = true.
Proof.
  intros H. apply first_match_Some in H as (p & Hp & Hs).
  apply search_sound in Hs as (pre & suf & rest & -> & Hm).
  destruct (amazon_pattern_capture _ _ _ _ _ Hp Hm) as (pre' & w & post & -> & [= <-] & Hlen & Hcls).
  repeat split; try assumption.
  apply contains_true_iff. exists (pre ++ pre'), post. now rewrite !app_assoc.
Qed.

Lemma first_match_None_inv (ps : list regex) (url : string) :
  first_match ps url = None ->
  (forall p m, In p ps -> search p url = Some m -> m <> None) ->
  forall p, In p ps -> search p url = None.
Proof.
  induction ps as [|p0 ps IH]; simpl; intros H Hcap p; [intros []|].
  destruct (search p0 url) as [m|] eqn:E.
  - exfalso. exact (Hcap p0 m (or_introl eq_refl) E H).
  - intros [<-|Hp]; [exact E|].
    apply IH; [exact H | | exact Hp].
    intros q m Hq. apply Hcap. now right.
Qed.

(** The extractor returns [None] exactly when no pattern matches anywhere. *)
Lemma extract_amazon_asin_None_iff (url : string) :
  extract_amazon_asin url = None <->
  (forall p m, In p amazon_patterns -> ~ matches_in p url m).
Proof.
  split.
  - intros H p m Hp Hm.
    apply (search_complete _ _ _ Hm).
    apply (first_match_None_inv amazon_patterns url H); [|exact Hp].
    intros q m' Hq Hs ->.
    apply search_sound in Hs as (pre & suf & rest & _ & Hm').
    destruct (amazon_pattern_capture _ _ _ _ _ Hq Hm') as (_ & w & _ & _ & [=] & _).
  - intros H. apply first_match_None. intros p Hp.
    apply search_None_iff. intros m. now apply H.
Qed.

Lemma amazon_link_configured (cfg : Config) (tag url : string) (pid : option string) :
  AMAZON_ASSOCIATE_TAG cfg = Some tag -> tag <> "" ->
  generate_amazon_link cfg url pid =
  if truthy (py_or (extract_amazon_asin url) pid)
  then amazon_canonical (str_of_opt (py_or (extract_amazon_asin url) pid)) tag
  else amazon_tag_append url tag.
Proof.
  intros Htag Hne. unfold generate_amazon_link. rewrite Htag.
  apply truthy_Some in Hne. rewrite Hne. reflexivity.
Qed.

Lemma extract_truthy (url asin : string) :
  extract_amazon_asin url = Some asin -> truthy (Some asin) = true.
Proof.
  intros H. apply extract_amazon_asin_Some in H as (Hlen & _).
  apply truthy_Some. intros ->. discriminate.
Qed.

(** C2. With an associate tag configured: the patterns are tried in order
    and the first one that matches decides the identifier; an identifier that
    is found is ten characters of [A-Z0-9] occurring in the URL and the
    builder returns https://www.amazon.com/dp/<id>?tag=<tag> followed by the
    fixed parameters linkCode=ogi, th=1 and psc=1; on
    https://www.amazon.com/dp/B0CHX1W1XY?x=1 the extractor returns B0CHX1W1XY;
    when no pattern matches anywhere in the URL and no product_id is given,
    the builder appends tag=<tag> to the URL, after "&" if the URL contains
    "?" and after "?" otherwise. *)
Theorem C2_amazon_builder (cfg : Config) (tag product_url : string) :
  AMAZON_ASSOCIATE_TAG cfg = Some tag -> tag <> "" ->
  (forall tried p rest m,
      amazon_patterns = (tried ++ p :: rest)%list ->
      (forall q, In q tried -> search q product_url = None) ->
      search p product_url = Some m ->
      extract_amazon_asin product_url = m)
  /\ (forall asin,
        extract_amazon_asin product_url = Some asin ->
        String.length asin = 10 /\ all_chars asin_char asin = true
        /\ contains asin product_url = true
        /\ forall product_id,
            generate_amazon_link cfg product_url product_id =
            "https://www.amazon.com/dp/" ++ asin ++ "?tag=" ++ tag
              ++ "&linkCode=ogi&th=1&psc=1")
  /\ extract_amazon_asin "https://www.amazon.com/dp/B0CHX1W1XY?x=1" = Some "B0CHX1W1XY"
  /\ ((forall p m, In p amazon_patterns -> ~ matches_in p product_url m) ->
      extract_amazon_asin product_url = None
      /\ generate_amazon_link cfg product_url None =
         product_url ++ (if contains "?" product_url then "&" else "?") ++ "tag=" ++ tag).
Proof.
  intros Htag Hne. repeat split.
  - intros tried p rest m Hps Hnone Hp.
    exact (first_match_first _ product_url tried p rest m Hps Hnone Hp).
  - now apply extract_amazon_asin_Some in H.
  - now apply extract_amazon_asin_Some in H.
  - now apply extract_amazon_asin_Some in H.
  - intros product_id. rewrite (amazon_link_configured cfg tag product_url product_id Htag Hne).
    unfold py_or. rewrite H, (extract_truthy _ _ H), (extract_truthy _ _ H). reflexivity.
  - now apply extract_amazon_asin_None_iff.
  - rewrite (amazon_link_configured cfg tag product_url None Htag Hne).
    apply extract_amazon_asin_None_iff in H. rewrite H. reflexivity.
Qed.

Lemma C2_amazon_builder_witness :
  extract_amazon_asin "https://www.amazon.com/dp/B0CHX1W1XY?x=1" = Some "B0CHX1W1XY"
  /\ generate_amazon_link (repo_config (Some "deals-20"))
       "https://www.amazon.com/dp/B0CHX1W1XY?x=1" None
     = "https://www.amazon.com/dp/B0CHX1W1XY?tag=deals-20&linkCode=ogi&th=1&psc=1".
Proof.
  assert (Hne : "deals-20" <> "") by discriminate.
  pose proof (@C2_amazon_builder (repo_config (Some "deals-20")) "deals-20"
                "https://www.amazon.com/dp/B0CHX1W1XY?x=1" eq_refl Hne)
    as (_ & Hfound & Hex & _).
  split; [exact Hex|].
  destruct (Hfound "B0CHX1W1XY" Hex) as (_ & _ & _ & Hlink).
  exact (Hlink None).
Defined.

(** C10. With an associate tag configured: when no pattern matches anywhere
    in the URL and a non-empty product_id is given, the builder returns the
    canonical URL https://www.amazon.com/dp/<product_id>?tag=<tag> (with its
    fixed parameters); and the builder appends the tag to the original URL in
    one case only, when extraction fails and the product_id is missing
    ([None] or empty). *)
Theorem C10_amazon_product_id (cfg : Config) (tag product_url : string)
        (product_id : option string) :
  AMAZON_ASSOCIATE_TAG cfg = Some tag -> tag <> "" ->
  (forall pid,
      (forall p m, In p amazon_patterns -> ~ matches_in p product_url m) ->
      product_id = Some pid -> pid <> "" ->
      generate_amazon_link cfg product_url product_id =
      "https://www.amazon.com/dp/" ++ pid ++ "?tag=" ++ tag ++ "&linkCode=ogi&th=1&psc=1")
  /\ ((exists asin,
          extract_amazon_asin product_url = Some asin
          /\ generate_amazon_link cfg product_url product_id = amazon_canonical asin tag)
      \/ (exists pid,
             extract_amazon_asin product_url = None
             /\ product_id = Some pid /\ pid <> ""
             /\ generate_amazon_link cfg product_url product_id = amazon_canonical pid tag)
      \/ (extract_amazon_asin product_url = None
          /\ (product_id = None \/ product_id = Some "")
          /\ generate_amazon_link cfg product_url product_id
             = amazon_tag_append product_url tag)).
Proof.
  intros Htag Hne. rewrite (amazon_link_configured cfg tag product_url product_id Htag Hne).
  split.
  - intros pid Hnone -> Hpid.
    apply extract_amazon_asin_None_iff in Hnone. rewrite Hnone.
    apply truthy_Some in Hpid.
    change (py_or None (Some pid)) with (Some pid). now rewrite Hpid.
  - destruct (extract_amazon_asin product_url) as [asin|] eqn:E.
    + left. exists asin. split; [reflexivity|].
      unfold py_or. rewrite (extract_truthy _ _ E), (extract_truthy _ _ E). reflexivity.
    + right. change (py_or None product_id) with product_id.
      destruct (truthy product_id) eqn:Et.
      * left. destruct product_id as [pid|]; [|discriminate].
        exists pid. repeat split. now apply truthy_Some.
      * right. repeat split. now apply truthy_false_iff.
Qed.

Lemma C10_amazon_product_id_witness :
  generate_amazon_link (repo_config (Some "deals-20"))
    "https://www.amazon.com/gp/bestsellers" (Some "42")
  = "https://www.amazon.com/dp/42?tag=deals-20&linkCode=ogi&th=1&psc=1".
Proof.
  assert (Hne : "deals-20" <> "") by discriminate.
  assert (Hpid : "42" <> "") by discriminate.
  assert (Hnone : forall p m, In p amazon_patterns ->
                    ~ matches_in p "https://www.amazon.com/gp/bestsellers" m).
  { apply extract_amazon_asin_None_iff. vm_compute. reflexivity. }
  exact (proj1 (@C10_amazon_product_id (repo_config (Some "deals-20")) "deals-20"
                  "https://www.amazon.com/gp/bestsellers" (Some "42") eq_refl Hne)
               "42" Hnone eq_refl Hpid).
Defined.

(** *** The generic builder *)

Section Unicode.

Variable unicode_lower : string -> string.

Lemma urlencode_utm_params (store_name : string) :
  urlencode (utm_params unicode_lower store_name)
  = utm_prefix ++ quote_plus (replace_space_underscore (lower unicode_lower store_name)).
Proof. reflexivity. Qed.

(** Once something has been appended after the separator, the URL has a "?". *)
Lemma contains_query_after_append (url rest : string) :
  contains "?" (url ++ separator url ++ rest) = true.
Proof.
  unfold separator. destruct (contains "?" url) eqn:E.
  - now apply contains_app_l.
  - apply contains_app_r. reflexivity.
Qed.

Lemma separator_after_append (url rest : string) :
  separator (url ++ separator url ++ rest) = "&".
Proof. unfold separator at 1. now rewrite contains_query_after_append. Qed.

Lemma generic_link_eq (url store_name : string) :
  generate_generic_tracking_link unicode_lower url store_name
  = url ++ separator url ++ utm_prefix
    ++ quote_plus (replace_space_underscore (lower unicode_lower store_name)).
Proof. reflexivity. Qed.

Lemma app_neq_self (a b : string) : b <> "" -> a ++ b <> a.
Proof.
  intros Hb H. apply (f_equal String.length) in H. rewrite length_app in H.
  destruct b; [congruence | simpl in H; lia].
Qed.

(** C7. Whenever it returns (the value of utm_content can be encoded), the
    generic builder appends utm_source, utm_medium, utm_campaign and
    utm_content to the URL, after "&" if the URL contains "?" and after "?"
    otherwise; utm_content is the store name lowercased with spaces replaced
    by underscores (URL-encoded as a query value, which leaves a name made of
    letters, digits and [_.-~] as it is; for an ASCII store name the
    lowercasing is that of the letters A-Z). The builder is not idempotent: a
    second application appends the four parameters once more, so its result
    differs from the result of one application. *)
Theorem C7_generic_utm_not_idempotent (product_url store_name : string) :
  let content := replace_space_underscore (lower unicode_lower store_name) in
  let utm := "utm_source=telegram_bot&utm_medium=affiliate&utm_campaign=deals_bot&utm_content="
             ++ quote_plus content in
  let once := generate_generic_tracking_link unicode_lower product_url store_name in
  let twice := generate_generic_tracking_link unicode_lower once store_name in
  generate_generic_tracking_link_raises unicode_lower store_name = false ->
  once = product_url ++ (if contains "?" product_url then "&" else "?") ++ utm
  /\ (all_chars unreserved content = true -> quote_plus content = content)
  /\ (is_ascii_text store_name = true ->
      content = replace_space_underscore (map_chars lower_char store_name))
  /\ twice = once ++ "&" ++ utm
  /\ twice <> once.
Proof.
  cbv zeta. intros _.
  assert (Htwice :
    generate_generic_tracking_link unicode_lower
      (generate_generic_tracking_link unicode_lower product_url store_name) store_name
    = generate_generic_tracking_link unicode_lower product_url store_name ++ "&"
      ++ utm_prefix
      ++ quote_plus (replace_space_underscore (lower unicode_lower store_name))).
  { rewrite (generic_link_eq
               (generate_generic_tracking_link unicode_lower product_url store_name)).
    f_equal. f_equal.
    rewrite (generic_link_eq product_url). apply separator_after_append. }
  split; [reflexivity|]. split; [apply quote_plus_unreserved|].
  split; [intros Ha; now rewrite (lower_ascii unicode_lower store_name Ha)|].
  split; [exact Htwice|].
  rewrite Htwice. apply app_neq_self. discriminate.
Qed.

(** *** The dispatcher *)

Lemma route_Generic_iff (store_name : string) :
  route store_name = Generic <->
  contains "amazon" store_name = false /\ contains "ebay" store_name = false
  /\ contains "aliexpress" store_name = false /\ contains "walmart" store_name = false
  /\ contains "target" store_name = false /\ contains "bestbuy" store_name = false
  /\ contains "best buy" store_name = false.
Proof.
  unfold route.
  destruct (contains "amazon" store_name); [split; [discriminate | intros (? & _); discriminate]|].
  destruct (contains "ebay" store_name); [split; [discriminate | intros (_ & ? & _); discriminate]|].
  destruct (contains "aliexpress" store_name);
    [split; [discriminate | intros (_ & _ & ? & _); discriminate]|].
  destruct (contains "walmart" store_name);
    [split; [discriminate | intros (_ & _ & _ & ? & _); discriminate]|].
  destruct (contains "target" store_name);
    [split; [discriminate | intros (_ & _ & _ & _ & ? & _); discriminate]|].
  destruct (contains "bestbuy" store_name);
    [split; [discriminate | intros (_ & _ & _ & _ & _ & ? & _); discriminate]|].
  destruct (contains "best buy" store_name);
    [split; [discriminate | intros (_ & _ & _ & _ & _ & _ & ?); discriminate]|].
  simpl. tauto.
Qed.

(** What [generate_affiliate_link] returns, by what the [try] does. *)
Lemma link_of_call (cfg : Config) (now : Z) (product_url store_name : string)
      (product_id : option string) :
  generate_affiliate_link unicode_lower cfg now product_url store_name product_id
  = match call_builder unicode_lower cfg now product_url
            (lower unicode_lower store_name) product_id with
    | Some link => link
    | None => product_url
    end.
Proof. reflexivity. Qed.

(** When the [try] raises: the builder selected quotes a text that cannot be
    encoded. *)
Lemma call_builder_None (cfg : Config) (now : Z) (product_url name : string)
      (product_id : option string) :
  call_builder unicode_lower cfg now product_url name product_id = None <->
  match route name with
  | Amazon | AliExpress => False
  | Ebay => generate_ebay_link_raises cfg product_url product_id = true
  | Walmart => generate_walmart_link_raises cfg product_url = true
  | Target => generate_target_link_raises cfg product_url = true
  | BestBuy => generate_bestbuy_link_raises cfg product_url = true
  | Generic => generate_generic_tracking_link_raises unicode_lower name = true
  end.
Proof.
  unfold call_builder. destruct (route name).
  - split; [discriminate | intros []].
  - destruct (generate_ebay_link_raises cfg product_url product_id);
      split; congruence.
  - split; [discriminate | intros []].
  - destruct (generate_walmart_link_raises cfg product_url); split; congruence.
  - destruct (generate_target_link_raises cfg product_url); split; congruence.
  - destruct (generate_bestbuy_link_raises cfg product_url); split; congruence.
  - destruct (generate_generic_tracking_link_raises unicode_lower name);
      split; congruence.
Qed.

Lemma missing_credential_returns_url (cfg : Config) (now : Z)
      (product_url store_name : string) (product_id : option string) :
  route (lower unicode_lower store_name) <> Generic ->
  truthy (credential cfg (route (lower unicode_lower store_name))) = false ->
  generate_affiliate_link unicode_lower cfg now product_url store_name product_id
  = product_url.
Proof.
  rewrite link_of_call. unfold call_builder.
  destruct (route (lower unicode_lower store_name)); simpl credential; intros Hr Hc;
    try congruence;
    [ unfold generate_amazon_link
    | unfold generate_ebay_link_raises, generate_ebay_link
    | unfold generate_aliexpress_link
    | unfold generate_walmart_link_raises, generate_walmart_link
    | unfold generate_target_link_raises, generate_target_link
    | unfold generate_bestbuy_link_raises, generate_bestbuy_link ];
    now rewrite Hc.
Qed.

(** C3, amended. [generate_affiliate_link] never raises: lowercasing the
    store name cannot fail, and whatever a builder raises is caught. When the
    builder the store name selects raises (it quotes a text that UTF-8 cannot
    encode), the original URL is returned; otherwise what the builder returns
    is returned. In particular: when the store name matches a network whose
    credential is missing, the result is the original URL; when it matches
    Amazon, the tag is configured, no identifier pattern matches and no
    product_id is given, the result is the URL with the tag appended, not the
    original URL; when the lowercased store name contains none of the network
    names (amazon, ebay, aliexpress, walmart, target, bestbuy, best buy), the
    result is the generic UTM append of the original URL, whose utm_content
    is the lowercased name lowercased once more (for an ASCII name, the name
    with a-z for A-Z), or the original URL when that value cannot be
    encoded. *)
Theorem C3_generate_affiliate_link_fallbacks (cfg : Config) (now : Z)
        (product_url store_name : string) (product_id : option string) :
  let name := lower unicode_lower store_name in
  let called := call_builder unicode_lower cfg now product_url name product_id in
  let result :=
    generate_affiliate_link unicode_lower cfg now product_url store_name product_id in
  (called = None -> result = product_url)
  /\ (forall link, called = Some link -> result = link)
  /\ (called = None <->
      match route name with
      | Amazon | AliExpress => False
      | Ebay =>
          truthy (EBAY_CAMPAIGN_ID cfg) = true
          /\ (encodable (str_of_opt (EBAY_CAMPAIGN_ID cfg)) = false
              \/ encodable (str_of_opt (py_or product_id
                                          (extract_ebay_item_id product_url))) = false
              \/ encodable product_url = false)
      | Walmart =>
          truthy (WALMART_PUBLISHER_ID cfg) = true /\ encodable product_url = false
      | Target =>
          truthy (TARGET_PUBLISHER_ID cfg) = true /\ encodable product_url = false
      | BestBuy =>
          truthy (BESTBUY_PUBLISHER_ID cfg) = true /\ encodable product_url = false
      | Generic =>
          encodable (replace_space_underscore (lower unicode_lower name)) = false
      end)
  /\ (route name <> Generic -> truthy (credential cfg (route name)) = false ->
      result = product_url)
  /\ (forall tag,
        route name = Amazon -> AMAZON_ASSOCIATE_TAG cfg = Some tag -> tag <> "" ->
        (forall p m, In p amazon_patterns -> ~ matches_in p product_url m) ->
        product_id = None \/ product_id = Some "" ->
        result = product_url ++ (if contains "?" product_url then "&" else "?")
                 ++ "tag=" ++ tag)
  /\ (contains "amazon" name = false -> contains "ebay" name = false ->
      contains "aliexpress" name = false -> contains "walmart" name = false ->
      contains "target" name = false -> contains "bestbuy" name = false ->
      contains "best buy" name = false ->
      let content := replace_space_underscore (lower unicode_lower name) in
      (encodable content = false -> result = product_url)
      /\ (encodable content = true ->
          result = generate_generic_tracking_link unicode_lower product_url name
          /\ result = product_url ++ (if contains "?" product_url then "&" else "?")
                      ++ "utm_source=telegram_bot&utm_medium=affiliate&utm_campaign=deals_bot&utm_content="
                      ++ quote_plus content)
      /\ (is_ascii_text store_name = true ->
          content = replace_space_underscore (map_chars lower_char store_name))).
Proof.
  cbv zeta. rewrite link_of_call.
  split; [intros H; now rewrite H|].
  split; [intros link H; now rewrite H|].
  split.
  { rewrite call_builder_None.
    destruct (route (lower unicode_lower store_name));
      try reflexivity;
      unfold generate_ebay_link_raises, generate_walmart_link_raises,
        generate_target_link_raises, generate_bestbuy_link_raises,
        generate_generic_tracking_link_raises;
      rewrite ?andb_true_iff, ?negb_true_iff, ?andb_false_iff;
      tauto. }
  split.
  { intros Hr Hc. rewrite <- link_of_call.
    now apply missing_credential_returns_url. }
  split.
  - intros tag Hr Htag Hne Hnone Hpid.
    unfold call_builder. rewrite Hr.
    rewrite (amazon_link_configured cfg tag product_url product_id Htag Hne).
    apply extract_amazon_asin_None_iff in Hnone. rewrite Hnone.
    change (py_or None product_id) with product_id.
    apply truthy_false_iff in Hpid. now rewrite Hpid.
  - intros H1 H2 H3 H4 H5 H6 H7.
    assert (Hr : route (lower unicode_lower store_name) = Generic).
    { apply route_Generic_iff. repeat split; assumption. }
    unfold call_builder. rewrite Hr. unfold generate_generic_tracking_link_raises.
    split; [intros He; now rewrite He|].
    split; [intros He; rewrite He; split; reflexivity|].
    intros Ha. rewrite (lower_idem unicode_lower store_name Ha).
    now rewrite (lower_ascii unicode_lower store_name Ha).
Qed.

End Unicode.

Lemma C7_generic_utm_not_idempotent_witness :
  generate_generic_tracking_link Examples.ascii_only "https://shop.example/item/7"
    "Home Depot"
  = "https://shop.example/item/7?utm_source=telegram_bot&utm_medium=affiliate&utm_campaign=deals_bot&utm_content=home_depot".
Proof.
  destruct (C7_generic_utm_not_idempotent Examples.ascii_only
              "https://shop.example/item/7" "Home Depot" eq_refl)
    as (Honce & Hplain & _).
  rewrite Honce. rewrite (Hplain eq_refl). reflexivity.
Defined.

(** C3, as stated, fails: an Amazon URL from which no identifier can be
    extracted is a network-specific parse failure, yet the result is not the
    original URL. *)
Lemma C3_counterexample :
  extract_amazon_asin "https://www.amazon.com/gp/bestsellers" = None
  /\ generate_affiliate_link Examples.ascii_only (repo_config (Some "deals-20"))
       1700000000 "https://www.amazon.com/gp/bestsellers" "Amazon" None
     <> "https://www.amazon.com/gp/bestsellers".
Proof. split; [reflexivity | vm_compute; discriminate]. Qed.

Lemma C3_generate_affiliate_link_fallbacks_witness :
  generate_affiliate_link Examples.ascii_only (repo_config None) 1700000000
    "https://www.amazon.com/dp/B0CHX1W1XY" "Amazon" None
  = "https://www.amazon.com/dp/B0CHX1W1XY"
  /\ generate_affiliate_link Examples.ascii_only (repo_config None) 1700000000
       "https://www.nike.com/t/shoe?color=red" "Nike" None
     = "https://www.nike.com/t/shoe?color=red&utm_source=telegram_bot&utm_medium=affiliate&utm_campaign=deals_bot&utm_content=nike"
  /\ generate_affiliate_link Examples.ascii_only Examples.walmart_config 1700000000
       ("https://www.walmart.com/ip/" ++ Examples.surrogate) "Walmart" None
     = "https://www.walmart.com/ip/" ++ Examples.surrogate.
Proof.
  split; [|split].
  - apply (proj1 (proj2 (proj2 (proj2
             (C3_generate_affiliate_link_fallbacks Examples.ascii_only
                (repo_config None) 1700000000
                "https://www.amazon.com/dp/B0CHX1W1XY" "Amazon" None)))));
      [vm_compute; discriminate | reflexivity].
  - apply (proj2 (proj1 (proj2
             (proj2 (proj2 (proj2 (proj2 (proj2
                (C3_generate_affiliate_link_fallbacks Examples.ascii_only
                   (repo_config None) 1700000000
                   "https://www.nike.com/t/shoe?color=red" "Nike" None)))))
                eq_refl eq_refl eq_refl eq_refl eq_refl eq_refl eq_refl)) eq_refl)).
  - apply (proj1 (C3_generate_affiliate_link_fallbacks Examples.ascii_only
                    Examples.walmart_config 1700000000
                    ("https://www.walmart.com/ip/" ++ Examples.surrogate)
                    "Walmart" None)).
    reflexivity.
Defined.

End AffiliateFacts.

(** ** Rows addressed by primary key *)

Module DbFacts.

Import Db.
Open Scope nat_scope.

Lemma In_firstn (A : Type) (n : nat) (l : list A) (x : A) :
  In x (firstn n l) -> In x l.
Proof.
  revert l; induction n as [|n IH]; intros [|y l]; simpl; try tauto.
  intros [->|H]; [now left | right; now apply IH].
Qed.

Section Keyed.

Variable A : Type.
Variable key : A -> Z.

Lemma NoDup_key_filter (f : A -> bool) (l : list A) :
  NoDup (map key l) -> NoDup (map key (filter f l)).
Proof.
  induction l as [|x l IH]; simpl; intros H; [constructor|].
  inversion H as [|k ks Hnot Hnd]; subst.
  destruct (f x); simpl; [constructor|]; auto.
  intros Hin. apply Hnot. apply in_map_iff in Hin as (y & Hy & Hin).
  apply in_map_iff. exists y. split; [exact Hy|]. now apply filter_In in Hin.
Qed.

Lemma NoDup_key_firstn (n : nat) (l : list A) :
  NoDup (map key l) -> NoDup (map key (firstn n l)).
Proof.
  revert l; induction n as [|n IH]; intros [|x l]; simpl; intros H; try constructor.
  - inversion H as [|k ks Hnot Hnd]; subst.
    intros Hin. apply Hnot. apply in_map_iff in Hin as (y & Hy & Hin).
    apply in_map_iff. exists y. split; [exact Hy|]. now apply In_firstn in Hin.
  - apply IH. now inversion H.
Qed.

(** Two rows of a table with the same key are the same row. *)
Lemma key_inj (l : list A) (a b : A) :
  NoDup (map key l) -> In a l -> In b l -> key a = key b -> a = b.
Proof.
  induction l as [|x l IH]; simpl; intros Hnd Ha Hb Hk; [contradiction|].
  inversion Hnd as [|k ks Hnot Hnd']; subst.
  destruct Ha as [->|Ha], Hb as [->|Hb]; auto.
  - exfalso. apply Hnot. rewrite Hk. now apply in_map.
  - exfalso. apply Hnot. rewrite <- Hk. now apply in_map.
Qed.

Lemma find_key_None (i : Z) (l : list A) :
  (forall o, In o l -> key o <> i) -> find (fun o => key o =? i)%Z l = None.
Proof.
  induction l as [|x l IH]; simpl; intros H; [reflexivity|].
  destruct (Z.eqb_spec (key x) i) as [E|_].
  - exfalso. now apply (H x (or_introl eq_refl)).
  - apply IH. intros o Ho. apply H. now right.
Qed.

Lemma find_key_Some (i : Z) (l : list A) (o : A) :
  find (fun o => key o =? i)%Z l = Some o -> In o l /\ key o = i.
Proof.
  intros H. apply find_some in H as [Hin Hk]. split; [exact Hin|].
  now apply Z.eqb_eq.
Qed.

Lemma find_key_nth (l : list A) (j : nat) (o : A) :
  NoDup (map key l) -> nth_error l j = Some o ->
  find (fun o' => key o' =? key o)%Z l = Some o.
Proof.
  intros Hnd Hj.
  destruct (find (fun o' => key o' =? key o)%Z l) as [o'|] eqn:E.
  - apply find_key_Some in E as [Hin Hk]. f_equal.
    apply (key_inj l); auto. eapply nth_error_In; eassumption.
  - exfalso. apply nth_error_In in Hj.
    pose proof (find_none _ _ E o Hj) as Hk. cbv beta in Hk.
    now rewrite Z.eqb_refl in Hk.
Qed.

End Keyed.

Lemma flush_products_length (objects table : list Product.t) :
  length (flush_products objects table) = length table.
Proof. apply length_map. Qed.

(** A row whose key belongs to no object of the session is not written. *)
Lemma flush_products_other (objects table : list Product.t) (i : nat) (p : Product.t) :
  nth_error table i = Some p ->
  (forall o, In o objects -> Product.id o <> Product.id p) ->
  nth_error (flush_products objects table) i = Some p.
Proof.
  intros Hi Hno. unfold flush_products. rewrite nth_error_map, Hi. simpl.
  unfold find_product. now rewrite (find_key_None _ Product.id _ _ Hno).
Qed.

(** A row is replaced by the object of the session that has its key. *)
Lemma flush_products_object (objects table : list Product.t) (i j : nat)
      (p o : Product.t) :
  NoDup (map Product.id objects) ->
  nth_error table i = Some p ->
  nth_error objects j = Some o -> Product.id o = Product.id p ->
  nth_error (flush_products objects table) i = Some o.
Proof.
  intros Hnd Hi Hj Hid. unfold flush_products. rewrite nth_error_map, Hi. simpl.
  unfold find_product. rewrite <- Hid.
  now rewrite (find_key_nth _ Product.id objects j o Hnd Hj).
Qed.

Lemma flush_users_length (objects table : list User.t) :
  length (flush_users objects table) = length table.
Proof. apply length_map. Qed.

End DbFacts.

(** ** price_monitor.py: the price-update pass *)

Module PriceUpdateFacts.

Import Db Py PriceMonitor DbFacts.
Open Scope nat_scope.

Section Pass.

Variable round2 : float -> float.

Lemma apply_price_id now p old_price new_price :
  Product.id (fst (fst (apply_price now p old_price new_price))) = Product.id p.
Proof. unfold apply_price. now destruct (negb _). Qed.

Lemma update_product_id now p d :
  Product.id (fst (fst (update_product round2 now p d))) = Product.id p.
Proof.
  unfold update_product. destruct (Product.price p); simpl; [|reflexivity].
  apply apply_price_id.
Qed.

Lemma update_loop_nth draws stamp batch :
  forall i j p,
    nth_error batch j = Some p ->
    nth_error (objects (update_loop round2 draws stamp i batch)) j
    = Some (updated round2 draws stamp (i + j) p).
Proof.
  induction batch as [|q batch IH]; intros i [|j] p; simpl; try discriminate.
  - intros [= ->]. unfold updated. rewrite Nat.add_0_r.
    destruct (update_product round2 (stamp i) p (draws i)) as [[p' c] d]. reflexivity.
  - intros H.
    destruct (update_product round2 (stamp i) q (draws i)) as [[q' c] d]. simpl.
    rewrite (IH (S i) j p H). f_equal. f_equal. lia.
Qed.

Lemma update_loop_ids draws stamp batch :
  forall i, map Product.id (objects (update_loop round2 draws stamp i batch))
            = map Product.id batch.
Proof.
  induction batch as [|q batch IH]; intros i; simpl; [reflexivity|].
  pose proof (update_product_id (stamp i) q (draws i)) as Hid.
  destruct (update_product round2 (stamp i) q (draws i)) as [[q' c] d]. simpl in *.
  now rewrite Hid, IH.
Qed.

Lemma update_loop_count draws stamp batch :
  forall i, updated_count (update_loop round2 draws stamp i batch) <= length batch.
Proof.
  induction batch as [|q batch IH]; intros i; simpl; [lia|].
  destruct (update_product round2 (stamp i) q (draws i)) as [[q' c] d]. simpl.
  specialize (IH (S i)). destruct c; lia.
Qed.

Lemma stale_batch_In now table p :
  In p (stale_batch now table) ->
  In p table /\ stale (now - hours_2)%Z p = true.
Proof.
  unfold stale_batch. cbv zeta. intros H. apply In_firstn in H.
  apply filter_In in H. exact H.
Qed.

Lemma stale_batch_NoDup now table :
  NoDup (map Product.id table) -> NoDup (map Product.id (stale_batch now table)).
Proof.
  intros H. unfold stale_batch. now apply NoDup_key_firstn, NoDup_key_filter.
Qed.

(** A product outside the batch keeps its row. *)
Lemma pass_other now draws stamp table i p :
  NoDup (map Product.id table) ->
  nth_error table i = Some p -> ~ In p (stale_batch now table) ->
  nth_error (table_after (update_product_prices round2 now draws stamp table)) i = Some p.
Proof.
  intros Hnd Hi Hout. unfold update_product_prices. simpl.
  apply flush_products_other; [exact Hi|].
  intros o Ho Hid.
  apply (in_map Product.id) in Ho. rewrite update_loop_ids in Ho.
  apply in_map_iff in Ho as (q & Hq & Hin).
  apply Hout. replace p with q; [exact Hin|].
  apply (key_inj _ Product.id table); auto.
  - now apply stale_batch_In in Hin.
  - eapply nth_error_In; eassumption.
  - congruence.
Qed.

(** The [j]-th product of the batch gets the row the loop computed for it. *)
Lemma pass_batch now draws stamp table i j p :
  NoDup (map Product.id table) ->
  nth_error table i = Some p -> nth_error (stale_batch now table) j = Some p ->
  nth_error (table_after (update_product_prices round2 now draws stamp table)) i
  = Some (updated round2 draws stamp j p).
Proof.
  intros Hnd Hi Hj. unfold update_product_prices. simpl.
  apply flush_products_object with (j := j) (p := p).
  - rewrite update_loop_ids. now apply stale_batch_NoDup.
  - exact Hi.
  - now rewrite (update_loop_nth draws stamp _ 0 j p Hj).
  - apply update_product_id.
Qed.

Lemma stale_true_iff cutoff p :
  stale cutoff p = true <->
  Product.is_active p = Some true
  /\ exists t, Product.updated_at p = Some t /\ (t < cutoff)%Z.
Proof.
  unfold stale, is_true, before. split.
  - intros H. apply andb_true_iff in H as [Ha Hb].
    destruct (Product.is_active p) as [[|]|]; try discriminate.
    destruct (Product.updated_at p) as [t|]; try discriminate.
    split; [reflexivity|]. exists t. split; [reflexivity|]. now apply Z.ltb_lt.
  - intros [-> (t & -> & Ht)]. now apply Z.ltb_lt in Ht as ->.
Qed.

(** C5. One invocation of the price-update pass selects at most 50 products,
    each of them active and last updated strictly before the cutoff, two hours
    before now; a product that is not selected (in particular one that is not
    active, or whose [updated_at] is missing or not before the cutoff) keeps
    its row unchanged. *)
Theorem C5_batch_cap_and_staleness now draws stamp table :
  NoDup (map Product.id table) ->
  let batch := stale_batch now table in
  let result := update_product_prices round2 now draws stamp table in
  length batch <= 50
  /\ pass_updated result <= 50
  /\ (forall p, In p batch ->
        In p table /\ Product.is_active p = Some true
        /\ exists t, Product.updated_at p = Some t
                     /\ (t < now - 2 * 3600 * 1000000)%Z)
  /\ length (table_after result) = length table
  /\ (forall i p, nth_error table i = Some p -> ~ In p batch ->
        nth_error (table_after result) i = Some p)
  /\ (forall i p, nth_error table i = Some p ->
        (Product.is_active p <> Some true
         \/ forall t, Product.updated_at p = Some t ->
                      (now - 2 * 3600 * 1000000 <= t)%Z) ->
        nth_error (table_after result) i = Some p).
Proof.
  intros Hnd. cbv zeta.
  assert (Hcap : length (stale_batch now table) <= 50).
  { unfold stale_batch. cbv zeta. apply firstn_le_length. }
  assert (Hin : forall p, In p (stale_batch now table) ->
            In p table /\ Product.is_active p = Some true
            /\ exists t, Product.updated_at p = Some t
                         /\ (t < now - 2 * 3600 * 1000000)%Z).
  { intros p Hp. apply stale_batch_In in Hp as [Ht Hs].
    apply stale_true_iff in Hs. tauto. }
  repeat split.
  - exact Hcap.
  - unfold update_product_prices. simpl.
    pose proof (update_loop_count draws stamp (stale_batch now table) 0). lia.
  - now apply Hin.
  - now apply Hin.
  - now apply Hin.
  - unfold update_product_prices. simpl. apply flush_products_length.
  - intros i p Hi Hout. now apply pass_other.
  - intros i p Hi Hnot. apply pass_other; auto.
    intros Hp. apply Hin in Hp as (_ & Hact & t & Hupd & Hlt).
    destruct Hnot as [Hn|Hn]; [congruence|]. specialize (Hn t Hupd). lia.
Qed.

(** C1, amended. For a product of the batch whose simulated price differs
    from its price: the new price is stored and, when [original_price] is set
    and not zero, the stored [discount_percentage] is
    [(original_price - price) / original_price * 100] if that is positive and
    null otherwise; when [original_price] is unset or zero the stored
    [discount_percentage] is left as it was. A product whose price is unset,
    or whose simulated price equals its price, keeps its row. *)
Theorem C1_discount_recomputed_on_change now draws stamp table i j p :
  NoDup (map Product.id table) ->
  nth_error table i = Some p ->
  nth_error (stale_batch now table) j = Some p ->
  exists p',
    nth_error (table_after (update_product_prices round2 now draws stamp table)) i
    = Some p'
    /\ match Product.price p with
       | None => p' = p
       | Some old_price =>
           let new_price := simulate_float round2 old_price (draws j) in
           if PrimFloat.eqb new_price old_price then p' = p
           else
             Product.price p' = Some new_price
             /\ Product.original_price p' = Product.original_price p
             /\ match Product.original_price p with
                | Some original =>
                    if PrimFloat.eqb original 0%float then
                      Product.discount_percentage p' = Product.discount_percentage p
                    else
                      let pct := ((original - new_price) / original * 100)%float in
                      Product.discount_percentage p'
                      = (if PrimFloat.ltb 0%float pct then Some pct else None)
                | None =>
                    Product.discount_percentage p' = Product.discount_percentage p
                end
       end.
Proof.
  intros Hnd Hi Hj. exists (updated round2 draws stamp j p). split.
  - now apply pass_batch.
  - unfold updated, update_product, _simulate_price_change.
    destruct (Product.price p) as [old_price|]; [|reflexivity].
    cbv zeta. unfold apply_price.
    destruct (PrimFloat.eqb (simulate_float round2 old_price (draws j)) old_price);
      simpl; [reflexivity|].
    repeat split.
    destruct (Product.original_price p) as [original|]; [|reflexivity].
    unfold float_truthy, discount_of.
    destruct (PrimFloat.eqb original 0%float); reflexivity.
Qed.

(** When the loop queues a price drop: the price changed, the old price is
    not zero, and the new price is strictly below [old_price * 0.9]. *)
Lemma price_drop_queued_iff now p old_price new_price :
  snd (apply_price now p old_price new_price) <> None <->
  PrimFloat.eqb new_price old_price = false
  /\ PrimFloat.eqb old_price 0 = false
  /\ PrimFloat.ltb new_price (old_price * f0_9) = true.
Proof.
  unfold apply_price, float_truthy.
  destruct (PrimFloat.eqb new_price old_price); cbn [negb snd].
  - split; [congruence | intros (H & _); discriminate].
  - destruct (PrimFloat.eqb old_price 0); cbn [negb andb].
    + split; [congruence | intros (_ & H & _); discriminate].
    + destruct (PrimFloat.ltb new_price (old_price * f0_9)).
      * split; [auto | discriminate].
      * split; [congruence | intros (_ & _ & H); discriminate].
Qed.

(** C6 at the failing input: a product priced 10.0 whose simulated price is
    9.0 (a "big" change by the factor 0.9). The price drops by exactly 10%,
    the new price is stored, and no price drop is queued. *)
Theorem C6_exact_ten_percent_drop_not_queued now stamp :
  round2 9%float = 9%float ->
  let p := Examples.product 1 (Some 10%float) None None false 0%Z in
  let result :=
    update_product_prices round2 (Examples.three_hours + now)%Z
      (fun _ => BigChange f0_9) stamp [p] in
  (0 <= now)%Z ->
  (10 * f0_9 = 9)%float
  /\ simulate_float round2 10%float (BigChange f0_9) = 9%float
  /\ PrimFloat.leb 9%float (10 * f0_9)%float = true
  /\ map Product.price (table_after result) = [Some 9%float]
  /\ pass_drops result = [].
Proof.
  intros Hround p result Hnow.
  assert (Hsim : simulate_float round2 10%float (BigChange f0_9) = 9%float).
  { unfold simulate_float. change (10 * f0_9)%float with 9%float.
    rewrite Hround. reflexivity. }
  assert (Hbatch : stale_batch (Examples.three_hours + now)%Z [p] = [p]).
  { assert (Hs : stale (Examples.three_hours + now - hours_2)%Z p = true).
    { apply stale_true_iff. split; [reflexivity|].
      exists 0%Z. split; [reflexivity|].
      unfold Examples.three_hours, hours_2. lia. }
    unfold stale_batch. cbv zeta. cbn [filter]. now rewrite Hs. }
  repeat split.
  - exact Hsim.
  - subst result. unfold update_product_prices. rewrite Hbatch.
    cbn [update_loop]. unfold update_product, _simulate_price_change.
    change (Product.price p) with (Some 10%float).
    cbv beta iota. rewrite Hsim. reflexivity.
  - subst result. unfold update_product_prices. rewrite Hbatch.
    cbn [update_loop]. unfold update_product, _simulate_price_change.
    change (Product.price p) with (Some 10%float).
    cbv beta iota. rewrite Hsim. reflexivity.
Qed.

End Pass.

Lemma C5_batch_cap_and_staleness_witness :
  let fresh := Examples.product 2 (Some 20%float) None None false Examples.three_hours in
  let table := [Examples.product 1 (Some 10%float) None None false 0%Z; fresh] in
  nth_error
    (table_after (update_product_prices (fun x => x) Examples.three_hours
                    (fun _ => BigChange 0.5%float) (fun _ => Examples.three_hours) table)) 1
  = Some fresh.
Proof.
  intros fresh table.
  assert (Hnd : NoDup (map Product.id table)).
  { repeat constructor; cbn; intuition discriminate. }
  apply (proj1 (proj2 (proj2 (proj2 (proj2
    (C5_batch_cap_and_staleness (fun x => x) Examples.three_hours
       (fun _ => BigChange 0.5%float) (fun _ => Examples.three_hours) table Hnd)))))
    1 fresh eq_refl).
  intros [H|[]]. discriminate H.
Defined.

(** C1, as stated, fails. The row is the one [affiliate_manager.py] seeds
    for its fourth sample product: price 38.0, [original_price] 42.0,
    [discount_percentage] 9.5. It is stale, so the pass processes it; its
    simulated price is unchanged, so the pass leaves the stored 9.5, which is
    not [(42 - 38) / 42 * 100]. *)
Lemma C1_counterexample :
  let p := Examples.product 1 (Some 38%float) (Some 42%float) (Some 9.5%float)
             false 0%Z in
  let result :=
    update_product_prices (fun x => x) Examples.three_hours
      (fun _ => NoChange) (fun _ => Examples.three_hours) [p] in
  stale_batch Examples.three_hours [p] = [p]
  /\ exists p',
      table_after result = [p']
      /\ Product.original_price p' = Some 42%float
      /\ Product.price p' = Some 38%float
      /\ PrimFloat.ltb 38%float 42%float = true
      /\ Product.discount_percentage p' <> Some ((42 - 38) / 42 * 100)%float.
Proof.
  cbv zeta. split; [reflexivity|].
  eexists. split; [vm_compute; reflexivity|].
  repeat split. cbn [Product.discount_percentage].
  intros H.
  apply (f_equal (fun o => match o with
                           | Some x => PrimFloat.eqb x 9.5%float
                           | None => false
                           end)) in H.
  vm_compute in H. discriminate H.
Qed.

Lemma C1_discount_recomputed_on_change_witness :
  let p := Examples.product 1 (Some 100%float) (Some 100%float) None false 0%Z in
  exists p',
    nth_error
      (table_after (update_product_prices (fun x => x) Examples.three_hours
                      (fun _ => BigChange 0.875%float) (fun _ => Examples.three_hours) [p])) 0
    = Some p'
    /\ Product.price p' = Some 87.5%float
    /\ Product.discount_percentage p' = Some 12.5%float.
Proof.
  cbv zeta.
  assert (Hnd : NoDup (map Product.id
            [Examples.product 1 (Some 100%float) (Some 100%float) None false 0%Z])).
  { repeat constructor. simpl. tauto. }
  destruct (C1_discount_recomputed_on_change (fun x => x) Examples.three_hours
              (fun _ => BigChange 0.875%float) (fun _ => Examples.three_hours)
              _ 0 0 _ Hnd eq_refl eq_refl) as (p' & Hrow & Hp').
  exists p'. split; [exact Hrow|].
  vm_compute in Hp'. destruct Hp' as (Hprice & _ & Hdisc). split; assumption.
Defined.

Lemma C6_exact_ten_percent_drop_not_queued_witness :
  pass_drops
    (update_product_prices (fun x => x) (Examples.three_hours + 0)%Z
       (fun _ => BigChange f0_9) (fun _ => Examples.three_hours)
       [Examples.product 1 (Some 10%float) None None false 0%Z])
  = [].
Proof.
  refine (proj2 (proj2 (proj2 (proj2
    (C6_exact_ten_percent_drop_not_queued (fun x => x) 0%Z
       (fun _ => Examples.three_hours) eq_refl _))))).
  lia.
Defined.

End PriceUpdateFacts.

(** ** price_monitor.py: the retention sweep *)

Module CleanupFacts.

Import Db PriceMonitor.
Open Scope nat_scope.

Lemma filter_partition_length (A : Type) (f : A -> bool) (l : list A) :
  length (filter (fun x => negb (f x)) l) + length (filter f l) = length l.
Proof.
  induction l as [|x l IH]; simpl; [reflexivity|].
  destruct (f x); simpl; lia.
Qed.

(** C8. The retention sweep keeps a click row exactly when its [clicked_at]
    is not strictly earlier than now minus 90 days: every row strictly older
    than the cutoff is deleted, no row at or after the cutoff is (nor a row
    without a date), the number reported is the number of rows deleted, and
    the other tables are the same afterwards. *)
Theorem C8_retention_sweep (now : datetime) (db : Database) :
  let cutoff := (now - 90 * 86400 * 1000000)%Z in
  let db' := fst (cleanup_old_data now db) in
  let deleted := snd (cleanup_old_data now db) in
  (forall c, In c (click_tracking db') <->
             In c (click_tracking db)
             /\ ~ (exists t, ClickTracking.clicked_at c = Some t /\ (t < cutoff)%Z))
  /\ (forall c t, ClickTracking.clicked_at c = Some t -> (t < cutoff)%Z ->
                  ~ In c (click_tracking db'))
  /\ (forall c t, In c (click_tracking db) ->
                  ClickTracking.clicked_at c = Some t -> (cutoff <= t)%Z ->
                  In c (click_tracking db'))
  /\ length (click_tracking db') + deleted = length (click_tracking db)
  /\ products db' = products db
  /\ users db' = users db.
Proof.
  cbv zeta. unfold cleanup_old_data. cbn [fst snd click_tracking products users].
  assert (Hold : forall c,
            before (ClickTracking.clicked_at c) (now - days_90)%Z = true <->
            exists t, ClickTracking.clicked_at c = Some t
                      /\ (t < now - 90 * 86400 * 1000000)%Z).
  { intros c. unfold before, days_90.
    destruct (ClickTracking.clicked_at c) as [t|].
    - rewrite Z.ltb_lt. split.
      + intros H. now exists t.
      + now intros (t' & [= <-] & H).
    - split; [discriminate | now intros (t' & [=] & _)]. }
  assert (Hkeep : forall c,
            In c (filter (fun c => negb (before (ClickTracking.clicked_at c)
                                           (now - days_90)%Z))
                         (click_tracking db)) <->
            In c (click_tracking db)
            /\ ~ (exists t, ClickTracking.clicked_at c = Some t
                            /\ (t < now - 90 * 86400 * 1000000)%Z)).
  { intros c. rewrite filter_In, negb_true_iff, <- Hold.
    destruct (before _ _); intuition congruence. }
  split; [exact Hkeep|].
  split; [|split; [|split; [|split; reflexivity]]].
  - intros c t Ht Hlt Hin. apply Hkeep in Hin as [_ Hn]. apply Hn. now exists t.
  - intros c t Hin Ht Hge. apply Hkeep. split; [assumption|].
    intros (t' & Ht' & Hlt). assert (t' = t) by congruence. lia.
  - apply filter_partition_length.
Qed.

End CleanupFacts.

(** ** The order of binary64 floats *)

Module FloatOrder.

Import SpecFloat.

Ltac cmp_cases :=
  repeat match goal with
         | |- context [(?a ?= ?b)%Z] => destruct (Z.compare_spec a b)
         | |- context [Pos.compare_cont Eq ?a ?b] =>
             change (Pos.compare_cont Eq a b) with (Pos.compare a b);
             destruct (Pos.compare_spec a b)
         | H : context [(?a ?= ?b)%Z] |- _ => destruct (Z.compare_spec a b)
         | H : context [Pos.compare_cont Eq ?a ?b] |- _ =>
             change (Pos.compare_cont Eq a b) with (Pos.compare a b) in H;
             destruct (Pos.compare_spec a b)
         end.

Lemma SFleb_trans (x y z : spec_float) :
  SFleb x y = true -> SFleb y z = true -> SFleb x z = true.
Proof.
  unfold SFleb, SFcompare.
  destruct x as [[]|[]| |[] mx ex], y as [[]|[]| |[] my ey], z as [[]|[]| |[] mz ez];
    try reflexivity; try discriminate; intros H1 H2;
    cmp_cases; subst; simpl in *; try reflexivity; try discriminate; try lia.
Qed.

Lemma SFleb_total (x y : spec_float) :
  SFleb x x = true -> SFleb y y = true -> SFleb x y = false -> SFleb y x = true.
Proof.
  unfold SFleb, SFcompare.
  destruct x as [[]|[]| |[] mx ex], y as [[]|[]| |[] my ey];
    try reflexivity; try discriminate; intros _ _ H;
    cmp_cases; subst; simpl in *; try reflexivity; try discriminate; try lia.
Qed.

Lemma SFleb_refl_l (x y : spec_float) : SFleb x y = true -> SFleb x x = true.
Proof.
  unfold SFleb, SFcompare.
  destruct x as [[]|[]| |[] mx ex], y as [[]|[]| |[] my ey];
    try reflexivity; try discriminate; intros _;
    rewrite Z.compare_refl;
    change (Pos.compare_cont Eq mx mx) with (Pos.compare mx mx);
    now rewrite Pos.compare_refl.
Qed.

Lemma SFleb_refl_r (x y : spec_float) : SFleb x y = true -> SFleb y y = true.
Proof.
  unfold SFleb, SFcompare.
  destruct x as [[]|[]| |[] mx ex], y as [[]|[]| |[] my ey];
    try reflexivity; try discriminate; intros _;
    rewrite Z.compare_refl;
    change (Pos.compare_cont Eq my my) with (Pos.compare my my);
    now rewrite Pos.compare_refl.
Qed.

(** [<=] on floats is transitive, and total on the floats that are not NaN
    (those with [x <= x]). *)
Lemma leb_trans (x y z : float) :
  PrimFloat.leb x y = true -> PrimFloat.leb y z = true -> PrimFloat.leb x z = true.
Proof. rewrite !leb_spec. apply SFleb_trans. Qed.

Lemma leb_total (x y : float) :
  PrimFloat.leb x x = true -> PrimFloat.leb y y = true ->
  PrimFloat.leb x y = false -> PrimFloat.leb y x = true.
Proof. rewrite !leb_spec. apply SFleb_total. Qed.

Lemma leb_refl_l (x y : float) : PrimFloat.leb x y = true -> PrimFloat.leb x x = true.
Proof. rewrite !leb_spec. apply SFleb_refl_l. Qed.

Lemma leb_refl_r (x y : float) : PrimFloat.leb x y = true -> PrimFloat.leb y y = true.
Proof. rewrite !leb_spec. apply SFleb_refl_r. Qed.

End FloatOrder.

(** ** Python's [random.sample] *)

Module PyFacts.

Import Py.
Open Scope nat_scope.

Lemma list_set_length (A : Type) (l : list A) :
  forall j y, length (list_set l j y) = length l.
Proof.
  induction l as [|x l IH]; intros [|j] y; simpl; try reflexivity.
  now rewrite IH.
Qed.

Lemma firstn_snoc (A : Type) (l : list A) :
  forall k y, nth_error l k = Some y -> firstn (S k) l = firstn k l ++ [y].
Proof.
  induction l as [|x l IH]; intros [|k] y; simpl; try discriminate.
  - now intros [= ->].
  - intros H. f_equal. now apply IH.
Qed.

(** One round of the selection: taking [pool[j]] and moving the last live
    element into its place keeps the live elements, up to their order. *)
Lemma pick_step (A : Type) (pool : list A) :
  forall m j x y,
    j <= m -> nth_error pool j = Some x -> nth_error pool m = Some y ->
    Permutation (firstn (S m) pool) (x :: firstn m (list_set pool j y)).
Proof.
  induction pool as [|h t IH]; intros m j x y Hj Hx Hy.
  - destruct j; discriminate.
  - destruct j as [|j].
    + injection Hx as ->. destruct m as [|m].
      * injection Hy as ->. apply Permutation_refl.
      * cbn [nth_error] in Hy. cbn [list_set]. rewrite !firstn_cons. apply perm_skip.
        rewrite (firstn_snoc _ _ _ _ Hy).
        apply Permutation_sym, Permutation_cons_append.
    + destruct m as [|m]; [lia|].
      cbn [nth_error] in Hx, Hy. cbn [list_set]. rewrite !firstn_cons.
      eapply perm_trans; [|apply perm_swap].
      apply perm_skip. apply IH; [lia | assumption..].
Qed.

Lemma sample_loop_spec (A : Type) (rand : nat -> nat) (n : nat) :
  forall steps i (pool : list A),
    steps + i <= n -> n <= length pool ->
    length (sample_loop rand n steps i pool) = steps
    /\ exists rest,
        Permutation (firstn (n - i) pool) (sample_loop rand n steps i pool ++ rest).
Proof.
  induction steps as [|steps IH]; intros i pool Hsteps Hlen.
  - split; [reflexivity|]. now exists (firstn (n - i) pool).
  - cbn [sample_loop].
    assert (Hj : rand i mod (n - i) < n - i) by (apply Nat.mod_upper_bound; lia).
    destruct (nth_error pool (rand i mod (n - i))) as [x|] eqn:Ex;
      [|apply nth_error_None in Ex; lia].
    destruct (nth_error pool (n - i - 1)) as [y|] eqn:Ey;
      [|apply nth_error_None in Ey; lia].
    destruct (IH (S i) (list_set pool (rand i mod (n - i)) y)) as (Hl & rest & Hp);
      [lia | rewrite list_set_length; lia |].
    split; [simpl; now rewrite Hl|].
    exists rest. cbn [app].
    eapply perm_trans; [|apply perm_skip; exact Hp].
    replace (n - i) with (S (n - i - 1)) at 1 by lia.
    replace (n - S i) with (n - i - 1) by lia.
    apply pick_step; [lia | assumption..].
Qed.

(** [random.sample(population, k)] returns [k] of the elements, each position
    of the population used at most once. *)
Lemma sample_spec (A : Type) (rand : nat -> nat) (population : list A) (k : nat) :
  k <= length population ->
  length (sample rand population k) = k
  /\ exists rest, Permutation population (sample rand population k ++ rest).
Proof.
  intros Hk. unfold sample.
  destruct (sample_loop_spec A rand (length population) k 0 population) as (Hl & rest & Hp);
    [lia | lia |].
  split; [exact Hl|]. exists rest.
  rewrite Nat.sub_0_r, firstn_all in Hp. exact Hp.
Qed.

Lemma randint_range (r a b : nat) : a <= b -> a <= randint r a b <= b.
Proof.
  intros Hab. unfold randint.
  pose proof (Nat.mod_upper_bound r (b - a + 1)). lia.
Qed.

End PyFacts.

(** ** price_monitor.py: the daily-deal reselection *)

Module DailyDealsFacts.

Import Db Py PriceMonitor DbFacts PyFacts FloatOrder.
Open Scope nat_scope.

(** *** Clearing the flags *)

Lemma is_true_false (b : option bool) : is_true b = false -> b <> Some true.
Proof. destruct b as [[|]|]; simpl; congruence. Qed.

Lemma clear_ids now table :
  map Product.id (clear_daily_deals now table) = map Product.id table.
Proof.
  unfold clear_daily_deals. rewrite map_map. apply map_ext.
  intros p. now destruct (is_true (Product.is_daily_deal p)).
Qed.

Lemma clear_unflagged now table p :
  In p (clear_daily_deals now table) -> Product.is_daily_deal p <> Some true.
Proof.
  unfold clear_daily_deals. intros H. apply in_map_iff in H as (q & <- & _).
  destruct (is_true (Product.is_daily_deal q)) eqn:E; [discriminate|].
  now apply is_true_false.
Qed.

(** *** The candidates and their order *)

Lemma at_least_Some (c : option float) (x : float) :
  at_least c x = true -> exists v, c = Some v /\ PrimFloat.leb x v = true.
Proof. destruct c as [v|]; simpl; [|discriminate]. intros H. now exists v. Qed.

Lemma is_candidate_true p :
  is_candidate p = true ->
  Product.is_active p = Some true
  /\ (exists d, Product.discount_percentage p = Some d /\ PrimFloat.leb 15 d = true)
  /\ (exists x, Product.rating p = Some x /\ PrimFloat.leb 4 x = true).
Proof.
  unfold is_candidate. intros H.
  apply andb_true_iff in H as [H Hr]. apply andb_true_iff in H as [Ha Hd].
  repeat split.
  - destruct (Product.is_active p) as [[|]|]; simpl in Ha; congruence.
  - now apply at_least_Some.
  - now apply at_least_Some.
Qed.

Lemma candidate_ranked p : is_candidate p = true -> ranked p.
Proof.
  intros H. apply is_candidate_true in H as (_ & (d & Hd & Hle) & _).
  exists d. split; [exact Hd|]. now apply leb_refl_r in Hle.
Qed.

Lemma geb_total a b :
  ranked a -> ranked b -> discount_geb a b = false -> discount_geb b a = true.
Proof.
  unfold discount_geb. intros (x & -> & Hx) (y & -> & Hy) H.
  now apply leb_total.
Qed.

Lemma geb_trans a b c :
  ranked a -> ranked b -> ranked c ->
  discount_geb a b = true -> discount_geb b c = true -> discount_geb a c = true.
Proof.
  unfold discount_geb. intros (x & -> & _) (y & -> & _) (z & -> & _) H1 H2.
  now apply leb_trans with y.
Qed.

Lemma insert_desc_perm p l : Permutation (p :: l) (insert_desc p l).
Proof.
  induction l as [|q l IH]; simpl; [apply Permutation_refl|].
  destruct (discount_geb p q); [apply Permutation_refl|].
  eapply perm_trans; [apply perm_swap|]. now apply perm_skip.
Qed.

Lemma order_perm l : Permutation l (order_by_discount_desc l).
Proof.
  induction l as [|p l IH]; simpl; [constructor|].
  eapply perm_trans; [|apply insert_desc_perm]. now apply perm_skip.
Qed.

Lemma insert_desc_sorted p l :
  ranked p -> Forall ranked l ->
  StronglySorted geR l -> StronglySorted geR (insert_desc p l).
Proof.
  intros Hp. induction l as [|q l IH]; intros Hl Hs; simpl.
  - repeat constructor.
  - inversion Hl as [|? ? Hq Hl']; subst.
    inversion Hs as [|? ? Hs' Hall]; subst.
    destruct (discount_geb p q) eqn:E.
    + constructor; [exact Hs|]. constructor; [exact E|].
      rewrite Forall_forall in *. intros x Hx.
      apply geb_trans with q; auto. now apply Hall.
    + constructor; [now apply IH|].
      apply Permutation_Forall with (p :: l); [apply insert_desc_perm|].
      constructor; [now apply geb_total | exact Hall].
Qed.

Lemma order_sorted l :
  Forall ranked l -> StronglySorted geR (order_by_discount_desc l).
Proof.
  induction l as [|p l IH]; intros H; simpl; [constructor|].
  inversion H as [|? ? Hp Hl]; subst.
  apply insert_desc_sorted; [exact Hp | | now apply IH].
  apply Permutation_Forall with l; [apply order_perm | exact Hl].
Qed.

Lemma sorted_app_inv (l1 l2 : list Product.t) :
  StronglySorted geR (l1 ++ l2) ->
  forall x y, In x l1 -> In y l2 -> geR x y.
Proof.
  induction l1 as [|a l1 IH]; simpl; intros Hs x y Hx Hy; [contradiction|].
  inversion Hs as [|? ? Hs' Hall]; subst.
  destruct Hx as [->|Hx]; [|now apply IH].
  rewrite Forall_forall in Hall. apply Hall, in_or_app. now right.
Qed.

Lemma candidates_In table c :
  In c (candidates table) -> In c table /\ is_candidate c = true.
Proof.
  unfold candidates. intros H. apply In_firstn in H.
  apply (Permutation_in _ (Permutation_sym (order_perm _))) in H.
  now apply filter_In in H.
Qed.

Lemma candidates_NoDup table :
  NoDup (map Product.id table) -> NoDup (map Product.id (candidates table)).
Proof.
  intros H. unfold candidates. apply NoDup_key_firstn.
  apply (Permutation_NoDup (l := map Product.id (filter is_candidate table))).
  - apply Permutation_map, order_perm.
  - now apply NoDup_key_filter.
Qed.

(** The candidates are the best-ranked: none of them has a smaller discount
    than a product that passes the filter and is left out. *)
Lemma candidates_top table c q :
  In c (candidates table) ->
  In q table -> is_candidate q = true -> ~ In q (candidates table) ->
  discount_geb c q = true.
Proof.
  unfold candidates. intros Hc Hq Hcand Hout.
  set (sorted := order_by_discount_desc (filter is_candidate table)) in *.
  assert (Hs : StronglySorted geR (firstn 20 sorted ++ skipn 20 sorted)).
  { rewrite firstn_skipn. apply order_sorted.
    apply Forall_forall. intros x Hx. apply filter_In in Hx as [_ Hx].
    now apply candidate_ranked. }
  apply (sorted_app_inv _ _ Hs); [exact Hc|].
  assert (Hin : In q sorted).
  { apply (Permutation_in _ (order_perm _)). now apply filter_In. }
  rewrite <- (firstn_skipn 20 sorted) in Hin.
  apply in_app_or in Hin as [Hin|Hin]; [contradiction | exact Hin].
Qed.

(** *** Marking the selection *)

Lemma mark_ids stamp deals :
  forall i, map Product.id (mark_daily_deals stamp i deals) = map Product.id deals.
Proof.
  induction deals as [|d deals IH]; intros i; simpl; [reflexivity|]. now rewrite IH.
Qed.

Lemma mark_flagged stamp deals :
  forall i o, In o (mark_daily_deals stamp i deals) ->
              Product.is_daily_deal o = Some true.
Proof.
  induction deals as [|d deals IH]; intros i o; simpl; [contradiction|].
  intros [<-|H]; [reflexivity | now apply (IH (S i))].
Qed.

Lemma mark_nth stamp deals :
  forall i j d,
    nth_error deals j = Some d ->
    nth_error (mark_daily_deals stamp i deals) j
    = Some (Product.set_daily_deal d true (stamp (i + j))).
Proof.
  induction deals as [|d0 deals IH]; intros i [|j] d; simpl; try discriminate.
  - intros [= ->]. now rewrite Nat.add_0_r.
  - intros H. rewrite (IH (S i) j d H). do 3 f_equal. lia.
Qed.

(** After the commit a row is flagged exactly when its key is a selected one. *)
Lemma flush_marked_flag stamp deals cleared q :
  (forall p, In p cleared -> Product.is_daily_deal p <> Some true) ->
  In q (flush_products (mark_daily_deals stamp 0 deals) cleared) ->
  (Product.is_daily_deal q = Some true <-> In (Product.id q) (map Product.id deals)).
Proof.
  intros Hclear Hq. unfold flush_products in Hq.
  apply in_map_iff in Hq as (row & <- & Hrow).
  unfold find_product.
  destruct (find (fun o => (Product.id o =? Product.id row)%Z)
                 (mark_daily_deals stamp 0 deals)) as [o|] eqn:E.
  - apply find_key_Some in E as [Ho Hid]. split; intros _.
    + rewrite <- (mark_ids stamp deals 0). now apply in_map.
    + now apply mark_flagged in Ho.
  - split; intros H.
    + exfalso. now apply (Hclear row Hrow).
    + exfalso. rewrite <- (mark_ids stamp deals 0) in H.
      apply in_map_iff in H as (o & Hid & Ho).
      pose proof (find_none _ _ E o Ho) as Hne. cbv beta in Hne.
      rewrite Hid, Z.eqb_refl in Hne. discriminate.
Qed.

Lemma flush_ids objects table :
  map Product.id (flush_products objects table) = map Product.id table.
Proof.
  unfold flush_products. rewrite map_map. apply map_ext. intros row.
  unfold find_product.
  destruct (find _ objects) as [o|] eqn:E; [|reflexivity].
  now apply find_key_Some in E.
Qed.

(** *** The pass *)

Lemma sample_sub (rand : nat -> nat) (cands : list Product.t) (k : nat) :
  k <= length cands -> NoDup (map Product.id cands) ->
  length (sample rand cands k) = k
  /\ (forall d, In d (sample rand cands k) -> In d cands)
  /\ NoDup (map Product.id (sample rand cands k))
  /\ (k < length cands -> exists c, In c cands /\ ~ In c (sample rand cands k)).
Proof.
  intros Hk Hnd.
  destruct (sample_spec _ rand cands k Hk) as (Hlen & rest & Hperm).
  assert (Hnd' : NoDup (map Product.id (sample rand cands k ++ rest))).
  { apply (Permutation_NoDup (l := map Product.id cands)); [|exact Hnd].
    now apply Permutation_map. }
  split; [exact Hlen|]. split; [|split].
  - intros d Hd. apply (Permutation_in _ (Permutation_sym Hperm)).
    apply in_or_app. now left.
  - rewrite map_app in Hnd'. now apply NoDup_app_remove_r in Hnd'.
  - intros Hlt.
    assert (Hrest : length rest <> 0).
    { apply Permutation_length in Hperm. rewrite length_app in Hperm. lia. }
    destruct rest as [|c rest]; [now contradiction Hrest|].
    exists c. split.
    + apply (Permutation_in _ (Permutation_sym Hperm)).
      apply in_or_app. right. now left.
    + intros Hin. apply NoDup_map_inv in Hnd'.
      apply NoDup_remove_2 in Hnd'. apply Hnd'.
      apply in_or_app. now left.
Qed.

(** Clearing the flags changes which products pass the candidates' filter
    in nothing. *)
Lemma clear_keeps_candidates now table :
  length (filter is_candidate (clear_daily_deals now table))
  = length (filter is_candidate table).
Proof.
  unfold clear_daily_deals. induction table as [|p table IH]; [reflexivity|].
  cbn [map filter].
  assert (H : is_candidate (if is_true (Product.is_daily_deal p)
                            then Product.set_daily_deal p false now else p)
              = is_candidate p).
  { now destruct (is_true (Product.is_daily_deal p)). }
  rewrite H. destruct (is_candidate p); cbn [length]; now rewrite IH.
Qed.

(** The candidates are the first 20 of the products that pass the filter:
    all of them when no more than 20 pass. *)
Lemma candidates_complete table :
  length (candidates table) = Nat.min 20 (length (filter is_candidate table))
  /\ (exists rest, Permutation (filter is_candidate table) (candidates table ++ rest))
  /\ (length (filter is_candidate table) <= 20 ->
      forall q, In q table -> is_candidate q = true -> In q (candidates table)).
Proof.
  unfold candidates.
  set (l := filter is_candidate table).
  assert (Hperm : Permutation l (order_by_discount_desc l)) by apply order_perm.
  split; [|split].
  - rewrite length_firstn. now rewrite <- (Permutation_length Hperm).
  - exists (skipn 20 (order_by_discount_desc l)). now rewrite firstn_skipn.
  - intros Hle q Hq Hcand.
    rewrite firstn_all2 by (rewrite <- (Permutation_length Hperm); exact Hle).
    apply (Permutation_in _ Hperm). apply filter_In. auto.
Qed.

(** C4, as stated, fails: with a single candidate the selection is that
    candidate, so it is the whole candidate list rather than a strict subset
    of it, and its size is 1, below 8. *)
Lemma C4_counterexample :
  let table := [Examples.product 1 (Some 80%float) (Some 100%float) (Some 20%float)
                  true 0%Z] in
  let r := refresh_daily_deals Examples.three_hours (fun _ => Examples.three_hours)
             0 (fun _ => 0) table in
  length (deals_candidates r) = 1
  /\ map Product.id (daily_deals r) = map Product.id (deals_candidates r)
  /\ length (daily_deals r) = 1
  /\ ~ (8 <= length (daily_deals r) <= 12).
Proof.
  cbv zeta. repeat split; try reflexivity.
  intros [H _]. vm_compute in H. lia.
Qed.

(** C4, amended. Every run of the reselection first clears [is_daily_deal] on
    all flagged products. The candidates are at most 20 products, all active
    with a discount of at least 15 and a rating of at least 4.0, none ranked
    below a product that passes the same filter and is left out. The new
    selection consists of distinct candidates; its size is the smaller of a
    number drawn between 8 and 12 and the number of candidates, so it is at
    most 12, it is at least 8 when there are at least 8 candidates, and it
    leaves a candidate out when there are more than 12. After the commit the
    flagged rows are exactly the selected products. The candidates are as
    many as the products of the table that pass the filter, up to 20: they
    are taken from those products without repetition, and when no more than
    20 pass every one of them is a candidate. *)
Theorem C4_daily_deal_reselection now stamp r_num rand table :
  NoDup (map Product.id table) ->
  let r := refresh_daily_deals now stamp r_num rand table in
  (forall p, In p (deals_cleared r) -> Product.is_daily_deal p <> Some true)
  /\ map Product.id (deals_cleared r) = map Product.id table
  /\ length (deals_candidates r) <= 20
  /\ (forall c, In c (deals_candidates r) ->
        In c (deals_cleared r)
        /\ Product.is_active c = Some true
        /\ (exists d, Product.discount_percentage c = Some d
                      /\ PrimFloat.leb 15 d = true)
        /\ (exists x, Product.rating c = Some x /\ PrimFloat.leb 4 x = true))
  /\ (forall c q dc dq,
        In c (deals_candidates r) ->
        In q (deals_cleared r) -> is_candidate q = true ->
        ~ In q (deals_candidates r) ->
        Product.discount_percentage c = Some dc ->
        Product.discount_percentage q = Some dq ->
        PrimFloat.leb dq dc = true)
  /\ 8 <= num_deals r <= 12
  /\ length (daily_deals r) = Nat.min (num_deals r) (length (deals_candidates r))
  /\ length (daily_deals r) <= 12
  /\ (8 <= length (deals_candidates r) -> 8 <= length (daily_deals r))
  /\ NoDup (map Product.id (daily_deals r))
  /\ (forall d, In d (daily_deals r) -> In d (deals_candidates r))
  /\ (12 < length (deals_candidates r) ->
      exists c, In c (deals_candidates r) /\ ~ In c (daily_deals r))
  /\ map Product.id (deals_table r) = map Product.id table
  /\ (forall q, In q (deals_table r) ->
        (Product.is_daily_deal q = Some true
         <-> In (Product.id q) (map Product.id (daily_deals r))))
  /\ length (deals_candidates r) = Nat.min 20 (length (filter is_candidate table))
  /\ (exists rest,
        Permutation (filter is_candidate (deals_cleared r)) (deals_candidates r ++ rest))
  /\ (length (filter is_candidate table) <= 20 ->
      forall q, In q (deals_cleared r) -> is_candidate q = true ->
                In q (deals_candidates r)).
Proof.
  intros Hnd. unfold refresh_daily_deals. cbv zeta.
  cbn [deals_cleared deals_candidates num_deals daily_deals deals_table].
  set (cleared := clear_daily_deals now table).
  set (cands := candidates cleared).
  set (n := randint r_num 8 12).
  assert (Hn : 8 <= n <= 12) by (apply randint_range; lia).
  assert (Hndc : NoDup (map Product.id cands)).
  { apply candidates_NoDup. unfold cleared. now rewrite clear_ids. }
  destruct (sample_sub rand cands (Nat.min n (length cands)))
    as (Hlen & Hsub & Hnds & Hstrict); [lia | exact Hndc|].
  split; [intros p; apply clear_unflagged|].
  split; [apply clear_ids|].
  split; [apply firstn_le_length|].
  split.
  { intros c Hc. apply candidates_In in Hc as [Hin Hcand].
    split; [exact Hin|]. now apply is_candidate_true. }
  split.
  { intros c q dc dq Hc Hq Hcand Hout Hdc Hdq.
    pose proof (candidates_top cleared c q Hc Hq Hcand Hout) as Hge.
    unfold discount_geb in Hge. now rewrite Hdc, Hdq in Hge. }
  split; [exact Hn|].
  split; [exact Hlen|].
  split; [lia|].
  split; [lia|].
  split; [exact Hnds|].
  split; [exact Hsub|].
  split; [intros Hbig; apply Hstrict; lia|].
  split.
  { rewrite flush_ids. apply clear_ids. }
  split.
  { intros q Hq. apply (flush_marked_flag stamp _ cleared); [|exact Hq].
    intros p. apply clear_unflagged. }
  destruct (candidates_complete cleared) as (Hcl & Hcp & Hall).
  fold cands in Hcl, Hcp, Hall. unfold cleared in Hcl at 1, Hall at 1.
  rewrite clear_keeps_candidates in Hcl, Hall.
  split; [exact Hcl|]. split; [exact Hcp | exact Hall].
Qed.

Lemma C4_daily_deal_reselection_witness :
  let r := refresh_daily_deals Examples.three_hours (fun _ => Examples.three_hours)
             3 (fun i => 5 * i + 2) Examples.catalogue in
  length (filter is_candidate Examples.catalogue) = 13
  /\ length (deals_candidates r) = 13
  /\ 8 <= length (daily_deals r) <= 12
  /\ (exists c, In c (deals_candidates r) /\ ~ In c (daily_deals r))
  /\ length (filter (fun p => is_true (Product.is_daily_deal p)) (deals_table r)) = 11.
Proof.
  intros r.
  assert (Hnd : NoDup (map Product.id Examples.catalogue)).
  { vm_compute. repeat constructor; simpl; intuition discriminate. }
  destruct (C4_daily_deal_reselection Examples.three_hours
              (fun _ => Examples.three_hours) 3 (fun i => 5 * i + 2)
              Examples.catalogue Hnd)
    as (_ & _ & _ & _ & _ & _ & _ & Hmax & Hmin & _ & _ & Hstrict & _ & _ & Hlen & _).
  fold r in Hmax, Hmin, Hstrict, Hlen.
  assert (Hpass : length (filter is_candidate Examples.catalogue) = 13)
    by (vm_compute; reflexivity).
  rewrite Hpass in Hlen. change (Nat.min 20 13) with 13 in Hlen.
  rewrite Hlen in Hmin, Hstrict.
  split; [exact Hpass|]. split; [exact Hlen|].
  split; [split; [apply Hmin; lia | exact Hmax]|].
  split; [apply Hstrict; lia|].
  vm_compute. reflexivity.
Defined.

End DailyDealsFacts.

(** ** notifications.py *)

Module NotificationFacts.

Import Db PyStr Notifications DbFacts.
Open Scope nat_scope.
Open Scope list_scope.

Section Transport.

Variable unicode_lower : string -> string.
Variable send : nat -> Z -> SendResult.

Lemma flush_one_nth (o : User.t) (table : list User.t) (k : nat) :
  nth_error (flush_users [o] table) k
  = option_map (fun row => if (User.id row =? User.id o)%Z then o else row)
               (nth_error table k).
Proof.
  unfold flush_users. rewrite nth_error_map.
  destruct (nth_error table k) as [row|]; [|reflexivity]. simpl.
  rewrite (Z.eqb_sym (User.id o)). now destruct (User.id row =? User.id o)%Z.
Qed.

Lemma daily_loop_table recipients :
  forall i st k,
    nth_error (ls_table (daily_loop unicode_lower send i recipients st)) k
    = option_map (settle unicode_lower send i recipients) (nth_error (ls_table st) k).
Proof.
  induction recipients as [|u rest IH]; intros i st k; cbn [daily_loop settle].
  - now destruct (nth_error (ls_table st) k).
  - destruct (send i (User.telegram_id u)) as [|e]; rewrite IH; cbn [ls_table].
    + reflexivity.
    + destruct (bot_was_blocked unicode_lower e); cbn [andb].
      * rewrite flush_one_nth. now destruct (nth_error (ls_table st) k).
      * reflexivity.
Qed.

Lemma daily_loop_length recipients :
  forall i st, length (ls_table (daily_loop unicode_lower send i recipients st)) = length (ls_table st).
Proof.
  induction recipients as [|u rest IH]; intros i st; cbn [daily_loop]; [reflexivity|].
  destruct (send i (User.telegram_id u)) as [|e]; rewrite IH; cbn [ls_table];
    [reflexivity|].
  destruct (bot_was_blocked unicode_lower e); [apply flush_users_length | reflexivity].
Qed.

Lemma daily_loop_attempts recipients :
  forall i st,
    ls_attempts (daily_loop unicode_lower send i recipients st)
    = ls_attempts st ++ map User.telegram_id recipients.
Proof.
  induction recipients as [|u rest IH]; intros i st; cbn [daily_loop map].
  - now rewrite app_nil_r.
  - destruct (send i (User.telegram_id u)); rewrite IH; cbn [ls_attempts];
      now rewrite <- app_assoc.
Qed.

Lemma daily_loop_sent recipients :
  forall i st,
    ls_sent (daily_loop unicode_lower send i recipients st)
    = ls_sent st + deliveries send (combine (seq i (length recipients)) recipients).
Proof.
  unfold deliveries.
  induction recipients as [|u rest IH]; intros i st; cbn [daily_loop]; [simpl; lia|].
  cbn [length seq combine filter fst snd].
  destruct (send i (User.telegram_id u)); rewrite IH; cbn [ls_sent is_delivered length];
    lia.
Qed.

Lemma daily_loop_log recipients :
  forall i st,
    ls_log (daily_loop unicode_lower send i recipients st)
    = ls_log st ++ failures send (combine (seq i (length recipients)) recipients).
Proof.
  unfold failures.
  induction recipients as [|u rest IH]; intros i st; cbn [daily_loop].
  - simpl. now rewrite app_nil_r.
  - cbn [length seq combine flat_map fst snd].
    destruct (send i (User.telegram_id u)); rewrite IH; cbn [ls_log].
    + reflexivity.
    + now rewrite <- app_assoc.
Qed.

(** A row whose key no recipient has stays as it is. *)
Lemma settle_other recipients :
  forall i row,
    (forall u, In u recipients -> User.id u <> User.id row) ->
    settle unicode_lower send i recipients row = row.
Proof.
  induction recipients as [|u rest IH]; intros i row H; cbn [settle]; [reflexivity|].
  assert (Hne : (User.id row =? User.id u)%Z = false).
  { apply Z.eqb_neq. intros E. apply (H u (or_introl eq_refl)). now symmetry. }
  rewrite Hne.
  assert (Hstep : match send i (User.telegram_id u) with
                  | Delivered => row
                  | TelegramError e =>
                      if bot_was_blocked unicode_lower e && false
                      then User.set_is_active u false else row
                  end = row).
  { destruct (send i (User.telegram_id u)) as [|e]; [reflexivity|].
    now rewrite andb_false_r. }
  rewrite Hstep. apply IH. intros v Hv. apply H. now right.
Qed.

(** The row of the [j]-th recipient is deactivated exactly when its delivery
    failed because the bot was blocked. *)
Lemma settle_recipient recipients :
  forall i j u,
    NoDup (map User.id recipients) ->
    nth_error recipients j = Some u ->
    settle unicode_lower send i recipients u
    = match send (i + j) (User.telegram_id u) with
      | Delivered => u
      | TelegramError e => if bot_was_blocked unicode_lower e then User.set_is_active u false else u
      end.
Proof.
  induction recipients as [|v rest IH]; intros i j u Hnd Hj; [now destruct j|].
  inversion Hnd as [|? ? Hnot Hnd']; subst.
  destruct j as [|j]; cbn [settle].
  - injection Hj as ->. rewrite Nat.add_0_r, Z.eqb_refl.
    assert (Hrest : forall row, User.id row = User.id u ->
                                settle unicode_lower send (S i) rest row = row).
    { intros row Hid. apply settle_other. intros w Hw E. apply Hnot.
      apply in_map_iff. exists w. split; [congruence | exact Hw]. }
    destruct (send i (User.telegram_id u)) as [|e]; [now apply Hrest|].
    rewrite andb_true_r. destruct (bot_was_blocked unicode_lower e); now apply Hrest.
  - cbn [nth_error] in Hj.
    assert (Hne : (User.id u =? User.id v)%Z = false).
    { apply Z.eqb_neq. intros E. apply Hnot. rewrite <- E.
      apply in_map. eapply nth_error_In; eassumption. }
    rewrite Hne.
    assert (Hstep : match send i (User.telegram_id v) with
                    | Delivered => u
                    | TelegramError e =>
                        if bot_was_blocked unicode_lower e && false
                        then User.set_is_active v false else u
                    end = u).
    { destruct (send i (User.telegram_id v)) as [|e]; [reflexivity|].
      now rewrite andb_false_r. }
    rewrite Hstep, (IH (S i) j u Hnd' Hj).
    now replace (S i + j) with (i + S j) by lia.
Qed.

Lemma filter_by_is_active (rows : list User.t) :
  filter_by_users [("is_active"%string, true)] rows
  = Some (filter (fun u => is_true (User.is_active u)) rows).
Proof.
  cbn. f_equal; try reflexivity.
  all: apply filter_ext; intros u; now destruct (User.is_active u) as [[|]|].
Qed.

(** The recipient query of [send_price_drop_alert] fails: [User] has no
    attribute [notifications_enabled]. The pass sends nothing, changes
    nothing and logs the error instead of a count. *)
Lemma price_drop_alert_never_sends (db : Database) :
  send_price_drop_alert unicode_lower send db
  = {| users_after := users db; log := [ErrorPriceDropAlert];
       attempts := []; raised := false |}.
Proof. reflexivity. Qed.

(** C9, amended. In a daily-deals pass that has a deal to announce, every
    active user is sent one message, once, in order. A delivery that fails
    with a message containing "bot was blocked" (in any letter case) sets that
    user's [is_active] to false; any other failure is logged and the user is
    left as they were; users who are not recipients are untouched. The pass
    ends normally whatever fails, and its last log line reports the number of
    deliveries that succeeded. *)
Theorem C9_daily_pass_delivery (db : Database) :
  todays_deals (products db) <> [] ->
  NoDup (map User.id (users db)) ->
  let recipients := filter (fun u => is_true (User.is_active u)) (users db) in
  let r := send_daily_deals_notification unicode_lower send db in
  raised r = false
  /\ attempts r = map User.telegram_id recipients
  /\ log r = failures send (enumerate recipients)
             ++ [InfoSentCount (deliveries send (enumerate recipients))]
  /\ length (users_after r) = length (users db)
  /\ (forall i k u,
        nth_error recipients i = Some u -> nth_error (users db) k = Some u ->
        nth_error (users_after r) k
        = Some match send i (User.telegram_id u) with
               | Delivered => u
               | TelegramError e =>
                   if contains "bot was blocked" (lower unicode_lower e)
                   then User.set_is_active u false else u
               end)
  /\ (forall k u,
        nth_error (users db) k = Some u -> User.is_active u <> Some true ->
        nth_error (users_after r) k = Some u).
Proof.
  intros Hdeals Hnd recipients r.
  assert (Hr : r = let st := daily_loop unicode_lower send 0 recipients (start (users db)) in
                   {| users_after := ls_table st;
                      log := ls_log st ++ [InfoSentCount (ls_sent st)];
                      attempts := ls_attempts st;
                      raised := false |}).
  { subst r. unfold send_daily_deals_notification.
    destruct (todays_deals (products db)); [congruence|].
    now rewrite filter_by_is_active. }
  rewrite Hr. cbv zeta. cbn [users_after log attempts raised].
  assert (Hndr : NoDup (map User.id recipients)) by now apply NoDup_key_filter.
  split; [reflexivity|].
  split; [now rewrite daily_loop_attempts|].
  split.
  { rewrite daily_loop_log, daily_loop_sent. reflexivity. }
  split; [now rewrite daily_loop_length|].
  split.
  - intros i k u Hi Hk. rewrite daily_loop_table. cbn [start ls_table].
    rewrite Hk. cbn [option_map]. f_equal.
    exact (settle_recipient recipients 0 i u Hndr Hi).
  - intros k u Hk Hact. rewrite daily_loop_table. cbn [start ls_table].
    rewrite Hk. cbn [option_map]. f_equal.
    apply settle_other. intros v Hv Hid.
    apply filter_In in Hv as [Hv Hactive].
    assert (v = u).
    { apply (key_inj _ User.id (users db)); auto.
      eapply nth_error_In; eassumption. }
    subst v. destruct (User.is_active u) as [[|]|]; simpl in Hactive; congruence.
Qed.

End Transport.

(** C9, as stated, fails: the delivery to the only recipient fails with the
    message "blocked by recipient", which contains "blocked", and the user
    is still active afterwards. *)
Lemma C9_counterexample :
  let db := Examples.sample_db [Examples.user 1 1001 true] in
  let send := fun (_ : nat) (_ : Z) => TelegramError "blocked by recipient" in
  contains "blocked" "blocked by recipient" = true
  /\ attempts (send_daily_deals_notification Examples.ascii_only send db) = [1001%Z]
  /\ map User.is_active (users_after (send_daily_deals_notification Examples.ascii_only send db))
     = [Some true].
Proof. repeat split. Qed.

Lemma C9_daily_pass_delivery_witness :
  let db := Examples.sample_db [Examples.user 1 1001 true; Examples.user 2 1002 true] in
  let send := fun (i : nat) (_ : Z) =>
                match i with
                | 0 => TelegramError "Forbidden: bot was blocked by the user"
                | _ => Delivered
                end in
  log (send_daily_deals_notification Examples.ascii_only send db)
  = [ErrorSendFailed 1001 "Forbidden: bot was blocked by the user"; InfoSentCount 1]
  /\ nth_error (users_after (send_daily_deals_notification Examples.ascii_only send db)) 0
     = Some (Examples.user 1 1001 false).
Proof.
  intros db send.
  assert (Hdeals : todays_deals (products db) <> []) by discriminate.
  assert (Hnd : NoDup (map User.id (users db))).
  { repeat constructor; cbn; intuition discriminate. }
  destruct (C9_daily_pass_delivery Examples.ascii_only send db Hdeals Hnd) as (_ & _ & Hlog & _ & Hrow & _).
  split; [exact Hlog|].
  exact (Hrow 0 0 (Examples.user 1 1001 true) eq_refl eq_refl).
Defined.

End NotificationFacts.

(** ** Further properties of the link generators *)

Module LinkFacts.

Import PyStr Re Affiliate Text PyStrFacts ReFacts AffiliateFacts.
Open Scope string_scope.

(** *** Percent-encoding *)

Lemma count_char_app (c : ascii) (a b : string) :
  count_char c (a ++ b) = (count_char c a + count_char c b)%nat.
Proof. induction a as [|x a IH]; simpl; [reflexivity | rewrite IH; lia]. Qed.

Lemma all_chars_app (f : ascii -> bool) (a b : string) :
  all_chars f (a ++ b) = all_chars f a && all_chars f b.
Proof.
  induction a as [|x a IH]; simpl; [reflexivity|]. now rewrite IH, andb_assoc.
Qed.

Lemma count_char_excluded (f : ascii -> bool) (c : ascii) (s : string) :
  f c = false -> all_chars f s = true -> count_char c s = 0%nat.
Proof.
  intros Hc. induction s as [|a s IH]; simpl; [reflexivity|].
  intros H. apply andb_true_iff in H as [Ha Hs].
  destruct (Ascii.eqb_spec a c) as [->|_]; [congruence|]. now rewrite IH.
Qed.

Lemma hex_digit_unreserved (n : nat) : (n < 16)%nat -> unreserved (hex_digit n) = true.
Proof.
  intros H. do 16 (destruct n as [|n]; [reflexivity|]). lia.
Qed.

Lemma percent_unreserved (c : ascii) (f : ascii -> bool) :
  f "%"%char = true -> (forall x, unreserved x = true -> f x = true) ->
  all_chars f (percent c) = true.
Proof.
  intros Hp Hu. unfold percent. cbn [all_chars]. rewrite Hp.
  rewrite !Hu; [reflexivity | |].
  - apply hex_digit_unreserved. apply Nat.mod_upper_bound. discriminate.
  - apply hex_digit_unreserved. apply Nat.Div0.div_lt_upper_bound.
    pose proof (nat_ascii_bounded c). lia.
Qed.

(** [quote] leaves only letters, digits, [_.-~], [/] and [%]. *)
Lemma quote_chars (s : string) : all_chars quoted_char (quote s) = true.
Proof.
  induction s as [|c s IH]; [reflexivity|]. cbn [quote].
  destruct (unreserved c || Ascii.eqb c "/") eqn:E.
  - cbn [all_chars]. rewrite IH, andb_true_r. unfold quoted_char.
    destruct (unreserved c), (Ascii.eqb c "/"); try reflexivity; discriminate E.
  - rewrite all_chars_app, IH, andb_true_r.
    apply percent_unreserved; [reflexivity|].
    intros x Hx. unfold quoted_char. now rewrite Hx.
Qed.

(** [quote_plus] leaves only letters, digits, [_.-~], [+] and [%]. *)
Lemma quote_plus_chars (s : string) : all_chars plus_quoted_char (quote_plus s) = true.
Proof.
  induction s as [|c s IH]; [reflexivity|]. cbn [quote_plus].
  destruct (unreserved c) eqn:E.
  - cbn [all_chars]. rewrite IH, andb_true_r. unfold plus_quoted_char. now rewrite E.
  - destruct (Ascii.eqb c " ").
    + cbn [all_chars]. now rewrite IH.
    + rewrite all_chars_app, IH, andb_true_r.
      apply percent_unreserved; [reflexivity|].
      intros x Hx. unfold plus_quoted_char. now rewrite Hx.
Qed.

Lemma quote_no_query (s : string) : count_char "?" (quote s) = 0%nat.
Proof. apply count_char_excluded with quoted_char; [reflexivity | apply quote_chars]. Qed.

Lemma quote_plus_no_query (s : string) : count_char "?" (quote_plus s) = 0%nat.
Proof.
  apply count_char_excluded with plus_quoted_char; [reflexivity | apply quote_plus_chars].
Qed.

Lemma urlencode_no_query (items : list (string * string)) :
  count_char "?" (urlencode items) = 0%nat.
Proof.
  induction items as [|[k v] rest IH]; [reflexivity|].
  destruct rest as [|kv rest'].
  - cbn [urlencode]. rewrite !count_char_app, !quote_plus_no_query. reflexivity.
  - change (urlencode ((k, v) :: kv :: rest'))
      with (quote_plus k ++ "=" ++ quote_plus v ++ "&" ++ urlencode (kv :: rest')).
    rewrite !count_char_app, !quote_plus_no_query, IH. reflexivity.
Qed.

(** *** The redirect builders *)

(** X1. With a campaign id configured, the eBay builder returns the rover
    address followed by one query string: the fixed parameters, the campaign
    id, the item id (the product_id if given, else the id extracted from the
    URL, else the text None) and the timestamp, all URL-encoded, and last the
    product URL percent-encoded under [mpre]. The encoded URL holds nothing
    but letters, digits, [_.-~/] and [%], and the link has exactly one "?".
    The builder raises instead of returning exactly when the campaign id,
    the item id or the product URL cannot be encoded. *)
Theorem ebay_link_wellformed (cfg : Config) (campaign : string) (now : Z)
        (product_url : string) (product_id : option string) :
  EBAY_CAMPAIGN_ID cfg = Some campaign -> campaign <> "" ->
  let item := str_of_opt (py_or product_id (extract_ebay_item_id product_url)) in
  let link := generate_ebay_link cfg now product_url product_id in
  link = "https://rover.ebay.com/rover/1/711-53200-19255-0/1?icep_ff3=2&pub="
         ++ quote_plus campaign
         ++ "&toolid=10001&campid=5338452986&customid=&icep_item="
         ++ quote_plus item
         ++ "&ipn=psmain&icep_vectorid=229466&kwid=902099&mtid=824&kw=lg"
         ++ "&srcrot=711-53200-19255-0&rvr_id=2348474186&rvr_ts="
         ++ quote_plus (str_of_Z now)
         ++ "&mpre=" ++ quote product_url
  /\ all_chars quoted_char (quote product_url) = true
  /\ count_char "?" link = 1%nat
  /\ generate_ebay_link_raises cfg product_url product_id
     = negb (encodable campaign && encodable item && encodable product_url).
Proof.
  intros Hc Hne. cbv zeta.
  assert (Ht : truthy (EBAY_CAMPAIGN_ID cfg) = true).
  { rewrite Hc. now apply truthy_Some. }
  unfold generate_ebay_link, generate_ebay_link_raises.
  rewrite Ht, Hc. cbn [negb str_of_opt andb].
  split; [|split; [apply quote_chars|split; [|reflexivity]]].
  - cbn [urlencode]. rewrite !app_assoc. reflexivity.
  - rewrite !count_char_app, urlencode_no_query, quote_no_query. reflexivity.
Qed.

Lemma ebay_link_wellformed_witness :
  generate_ebay_link
    {| AMAZON_ASSOCIATE_TAG := None; EBAY_CAMPAIGN_ID := Some "5338452986";
       ALIEXPRESS_TRACKING_ID := None; WALMART_PUBLISHER_ID := None;
       TARGET_PUBLISHER_ID := None; BESTBUY_PUBLISHER_ID := None |}
    1700000000 "https://www.ebay.com/itm/1234567?hash=a b" None
  = "https://rover.ebay.com/rover/1/711-53200-19255-0/1?icep_ff3=2&pub=5338452986&toolid=10001&campid=5338452986&customid=&icep_item=1234567&ipn=psmain&icep_vectorid=229466&kwid=902099&mtid=824&kw=lg&srcrot=711-53200-19255-0&rvr_id=2348474186&rvr_ts=1700000000&mpre=https%3A//www.ebay.com/itm/1234567%3Fhash%3Da%20b".
Proof.
  assert (Hne : "5338452986" <> "") by discriminate.
  destruct (ebay_link_wellformed
              {| AMAZON_ASSOCIATE_TAG := None; EBAY_CAMPAIGN_ID := Some "5338452986";
                 ALIEXPRESS_TRACKING_ID := None; WALMART_PUBLISHER_ID := None;
                 TARGET_PUBLISHER_ID := None; BESTBUY_PUBLISHER_ID := None |}
              "5338452986" 1700000000 "https://www.ebay.com/itm/1234567?hash=a b" None
              eq_refl Hne) as (Hlink & _).
  rewrite Hlink. reflexivity.
Defined.

(** X2. With its publisher id configured, each of the Walmart, Target and
    Best Buy builders returns its fixed address, then
    [?veh=aff&sourceid=<id>&u=] and the product URL percent-encoded; the
    product_id plays no part. The id is inserted as it is: when it holds no
    "?" the link has exactly one. Each builder raises instead of returning
    exactly when the product URL cannot be encoded. *)
Theorem impact_links_wellformed (cfg : Config) (publisher product_url : string)
        (product_id : option string) :
  publisher <> "" ->
  (WALMART_PUBLISHER_ID cfg = Some publisher ->
   let link := generate_walmart_link cfg product_url product_id in
   link = "https://goto.walmart.com/c/2003851/565706/9383?veh=aff&sourceid="
          ++ publisher ++ "&u=" ++ quote product_url
   /\ (count_char "?" publisher = 0%nat -> count_char "?" link = 1%nat)
   /\ generate_walmart_link_raises cfg product_url = negb (encodable product_url))
  /\ (TARGET_PUBLISHER_ID cfg = Some publisher ->
      let link := generate_target_link cfg product_url product_id in
      link = "https://goto.target.com/c/2003851/81938/2092?veh=aff&sourceid="
             ++ publisher ++ "&u=" ++ quote product_url
      /\ (count_char "?" publisher = 0%nat -> count_char "?" link = 1%nat)
      /\ generate_target_link_raises cfg product_url = negb (encodable product_url))
  /\ (BESTBUY_PUBLISHER_ID cfg = Some publisher ->
      let link := generate_bestbuy_link cfg product_url product_id in
      link = "https://bestbuy.7tiv.net/c/2003851/633495/10014?veh=aff&sourceid="
             ++ publisher ++ "&u=" ++ quote product_url
      /\ (count_char "?" publisher = 0%nat -> count_char "?" link = 1%nat)
      /\ generate_bestbuy_link_raises cfg product_url = negb (encodable product_url)).
Proof.
  intros Hne. apply truthy_Some in Hne.
  split; [|split]; intros Hp; cbv zeta;
    [ unfold generate_walmart_link, generate_walmart_link_raises
    | unfold generate_target_link, generate_target_link_raises
    | unfold generate_bestbuy_link, generate_bestbuy_link_raises ];
    rewrite Hp, Hne; cbn [negb str_of_opt andb];
    (split; [reflexivity|]); (split; [|reflexivity]); intros Hq;
    rewrite !count_char_app, quote_no_query, Hq; reflexivity.
Qed.

Lemma impact_links_wellformed_witness :
  generate_walmart_link
    {| AMAZON_ASSOCIATE_TAG := None; EBAY_CAMPAIGN_ID := None;
       ALIEXPRESS_TRACKING_ID := None; WALMART_PUBLISHER_ID := Some "pub42";
       TARGET_PUBLISHER_ID := None; BESTBUY_PUBLISHER_ID := None |}
    "https://www.walmart.com/ip/123?x=1" None
  = "https://goto.walmart.com/c/2003851/565706/9383?veh=aff&sourceid=pub42&u=https%3A//www.walmart.com/ip/123%3Fx%3D1".
Proof.
  assert (Hne : "pub42" <> "") by discriminate.
  destruct (impact_links_wellformed
              {| AMAZON_ASSOCIATE_TAG := None; EBAY_CAMPAIGN_ID := None;
                 ALIEXPRESS_TRACKING_ID := None; WALMART_PUBLISHER_ID := Some "pub42";
                 TARGET_PUBLISHER_ID := None; BESTBUY_PUBLISHER_ID := None |}
              "pub42" "https://www.walmart.com/ip/123?x=1" None Hne) as (Hw & _).
  destruct (Hw eq_refl) as (Hlink & _). rewrite Hlink. reflexivity.
Defined.

(** *** Greedy groups *)

Lemma give_back_first (A : Type) (n lo : nat) (try : nat -> option A) (x : A) :
  try n = Some x -> give_back n lo try = Some x.
Proof. intros H. destruct n; simpl; now rewrite H. Qed.

Lemma length_drop (n : nat) (s : string) :
  String.length (drop n s) = (String.length s - n)%nat.
Proof.
  revert s; induction n as [|n IH]; intros [|c s]; simpl; try reflexivity.
  apply IH.
Qed.

Lemma take_consumed (n : nat) (s : string) :
  (n <= String.length s)%nat ->
  take (String.length s - String.length (drop n s)) s = take n s.
Proof. intros H. rewrite length_drop. f_equal. lia. Qed.

(** A run of class characters that [span] measures without a bound ends at
    the end of the string or before a character outside the class. *)
Lemma span_stop (cls : ascii -> bool) (s : string) :
  drop (span cls None s) s = ""
  \/ exists c t, drop (span cls None s) s = String c t /\ cls c = false.
Proof.
  induction s as [|c s IH]; simpl; [now left|].
  destruct (cls c) eqn:E; simpl; [exact IH|].
  right. now exists c, s.
Qed.

Lemma search_here (r : regex) (s : string) (m : groups) :
  match_re r s None (fun _ g => Some g) = Some m -> search r s = Some m.
Proof. intros H. rewrite search_unfold. now rewrite H. Qed.

Lemma search_skip (r : regex) (c : ascii) (s : string) :
  match_re r (String c s) None (fun _ g => Some g) = None ->
  search r (String c s) = search r s.
Proof. intros H. rewrite search_unfold. now rewrite H. Qed.

(** What [re.search] returns for a literal followed by a greedy group
    [(cls{lo,})]: the whole run of class characters after the literal. *)
Lemma greedy_group_match (p : string) (cls : ascii -> bool) (lo : nat) (s : string) :
  match_re (Seq (Lit p) (Grp (Rep cls lo None))) s None (fun _ g => Some g)
  = match strip_prefix p s with
    | Some s' =>
        if (span cls None s' <? lo)%nat then None
        else Some (Some (take (span cls None s') s'))
    | None => None
    end.
Proof.
  cbn [match_re]. destruct (strip_prefix p s) as [s'|]; [|reflexivity].
  destruct (span cls None s' <? lo)%nat; [reflexivity|].
  apply give_back_first. do 2 f_equal.
  apply take_consumed, span_le_length.
Qed.

Lemma greedy_group_search (p : string) (cls : ascii -> bool) (lo : nat)
      (s : string) (m : groups) :
  search (Seq (Lit p) (Grp (Rep cls lo None))) s = Some m ->
  exists pre rest,
    s = pre ++ p ++ rest
    /\ m = Some (take (span cls None rest) rest)
    /\ (lo <= span cls None rest)%nat.
Proof.
  assert (Hhere : forall t,
            match_re (Seq (Lit p) (Grp (Rep cls lo None))) t None (fun _ g => Some g)
            = Some m ->
            exists rest, t = p ++ rest
                         /\ m = Some (take (span cls None rest) rest)
                         /\ (lo <= span cls None rest)%nat).
  { intros t. rewrite greedy_group_match.
    destruct (strip_prefix p t) as [rest|] eqn:E; [|discriminate].
    destruct (Nat.ltb_spec (span cls None rest) lo) as [|Hlo]; [discriminate|].
    intros [= <-]. exists rest. split; [now apply strip_prefix_Some | auto]. }
  induction s as [|c s IH]; rewrite search_unfold.
  - destruct (match_re _ "" None _) as [y|] eqn:E; [|discriminate].
    intros [= <-]. destruct (Hhere _ E) as (rest & Ht & Hm & Hlo).
    exists "", rest. auto.
  - destruct (match_re _ (String c s) None _) as [y|] eqn:E.
    + intros [= <-]. destruct (Hhere _ E) as (rest & Ht & Hm & Hlo).
      exists "", rest. auto.
    + intros H. destruct (IH H) as (pre & rest & -> & Hm & Hlo).
      exists (String c pre), rest. auto.
Qed.

(** X3. The item id the eBay extractor returns is a whole number as the URL
    writes it: a non-empty run of digits of the URL that ends at the end of
    the URL or before a character that is not a digit, and that follows
    "/itm/" or "item=", or follows "/" and has at least 12 digits. *)
Theorem ebay_item_id_is_whole_number (url d : string) :
  extract_ebay_item_id url = Some d ->
  d <> ""
  /\ all_chars is_digit d = true
  /\ exists pre post,
      url = pre ++ d ++ post
      /\ (post = "" \/ exists c t, post = String c t /\ is_digit c = false)
      /\ ((exists pre', pre = pre' ++ "/itm/")
          \/ (exists pre', pre = pre' ++ "item=")
          \/ ((exists pre', pre = pre' ++ "/") /\ (12 <= String.length d)%nat)).
Proof.
  intros H. apply first_match_Some in H as (p & Hp & Hs).
  assert (Hgen : forall lit lo,
            (1 <= lo)%nat ->
            search (Seq (Lit lit) (digits_group lo)) url = Some (Some d) ->
            d <> "" /\ all_chars is_digit d = true
            /\ (lo <= String.length d)%nat
            /\ exists pre post,
                url = (pre ++ lit) ++ d ++ post
                /\ (post = "" \/ exists c t, post = String c t /\ is_digit c = false)).
  { intros lit lo Hlo Hsearch.
    apply greedy_group_search in Hsearch as (pre & rest & -> & [= ->] & Hn).
    assert (Hlen : String.length (take (span is_digit None rest) rest)
                   = span is_digit None rest).
    { apply length_take, span_le_length. }
    split; [intros E; rewrite E in Hlen; simpl in Hlen; lia|].
    split; [now apply span_all with None|].
    split; [lia|].
    exists pre, (drop (span is_digit None rest) rest).
    split; [|apply span_stop].
    now rewrite app_assoc, take_drop. }
  unfold ebay_patterns in Hp. simpl in Hp.
  destruct Hp as [<-|[<-|[<-|[]]]].
  - destruct (Hgen "/itm/" 1%nat (le_n _) Hs) as (Hne & Hd & _ & pre & post & Hu & Hpost).
    repeat split; try assumption. exists (pre ++ "/itm/"), post.
    repeat split; try assumption. left. now exists pre.
  - destruct (Hgen "item=" 1%nat (le_n _) Hs) as (Hne & Hd & _ & pre & post & Hu & Hpost).
    repeat split; try assumption. exists (pre ++ "item="), post.
    repeat split; try assumption. right. left. now exists pre.
  - destruct (Hgen "/" 12%nat ltac:(lia) Hs) as (Hne & Hd & Hlen & pre & post & Hu & Hpost).
    repeat split; try assumption. exists (pre ++ "/"), post.
    repeat split; try assumption. right. right. split; [now exists pre | exact Hlen].
Qed.

Lemma ebay_item_id_is_whole_number_witness :
  all_chars is_digit "334455667788" = true
  /\ extract_ebay_item_id "https://www.ebay.com/p/334455667788?x=1" = Some "334455667788".
Proof.
  assert (H : extract_ebay_item_id "https://www.ebay.com/p/334455667788?x=1"
              = Some "334455667788") by reflexivity.
  split; [|exact H].
  exact (proj1 (proj2 (ebay_item_id_is_whole_number _ _ H))).
Defined.

(** *** Regenerating a link *)

Lemma span_exact (cls : ascii -> bool) (a rest : string) :
  all_chars cls a = true ->
  span cls (Some (String.length a)) (a ++ rest) = String.length a.
Proof.
  induction a as [|c a IH]; simpl.
  - intros _. destruct rest as [|c t]; simpl; [reflexivity|].
    now destruct (cls c).
  - intros H. apply andb_prop in H as [Hc Ha]. rewrite Hc. f_equal. now apply IH.
Qed.

Lemma exact_group_match (p : string) (cls : ascii -> bool) (a rest : string) :
  all_chars cls a = true ->
  match_re (Seq (Lit p) (Grp (Rep cls (String.length a) (Some (String.length a)))))
           (p ++ a ++ rest) None (fun _ g => Some g)
  = Some (Some a).
Proof.
  intros Ha. cbn [match_re]. rewrite strip_prefix_app, span_exact by assumption.
  rewrite Nat.ltb_irrefl. apply give_back_first.
  now rewrite drop_app_length, captured.
Qed.

(** The canonical link yields the ASIN it was built from. *)
Lemma canonical_extract (a rest : string) :
  String.length a = 10%nat -> all_chars asin_char a = true ->
  extract_amazon_asin ("https://www.amazon.com/dp/" ++ a ++ rest) = Some a.
Proof.
  intros Hlen Ha. unfold extract_amazon_asin.
  apply first_match_first
    with (tried := []%list) (p := Seq (Lit "/dp/") asin_group)
         (rest := List.tl amazon_patterns);
    [reflexivity | intros q [] |].
  cbn [append]. repeat (rewrite search_skip by reflexivity).
  apply search_here.
  pose proof (exact_group_match "/dp/" asin_char a rest Ha) as H.
  rewrite Hlen in H. exact H.
Qed.

(** X6. With a tag configured, an Amazon link built from a URL in which an
    ASIN is found is a fixed point of the builder: the link yields the same
    ASIN again, and building a link from the link returns the link, whatever
    product id is passed. *)
Theorem amazon_link_fixed_point (cfg : Config) (tag url a : string)
        (pid pid' : option string) :
  AMAZON_ASSOCIATE_TAG cfg = Some tag -> tag <> "" ->
  extract_amazon_asin url = Some a ->
  extract_amazon_asin (generate_amazon_link cfg url pid) = Some a
  /\ generate_amazon_link cfg (generate_amazon_link cfg url pid) pid'
     = generate_amazon_link cfg url pid.
Proof.
  intros Htag Hne Ha.
  destruct (extract_amazon_asin_Some _ _ Ha) as (Hlen & Hcls & _).
  assert (Hlink : generate_amazon_link cfg url pid = amazon_canonical a tag).
  { rewrite (amazon_link_configured cfg tag url pid Htag Hne), Ha.
    unfold py_or. now rewrite !(extract_truthy _ _ Ha). }
  assert (Hext : extract_amazon_asin (amazon_canonical a tag) = Some a).
  { unfold amazon_canonical. now apply canonical_extract. }
  rewrite Hlink. split; [exact Hext|].
  rewrite (amazon_link_configured cfg tag _ pid' Htag Hne), Hext.
  unfold py_or. now rewrite !(extract_truthy _ _ Hext).
Qed.

Lemma amazon_link_fixed_point_witness :
  generate_amazon_link (repo_config (Some "deals-20"))
    (generate_amazon_link (repo_config (Some "deals-20"))
       "https://www.amazon.com/gp/product/B0CHX1W1XY/ref=x" None) (Some "42")
  = generate_amazon_link (repo_config (Some "deals-20"))
      "https://www.amazon.com/gp/product/B0CHX1W1XY/ref=x" None.
Proof.
  refine (proj2 (amazon_link_fixed_point (repo_config (Some "deals-20")) "deals-20"
                   "https://www.amazon.com/gp/product/B0CHX1W1XY/ref=x" "B0CHX1W1XY"
                   None (Some "42") _ _ _)).
  - reflexivity.
  - discriminate.
  - reflexivity.
Defined.

(** X5. With a tracking id configured, the AliExpress builder appends its
    two parameters to whatever URL it is given, so a link passed through it
    again carries them twice and is never equal to the link. *)
Theorem aliexpress_link_not_idempotent (cfg : Config) (tracking product_url : string)
        (pid pid' : option string) :
  ALIEXPRESS_TRACKING_ID cfg = Some tracking -> tracking <> "" ->
  let params := "aff_trace_key=" ++ tracking
                ++ "&terminal_id=d4c0d3b6c8a44e6b9c8f2e1a3b5d7f9e" in
  let once := generate_aliexpress_link cfg product_url pid in
  let twice := generate_aliexpress_link cfg once pid' in
  once = product_url ++ (if contains "?" product_url then "&" else "?") ++ params
  /\ twice = once ++ "&" ++ params
  /\ twice <> once
  /\ count_char "?" once = (if contains "?" product_url then 0 else 1) + count_char "?" product_url
     + count_char "?" tracking
  /\ count_char "?" twice = count_char "?" once + count_char "?" tracking.
Proof.
  intros Hid Hne params once twice.
  assert (Ht : truthy (ALIEXPRESS_TRACKING_ID cfg) = true).
  { rewrite Hid. now apply truthy_Some. }
  assert (Honce : once = product_url ++ separator product_url ++ params).
  { unfold once, generate_aliexpress_link. rewrite Ht, Hid. reflexivity. }
  assert (Htwice : twice = once ++ "&" ++ params).
  { unfold twice, generate_aliexpress_link. rewrite Ht, Hid. cbn [negb str_of_opt].
    fold params. rewrite Honce at 2. now rewrite separator_after_append. }
  split; [exact Honce|]. split; [exact Htwice|].
  split; [rewrite Htwice; now apply app_neq_self|].
  assert (Hp : count_char "?" params = count_char "?" tracking).
  { unfold params. rewrite !count_char_app. simpl. lia. }
  split.
  - rewrite Honce, !count_char_app, Hp. unfold separator.
    destruct (contains "?" product_url); simpl; lia.
  - rewrite Htwice, !count_char_app, Hp. simpl. lia.
Qed.

Lemma aliexpress_link_not_idempotent_witness :
  generate_aliexpress_link
    {| AMAZON_ASSOCIATE_TAG := None; EBAY_CAMPAIGN_ID := None;
       ALIEXPRESS_TRACKING_ID := Some "trk"; WALMART_PUBLISHER_ID := None;
       TARGET_PUBLISHER_ID := None; BESTBUY_PUBLISHER_ID := None |}
    "https://www.aliexpress.com/item/1005.html" None
  = "https://www.aliexpress.com/item/1005.html?aff_trace_key=trk&terminal_id=d4c0d3b6c8a44e6b9c8f2e1a3b5d7f9e".
Proof.
  refine (proj1 (aliexpress_link_not_idempotent
                   {| AMAZON_ASSOCIATE_TAG := None; EBAY_CAMPAIGN_ID := None;
                      ALIEXPRESS_TRACKING_ID := Some "trk"; WALMART_PUBLISHER_ID := None;
                      TARGET_PUBLISHER_ID := None; BESTBUY_PUBLISHER_ID := None |}
                   "trk" "https://www.aliexpress.com/item/1005.html" None None _ _)).
  - reflexivity.
  - discriminate.
Defined.

(** *** The two Amazon link generators *)

(** X4. [AffiliateManager] (affiliate_manager.py) and [RealAffiliateGenerator]
    search the same patterns except "/product/": whenever the first finds an
    ASIN the second finds one too, and on a URL in which the "/product/"
    pattern finds nothing both find the same, so that, with a tag configured
    and no product id, the second's link is the first's followed by
    "&linkCode=ogi&th=1&psc=1" when an ASIN is found and is the first's link
    otherwise. Where "/product/" matches, the two can disagree. *)
Theorem legacy_amazon_generator_agrees (cfg : Config) (tag url : string) :
  AMAZON_ASSOCIATE_TAG cfg = Some tag -> tag <> "" ->
  (LegacyAffiliate.extract_amazon_asin url <> None -> extract_amazon_asin url <> None)
  /\ (search (Seq (Lit "/product/") asin_group) url = None ->
      extract_amazon_asin url = LegacyAffiliate.extract_amazon_asin url
      /\ generate_amazon_link cfg url None
         = LegacyAffiliate.generate_amazon_affiliate_link cfg url
           ++ match extract_amazon_asin url with
              | Some _ => "&linkCode=ogi&th=1&psc=1"
              | None => ""
              end)
  /\ extract_amazon_asin "https://www.amazon.com/product/B0CHX1W1XY/ref?asin=B000000000"
     = Some "B0CHX1W1XY"
  /\ LegacyAffiliate.extract_amazon_asin
       "https://www.amazon.com/product/B0CHX1W1XY/ref?asin=B000000000"
     = Some "B000000000".
Proof.
  intros Htag Hne.
  assert (Hgrp : forall p m, In p amazon_patterns -> search p url = Some m -> m <> None).
  { intros p m Hp Hs. apply search_sound in Hs as (pre & suf & rest & _ & Hm).
    destruct (amazon_pattern_capture _ _ _ _ _ Hp Hm) as (_ & w & _ & _ & -> & _).
    discriminate. }
  assert (Hsame : search (Seq (Lit "/product/") asin_group) url = None ->
                  extract_amazon_asin url = LegacyAffiliate.extract_amazon_asin url).
  { intros H3. unfold extract_amazon_asin, LegacyAffiliate.extract_amazon_asin,
      amazon_patterns, LegacyAffiliate.patterns.
    cbn [first_match]. rewrite H3. reflexivity. }
  split; [|split; [|split; reflexivity]].
  - intros Hleg Hreal. apply Hleg.
    unfold LegacyAffiliate.extract_amazon_asin. apply first_match_None.
    intros p Hp. apply (first_match_None_inv _ _ Hreal Hgrp).
    unfold LegacyAffiliate.patterns in Hp. unfold amazon_patterns.
    simpl in Hp |- *. tauto.
  - intros H3. split; [now apply Hsame|].
    rewrite (amazon_link_configured cfg tag url None Htag Hne).
    unfold LegacyAffiliate.generate_amazon_affiliate_link.
    assert (Ht : truthy (AMAZON_ASSOCIATE_TAG cfg) = true).
    { rewrite Htag. now apply truthy_Some. }
    rewrite Ht, Htag, <- (Hsame H3). cbn [negb str_of_opt].
    destruct (extract_amazon_asin url) as [a|] eqn:Ha.
    + unfold py_or. rewrite !(extract_truthy _ _ Ha). cbn [str_of_opt].
      unfold amazon_canonical. now rewrite !app_assoc.
    + unfold py_or. cbn [truthy]. unfold amazon_tag_append.
      now rewrite !app_assoc, app_nil_r.
Qed.

Lemma legacy_amazon_generator_agrees_witness :
  generate_amazon_link (repo_config (Some "deals-20"))
    "https://www.amazon.com/dp/B0CHX1W1XY" None
  = LegacyAffiliate.generate_amazon_affiliate_link (repo_config (Some "deals-20"))
      "https://www.amazon.com/dp/B0CHX1W1XY"
    ++ "&linkCode=ogi&th=1&psc=1".
Proof.
  refine (proj2 (proj1 (proj2
            (legacy_amazon_generator_agrees (repo_config (Some "deals-20")) "deals-20"
               "https://www.amazon.com/dp/B0CHX1W1XY" _ _)) _)).
  - reflexivity.
  - discriminate.
  - reflexivity.
Defined.

(** *** Escaping of the store name *)

Lemma count_amp_digits (d : Decimal.uint) :
  count_char "&" (NilEmpty.string_of_uint d) = 0%nat.
Proof. induction d; simpl; auto. Qed.

Lemma count_amp_uint (d : Decimal.uint) :
  count_char "&" (NilZero.string_of_uint d) = 0%nat.
Proof.
  unfold NilZero.string_of_uint. destruct d; try apply count_amp_digits. reflexivity.
Qed.

Lemma count_amp_str_of_Z (n : Z) : count_char "&" (str_of_Z n) = 0%nat.
Proof.
  unfold str_of_Z, NilZero.string_of_int.
  destruct (Z.to_int n); [|cbn [count_char]]; now rewrite count_amp_uint.
Qed.

(** X22. The two generators differ in how the store name reaches the
    link. [AffiliateManager] puts the lowercased name (or "ebay" or
    "aliexpress") into the query as it is and never raises, so its link has
    three separators "&" more than the URL and its separator, plus one for
    every "&" of the name; [RealAffiliateGenerator]'s generic link quotes the
    name, and whenever it returns it has exactly three more. For an ASCII
    store name the lowercased name is the name with a-z for A-Z. *)
Theorem tracking_links_escaping (unicode_lower : string -> string) (cfg : Config)
        (now : Z) (url store_name : string) :
  contains "amazon" (lower unicode_lower store_name) = false ->
  let name := lower unicode_lower store_name in
  let campaign := if contains "ebay" name then "ebay"
                  else if contains "aliexpress" name then "aliexpress"
                  else name in
  let legacy :=
    LegacyAffiliate.generate_affiliate_link unicode_lower cfg now url store_name in
  let real := generate_generic_tracking_link unicode_lower url store_name in
  legacy = url ++ (if contains "?" url then "&" else "?")
           ++ "utm_source=affiliate_bot&utm_medium=telegram&utm_campaign="
           ++ campaign ++ "&ref=affiliate_bot_" ++ str_of_Z now
  /\ count_char "&" legacy
     = (count_char "&" (url ++ separator url) + 3 + count_char "&" campaign)%nat
  /\ (generate_generic_tracking_link_raises unicode_lower store_name = false ->
      count_char "&" real = (count_char "&" (url ++ separator url) + 3)%nat)
  /\ (is_ascii_text store_name = true -> name = map_chars lower_char store_name).
Proof.
  intros Hamazon. cbv zeta.
  assert (Hleg : LegacyAffiliate.generate_affiliate_link unicode_lower cfg now url
                   store_name
                 = url ++ separator url
                   ++ "utm_source=affiliate_bot&utm_medium=telegram&utm_campaign="
                   ++ (if contains "ebay" (lower unicode_lower store_name) then "ebay"
                       else if contains "aliexpress" (lower unicode_lower store_name)
                            then "aliexpress"
                            else lower unicode_lower store_name)
                   ++ "&ref=affiliate_bot_" ++ str_of_Z now).
  { unfold LegacyAffiliate.generate_affiliate_link. rewrite Hamazon.
    destruct (contains "ebay" (lower unicode_lower store_name)); [reflexivity|].
    destruct (contains "aliexpress" (lower unicode_lower store_name)); reflexivity. }
  split; [exact Hleg|]. split; [|split].
  - rewrite Hleg.
    rewrite <- (app_assoc url), !count_char_app, count_amp_str_of_Z.
    cbn [count_char Ascii.eqb Bool.eqb]. lia.
  - intros _. rewrite generic_link_eq, <- (app_assoc url), !count_char_app.
    rewrite (count_char_excluded plus_quoted_char "&" _ eq_refl (quote_plus_chars _)).
    cbn. lia.
  - apply lower_ascii.
Qed.

Lemma tracking_links_escaping_witness :
  LegacyAffiliate.generate_affiliate_link Examples.ascii_only (repo_config None)
    1700000000 "https://www2.hm.com/p/1" "H&M"
  = "https://www2.hm.com/p/1?utm_source=affiliate_bot&utm_medium=telegram&utm_campaign=h&m&ref=affiliate_bot_1700000000"
  /\ generate_generic_tracking_link Examples.ascii_only "https://www2.hm.com/p/1" "H&M"
     = "https://www2.hm.com/p/1?utm_source=telegram_bot&utm_medium=affiliate&utm_campaign=deals_bot&utm_content=h%26m".
Proof.
  split; [|reflexivity].
  refine (proj1 (tracking_links_escaping Examples.ascii_only (repo_config None)
                   1700000000 "https://www2.hm.com/p/1" "H&M" _)).
  reflexivity.
Defined.

End LinkFacts.

(** ** Fresh keys *)

Module KeyFacts.

Open Scope nat_scope.
Open Scope list_scope.

(** The key a table gives a new row, one more than the greatest in use (and
    at least 1), is the key of no row. *)
Lemma max_key_bound (ids : list Z) (x : Z) :
  In x ids -> (x <= fold_right Z.max 0%Z ids)%Z.
Proof.
  induction ids as [|y ids IH]; cbn [fold_right]; [intros []|].
  intros [->|H]; [lia|]. specialize (IH H). lia.
Qed.

Lemma next_key_fresh (ids : list Z) :
  ~ In (Z.succ (fold_right Z.max 0%Z ids)) ids.
Proof. intros H. apply max_key_bound in H. lia. Qed.

Lemma NoDup_snoc (A : Type) (l : list A) (x : A) :
  NoDup l -> ~ In x l -> NoDup (l ++ [x]).
Proof.
  intros Hl Hx. apply (Permutation_NoDup (l := x :: l)).
  - apply Permutation_cons_append.
  - now constructor.
Qed.

End KeyFacts.

(** ** price_monitor.py: what a price pass leaves behind *)

Module MonitorFacts.

Import Db Py PriceMonitor Monitoring DbFacts PriceUpdateFacts.
Import SpecFloat.
Open Scope nat_scope.
Open Scope list_scope.

(** *** Floats *)

Lemma SFeqb_irrefl_nan (x : spec_float) : SFeqb x x = false -> x = S754_nan.
Proof.
  unfold SFeqb, SFcompare.
  destruct x as [[]|[]| |[] m e]; try reflexivity; try discriminate;
    rewrite Z.compare_refl;
    change (Pos.compare_cont Eq m m) with (Pos.compare m m);
    rewrite Pos.compare_refl; discriminate.
Qed.

(** A float that differs from itself is below nothing. *)
Lemma nan_not_below (x y : float) :
  PrimFloat.eqb x x = false -> PrimFloat.ltb x y = false.
Proof.
  rewrite eqb_spec, ltb_spec. intros H. apply SFeqb_irrefl_nan in H.
  rewrite H. reflexivity.
Qed.

(** A float equal to zero is equal to itself. *)
Lemma zero_eqb_refl (x : float) :
  PrimFloat.eqb x 0 = true -> PrimFloat.eqb x x = true.
Proof.
  rewrite !eqb_spec. change (Prim2SF 0) with (S754_zero false).
  unfold SFeqb, SFcompare.
  destruct (Prim2SF x) as [[]|[]| |[] m e]; try reflexivity; discriminate.
Qed.

Section Pass.

Variable round2 : float -> float.

(** *** One product *)

(** A simulated price that differs from the current one is never a number
    below 0.99. *)
Lemma simulate_float_floor (c : float) (d : Draw) :
  PrimFloat.eqb (simulate_float round2 c d) c = false ->
  PrimFloat.ltb (simulate_float round2 c d) f0_99 = false.
Proof.
  unfold simulate_float, float_truthy.
  destruct (PrimFloat.eqb c 0) eqn:Ez; cbn [negb].
  - intros H. now rewrite (zero_eqb_refl _ Ez) in H.
  - destruct d as [|factor|factor].
    + apply nan_not_below.
    + intros _. unfold max2.
      destruct (PrimFloat.ltb (round2 (c * factor)) f0_99) eqn:E;
        [reflexivity | exact E].
    + intros _. unfold max2.
      destruct (PrimFloat.ltb (round2 (c * factor)) f0_99) eqn:E;
        [reflexivity | exact E].
Qed.

(** The two outcomes of an iteration: the product is left as it is, or its
    price, discount and date are written. *)
Lemma update_product_cases (now : datetime) (p : Product.t) (d : Draw) :
  update_product round2 now p d = (p, false, None)
  \/ exists old_price discount,
       Product.price p = Some old_price
       /\ PrimFloat.eqb (simulate_float round2 old_price d) old_price = false
       /\ fst (update_product round2 now p d)
          = (Product.set_price_update p discount
               (simulate_float round2 old_price d) now, true).
Proof.
  unfold update_product, _simulate_price_change.
  destruct (Product.price p) as [old_price|]; [|now left].
  unfold apply_price.
  destruct (PrimFloat.eqb (simulate_float round2 old_price d) old_price) eqn:E;
    cbn [negb]; [now left|].
  right. exists old_price. eexists.
  split; [reflexivity|]. split; [exact E|]. cbn [negb fst]. reflexivity.
Qed.

Lemma updated_cases (draws : nat -> Draw) (stamp : nat -> datetime) (j : nat)
      (p : Product.t) :
  (updated round2 draws stamp j p = p
   /\ snd (fst (update_product round2 (stamp j) p (draws j))) = false)
  \/ exists old_price discount,
       Product.price p = Some old_price
       /\ PrimFloat.eqb (simulate_float round2 old_price (draws j)) old_price = false
       /\ updated round2 draws stamp j p
          = Product.set_price_update p discount
              (simulate_float round2 old_price (draws j)) (stamp j).
Proof.
  unfold updated.
  destruct (update_product_cases (stamp j) p (draws j))
    as [H|(old_price & discount & Hp & Hne & H)].
  - left. now rewrite H.
  - right. exists old_price, discount. now rewrite H.
Qed.

(** *** The table *)

(** Every row of the table is either outside the batch and untouched, or the
    object the loop left for it. *)
Lemma pass_row now draws stamp table i p :
  NoDup (map Product.id table) -> nth_error table i = Some p ->
  (~ In p (stale_batch now table)
   /\ nth_error (table_after (update_product_prices round2 now draws stamp table)) i
      = Some p)
  \/ exists j,
      nth_error (stale_batch now table) j = Some p
      /\ nth_error (table_after (update_product_prices round2 now draws stamp table)) i
         = Some (updated round2 draws stamp j p).
Proof.
  intros Hnd Hi.
  destruct (in_dec Z.eq_dec (Product.id p) (map Product.id (stale_batch now table)))
    as [Hin|Hout].
  - right. apply in_map_iff in Hin as (q & Hid & Hq).
    assert (q = p) as ->.
    { apply (key_inj _ Product.id table); auto.
      - now apply stale_batch_In in Hq.
      - now apply nth_error_In in Hi. }
    apply In_nth_error in Hq as (j & Hj). exists j. split; [exact Hj|].
    now apply pass_batch.
  - left. assert (Hn : ~ In p (stale_batch now table)).
    { intros H. apply Hout. now apply in_map. }
    split; [exact Hn|]. now apply pass_other.
Qed.

Lemma pass_length now draws stamp table :
  length (table_after (update_product_prices round2 now draws stamp table))
  = length table.
Proof. apply flush_products_length. Qed.

(** A column that no iteration writes is the same in every row afterwards. *)
Lemma pass_keeps_column (B : Type) (f : Product.t -> B) now draws stamp table :
  (forall t p d, f (fst (fst (update_product round2 t p d))) = f p) ->
  NoDup (map Product.id table) ->
  map f (table_after (update_product_prices round2 now draws stamp table))
  = map f table.
Proof.
  intros Hf Hnd. apply nth_error_ext. intros i.
  rewrite !nth_error_map.
  destruct (nth_error table i) as [p|] eqn:Hi.
  - destruct (pass_row now draws stamp table i p Hnd Hi) as [[_ H]|(j & _ & H)];
      rewrite H; cbn [option_map]; [reflexivity|].
    unfold updated. now rewrite Hf.
  - assert (H : nth_error
                  (table_after (update_product_prices round2 now draws stamp table)) i
                = None).
    { apply nth_error_None. rewrite pass_length. now apply nth_error_None. }
    now rewrite H.
Qed.

Lemma count_by_column (f : Product.t -> option bool) (l l' : list Product.t) :
  map f l = map f l' ->
  length (filter (fun p => is_true (f p)) l)
  = length (filter (fun p => is_true (f p)) l').
Proof.
  revert l'. induction l as [|a l IH]; intros [|b l'] H; try discriminate;
    [reflexivity|].
  injection H as Hab Hl. cbn [filter]. rewrite Hab.
  destruct (is_true (f b)); cbn [length]; auto.
Qed.

(** X7. A price pass never stores a number below 0.99: every row of the
    products table afterwards is the row as it was, or carries a price that
    is not below 0.99 and a date. *)
Theorem pass_price_floor now draws stamp table i p :
  NoDup (map Product.id table) -> nth_error table i = Some p ->
  exists p',
    nth_error (table_after (update_product_prices round2 now draws stamp table)) i
    = Some p'
    /\ (p' = p
        \/ exists x t, Product.price p' = Some x
                       /\ PrimFloat.ltb x f0_99 = false
                       /\ Product.updated_at p' = Some t).
Proof.
  intros Hnd Hi.
  destruct (pass_row now draws stamp table i p Hnd Hi) as [[_ H]|(j & _ & H)].
  - exists p. auto.
  - exists (updated round2 draws stamp j p). split; [exact H|].
    destruct (updated_cases draws stamp j p)
      as [[Hsame _]|(old_price & discount & Hp & Hne & Hupd)]; [now left|].
    right. exists (simulate_float round2 old_price (draws j)), (stamp j).
    rewrite Hupd. cbn. repeat split. now apply simulate_float_floor.
Qed.

(** X8. A price pass writes three columns only (price, discount, date): the
    keys, titles, original prices, flags and ratings of the table are the
    same afterwards, row by row, and so are the counts the statistics
    report. *)
Theorem pass_frame now draws stamp table :
  NoDup (map Product.id table) ->
  let after := table_after (update_product_prices round2 now draws stamp table) in
  map Product.id after = map Product.id table
  /\ map Product.title after = map Product.title table
  /\ map Product.original_price after = map Product.original_price table
  /\ map Product.is_daily_deal after = map Product.is_daily_deal table
  /\ map Product.is_featured after = map Product.is_featured table
  /\ map Product.is_active after = map Product.is_active table
  /\ map Product.rating after = map Product.rating table
  /\ total_products (get_monitoring_stats after)
     = total_products (get_monitoring_stats table)
  /\ active_products (get_monitoring_stats after)
     = active_products (get_monitoring_stats table)
  /\ daily_deals_count (get_monitoring_stats after)
     = daily_deals_count (get_monitoring_stats table).
Proof.
  intros Hnd after.
  assert (Hcol : forall (B : Type) (f : Product.t -> B),
             (forall q x t, f (Product.set_price_update q x t 0%Z) = f q) ->
             (forall q x y t t', f (Product.set_price_update q x y t)
                                 = f (Product.set_price_update q x y t')) ->
             map f after = map f table).
  { intros B f Hset Hdate. apply pass_keeps_column; [|exact Hnd].
    intros t p d.
    destruct (update_product_cases t p d) as [H|(o & x & _ & _ & H)].
    - now rewrite H.
    - rewrite H. cbn [fst]. now rewrite (Hdate _ _ _ t 0%Z), Hset. }
  assert (Hid := Hcol _ Product.id (fun _ _ _ => eq_refl) (fun _ _ _ _ _ => eq_refl)).
  assert (Hdd := Hcol _ Product.is_daily_deal
                   (fun _ _ _ => eq_refl) (fun _ _ _ _ _ => eq_refl)).
  assert (Hact := Hcol _ Product.is_active
                    (fun _ _ _ => eq_refl) (fun _ _ _ _ _ => eq_refl)).
  repeat match goal with |- _ /\ _ => split end;
    try (apply Hcol; reflexivity).
  - apply pass_length.
  - cbn [get_monitoring_stats active_products].
    now apply (count_by_column Product.is_active).
  - cbn [get_monitoring_stats daily_deals_count].
    now apply (count_by_column Product.is_daily_deal).
Qed.

(** *** The queue of price drops *)

Lemma update_loop_drops draws stamp batch :
  forall i,
    length (price_drops (update_loop round2 draws stamp i batch))
    <= updated_count (update_loop round2 draws stamp i batch)
    /\ forall d,
        In d (price_drops (update_loop round2 draws stamp i batch)) ->
        exists j q,
          nth_error batch j = Some q
          /\ drop_product d = updated round2 draws stamp (i + j) q
          /\ Product.price q = Some (drop_old_price d)
          /\ Product.price (drop_product d) = Some (drop_new_price d)
          /\ PrimFloat.eqb (drop_old_price d) 0 = false
          /\ PrimFloat.ltb (drop_new_price d) (drop_old_price d * f0_9) = true
          /\ drop_discount d
             = ((drop_old_price d - drop_new_price d) / drop_old_price d * 100)%float.
Proof.
  induction batch as [|p rest IH]; intros i; cbn [update_loop].
  - split; [cbn; lia | intros d []].
  - destruct (IH (S i)) as [IHlen IHin].
    assert (Hshift : forall d,
               In d (price_drops (update_loop round2 draws stamp (S i) rest)) ->
               exists j q,
                 nth_error (p :: rest) j = Some q
                 /\ drop_product d = updated round2 draws stamp (i + j) q
                 /\ Product.price q = Some (drop_old_price d)
                 /\ Product.price (drop_product d) = Some (drop_new_price d)
                 /\ PrimFloat.eqb (drop_old_price d) 0 = false
                 /\ PrimFloat.ltb (drop_new_price d) (drop_old_price d * f0_9) = true
                 /\ drop_discount d
                    = ((drop_old_price d - drop_new_price d) / drop_old_price d * 100)%float).
    { intros d Hd. destruct (IHin d Hd) as (j & q & Hj & Hrest).
      exists (S j), q. split; [exact Hj|].
      now replace (i + S j) with (S i + j) by lia. }
    assert (Hhead : update_product round2 (stamp i) p (draws i)
                    = (updated round2 draws stamp i p,
                       snd (fst (update_product round2 (stamp i) p (draws i))),
                       snd (update_product round2 (stamp i) p (draws i)))).
    { unfold updated. now destruct (update_product _ _ _ _) as [[? ?] ?]. }
    rewrite Hhead.
    destruct (snd (update_product round2 (stamp i) p (draws i))) as [d0|] eqn:Hdrop.
    + unfold update_product, _simulate_price_change in Hdrop.
      destruct (Product.price p) as [old_price|] eqn:Hp; [|discriminate].
      assert (Hq : snd (apply_price (stamp i) p old_price
                          (simulate_float round2 old_price (draws i))) <> None)
        by (rewrite Hdrop; discriminate).
      apply price_drop_queued_iff in Hq as (Hne & Hz & Hlt).
      assert (Hch : snd (fst (update_product round2 (stamp i) p (draws i))) = true).
      { unfold update_product, _simulate_price_change, apply_price.
        rewrite Hp, Hne. reflexivity. }
      assert (Hd0 : drop_product d0 = updated round2 draws stamp i p
                    /\ drop_old_price d0 = old_price
                    /\ drop_new_price d0 = simulate_float round2 old_price (draws i)
                    /\ drop_discount d0
                       = ((old_price - simulate_float round2 old_price (draws i))
                          / old_price * 100)%float).
      { unfold updated, update_product, _simulate_price_change. rewrite Hp.
        unfold apply_price in Hdrop |- *. unfold float_truthy in Hdrop.
        rewrite Hne, Hz, Hlt in Hdrop. cbn in Hdrop. injection Hdrop as <-.
        rewrite Hne. cbn. auto. }
      destruct Hd0 as (Hd1 & Hd2 & Hd3 & Hd4).
      rewrite Hch. cbn [price_drops updated_count length].
      split; [lia|]. intros d [<-|Hd]; [|now apply Hshift].
      exists 0, p. rewrite Nat.add_0_r, Hd2, Hd3.
      repeat split; try assumption.
      rewrite Hd1. unfold updated, update_product, _simulate_price_change, apply_price.
      rewrite Hp, Hne. reflexivity.
    + cbn [price_drops updated_count]. split; [lia | exact Hshift].
Qed.

(** X9. The queue of price drops is sound: it holds at most as many
    entries as products were updated; and every entry is a product of the
    batch, as the table holds it afterwards, whose old price is the price it
    had, is not zero, and whose new price is the one stored and is below
    nine tenths of the old one. *)
Theorem price_drops_sound now draws stamp table :
  NoDup (map Product.id table) ->
  let result := update_product_prices round2 now draws stamp table in
  length (pass_drops result) <= pass_updated result
  /\ forall d, In d (pass_drops result) ->
       In (drop_product d) (table_after result)
       /\ Product.price (drop_product d) = Some (drop_new_price d)
       /\ PrimFloat.eqb (drop_old_price d) 0 = false
       /\ PrimFloat.ltb (drop_new_price d) (drop_old_price d * f0_9) = true
       /\ drop_discount d
          = ((drop_old_price d - drop_new_price d) / drop_old_price d * 100)%float
       /\ exists q, In q (stale_batch now table)
                    /\ Product.id q = Product.id (drop_product d)
                    /\ Product.price q = Some (drop_old_price d).
Proof.
  intros Hnd result.
  destruct (update_loop_drops draws stamp (stale_batch now table) 0) as [Hlen Hin].
  split; [exact Hlen|].
  intros d Hd. destruct (Hin d Hd) as (j & q & Hj & Hprod & Hold & Hnew & Hz & Hlt & Hdisc).
  cbn [Nat.add] in Hprod.
  assert (Hq : In q (stale_batch now table)) by (eapply nth_error_In; eauto).
  destruct (stale_batch_In _ _ _ Hq) as [Hqt _].
  apply In_nth_error in Hqt as (i & Hi).
  repeat split; try assumption.
  - rewrite Hprod. apply nth_error_In with (n := i).
    exact (pass_batch round2 now draws stamp table i j q Hnd Hi Hj).
  - exists q. repeat split; try assumption.
    rewrite Hprod. unfold updated. symmetry. apply update_product_id.
Qed.

(** *** Which rows the next pass sees *)

(** X10. Only a row whose price changed gets a new date. For a product of
    the batch: if it has no price, or its simulated price equals its price
    (as a draw of "no change" makes it for every price that is a number), its
    row is left as it is, so it keeps its date and passes the staleness
    filter of every later pass; if the simulated price differs, the row
    carries the new price and the reading of the clock at its iteration, and
    no pass whose cutoff (its time minus two hours) is not after that reading
    selects it. *)
Theorem pass_refreshes_only_changed_rows now draws stamp table i j p :
  NoDup (map Product.id table) ->
  nth_error table i = Some p ->
  nth_error (stale_batch now table) j = Some p ->
  exists p',
    nth_error (table_after (update_product_prices round2 now draws stamp table)) i
    = Some p'
    /\ match Product.price p with
       | None => p' = p
       | Some old_price =>
           let new_price := simulate_float round2 old_price (draws j) in
           if PrimFloat.eqb new_price old_price then p' = p
           else
             Product.price p' = Some new_price
             /\ Product.updated_at p' = Some (stamp j)
             /\ forall now', (now' - hours_2 <= stamp j)%Z ->
                  ~ In p' (stale_batch now'
                             (table_after
                                (update_product_prices round2 now draws stamp table)))
       end
    /\ (forall old_price,
          Product.price p = Some old_price -> draws j = NoChange ->
          PrimFloat.eqb old_price old_price = true -> p' = p)
    /\ (p' = p ->
        Product.updated_at p' = Product.updated_at p
        /\ forall now', (now <= now')%Z -> stale (now' - hours_2)%Z p' = true).
Proof.
  intros Hnd Hi Hj.
  exists (updated round2 draws stamp j p).
  split; [now apply pass_batch|].
  assert (Hcases :
    match Product.price p with
    | None => updated round2 draws stamp j p = p
    | Some old_price =>
        if PrimFloat.eqb (simulate_float round2 old_price (draws j)) old_price
        then updated round2 draws stamp j p = p
        else Product.price (updated round2 draws stamp j p)
             = Some (simulate_float round2 old_price (draws j))
             /\ Product.updated_at (updated round2 draws stamp j p) = Some (stamp j)
    end).
  { unfold updated, update_product, _simulate_price_change.
    destruct (Product.price p) as [old_price|]; [|reflexivity].
    unfold apply_price.
    destruct (PrimFloat.eqb (simulate_float round2 old_price (draws j)) old_price);
      cbn [negb fst]; [reflexivity | split; reflexivity]. }
  split; [|split].
  - destruct (Product.price p) as [old_price|]; [|exact Hcases]. cbv zeta.
    destruct (PrimFloat.eqb (simulate_float round2 old_price (draws j)) old_price);
      [exact Hcases|].
    destruct Hcases as [Hprice Hdate]. split; [exact Hprice|]. split; [exact Hdate|].
    intros now' Hle Hin. apply stale_batch_In in Hin as [_ Hst].
    apply stale_true_iff in Hst as (_ & t & Ht & Hlt).
    rewrite Hdate in Ht. injection Ht as <-. lia.
  - intros old_price Hp Hdraw Hrefl. rewrite Hp in Hcases.
    assert (Hsim : simulate_float round2 old_price (draws j) = old_price).
    { unfold simulate_float. rewrite Hdraw. now destruct (negb (float_truthy old_price)). }
    rewrite Hsim, Hrefl in Hcases. exact Hcases.
  - intros Hsame. rewrite Hsame. split; [reflexivity|].
    intros now' Hle.
    apply nth_error_In, stale_batch_In in Hj as [_ Hst].
    apply stale_true_iff in Hst as (Hact & t & Ht & Hlt).
    apply stale_true_iff. split; [exact Hact|]. exists t. split; [exact Ht | lia].
Qed.

End Pass.

Lemma pass_price_floor_witness :
  exists p',
    nth_error
      (table_after
         (update_product_prices (fun x => x) Examples.three_hours
            (fun _ => BigChange 0.5%float) (fun _ => Examples.three_hours)
            [Examples.product 1 (Some 1%float) None None false 0%Z])) 0
    = Some p'
    /\ Product.price p' = Some f0_99.
Proof.
  destruct (pass_price_floor (fun x => x) Examples.three_hours
              (fun _ => BigChange 0.5%float) (fun _ => Examples.three_hours)
              [Examples.product 1 (Some 1%float) None None false 0%Z] 0
              (Examples.product 1 (Some 1%float) None None false 0%Z))
    as (p' & Hp' & _).
  - repeat constructor. intros [].
  - reflexivity.
  - exists p'. split; [exact Hp'|].
    vm_compute in Hp'. injection Hp' as <-. reflexivity.
Defined.

Lemma pass_frame_witness :
  map Product.title
    (table_after
       (update_product_prices (fun x => x) Examples.three_hours
          (fun _ => BigChange 0.5%float) (fun _ => Examples.three_hours)
          [Examples.product 1 (Some 10%float) None None false 0%Z]))
  = ["Sample product"%string].
Proof.
  refine (proj1 (proj2
            (pass_frame (fun x => x) Examples.three_hours
               (fun _ => BigChange 0.5%float) (fun _ => Examples.three_hours)
               [Examples.product 1 (Some 10%float) None None false 0%Z] _))).
  repeat constructor. intros [].
Defined.

Lemma price_drops_sound_witness :
  let result :=
    update_product_prices (fun x => x) Examples.three_hours
      (fun _ => BigChange 0.5%float) (fun _ => Examples.three_hours)
      [Examples.product 1 (Some 100%float) None None false 0%Z] in
  length (pass_drops result) = 1 /\ length (pass_drops result) <= pass_updated result.
Proof.
  split; [reflexivity|].
  refine (proj1 (price_drops_sound (fun x => x) Examples.three_hours
                   (fun _ => BigChange 0.5%float) (fun _ => Examples.three_hours)
                   [Examples.product 1 (Some 100%float) None None false 0%Z] _)).
  repeat constructor. intros [].
Defined.

Lemma pass_refreshes_only_changed_rows_witness :
  exists p',
    nth_error
      (table_after
         (update_product_prices (fun x => x) Examples.three_hours
            (fun _ => NoChange) (fun _ => Examples.three_hours)
            [Examples.product 1 (Some 100%float) None None false 0%Z])) 0
    = Some p'
    /\ p' = Examples.product 1 (Some 100%float) None None false 0%Z
    /\ Product.updated_at p' = Some 0%Z.
Proof.
  destruct (pass_refreshes_only_changed_rows (fun x => x) Examples.three_hours
              (fun _ => NoChange) (fun _ => Examples.three_hours)
              [Examples.product 1 (Some 100%float) None None false 0%Z] 0 0
              (Examples.product 1 (Some 100%float) None None false 0%Z))
    as (p' & Hp' & _ & Hkeep & Hdate).
  - repeat constructor. intros [].
  - reflexivity.
  - vm_compute. reflexivity.
  - exists p'. split; [exact Hp'|].
    assert (Hsame : p' = Examples.product 1 (Some 100%float) None None false 0%Z)
      by (apply (Hkeep 100%float); reflexivity).
    split; [exact Hsame|]. rewrite (proj1 (Hdate Hsame)). reflexivity.
Defined.

(** *** get_monitoring_stats *)

Lemma latest_update_None (rows : list Product.t) :
  latest_update rows = None <-> forall p, In p rows -> Product.updated_at p = None.
Proof.
  induction rows as [|q rows IH]; cbn [latest_update].
  - split; [intros _ p [] | reflexivity].
  - destruct (Product.updated_at q) as [t|] eqn:Hq.
    + split.
      * destruct (latest_update rows); discriminate.
      * intros H. specialize (H q (or_introl eq_refl)). congruence.
    + rewrite IH. split.
      * intros H p [<-|Hp]; auto.
      * intros H p Hp. apply H. now right.
Qed.

Lemma latest_update_Some (rows : list Product.t) (t : datetime) :
  latest_update rows = Some t ->
  (exists p, In p rows /\ Product.updated_at p = Some t)
  /\ forall p t', In p rows -> Product.updated_at p = Some t' -> (t' <= t)%Z.
Proof.
  revert t. induction rows as [|q rows IH]; cbn [latest_update]; intros t;
    [discriminate|].
  destruct (Product.updated_at q) as [tq|] eqn:Hq.
  - destruct (latest_update rows) as [tr|] eqn:Hr.
    + intros [= <-]. destruct (IH tr eq_refl) as [(p & Hp & Ht) Hmax]. split.
      * destruct (Z.max_spec tq tr) as [[_ ->]|[_ ->]].
        -- exists p. split; [now right | exact Ht].
        -- exists q. split; [now left | exact Hq].
      * intros p' t' [<-|Hp'] Ht'.
        -- assert (t' = tq) by congruence. lia.
        -- specialize (Hmax p' t' Hp' Ht'). lia.
    + intros [= <-]. split.
      * exists q. split; [now left | exact Hq].
      * intros p' t' [<-|Hp'] Ht'.
        -- assert (t' = tq) by congruence. lia.
        -- apply latest_update_None with (p := p') in Hr; [congruence | exact Hp'].
  - intros Ht. destruct (IH t Ht) as [(p & Hp & Hpt) Hmax]. split.
    + exists p. split; [now right | exact Hpt].
    + intros p' t' [<-|Hp'] Ht'; [congruence | now apply Hmax with p'].
Qed.

(** X11. The statistics are consistent: neither the active products nor the
    daily deals outnumber the products, and the last update reported is the
    greatest date any product carries (none is reported exactly when no
    product carries a date). *)
Theorem monitoring_stats_sound (table : list Product.t) :
  let s := get_monitoring_stats table in
  total_products s = length table
  /\ active_products s <= total_products s
  /\ daily_deals_count s <= total_products s
  /\ (last_update s = None <-> forall p, In p table -> Product.updated_at p = None)
  /\ forall t, last_update s = Some t ->
       (exists p, In p table /\ Product.updated_at p = Some t)
       /\ forall p t', In p table -> Product.updated_at p = Some t' -> (t' <= t)%Z.
Proof.
  cbn. split; [reflexivity|]. split; [apply filter_length_le|].
  split; [apply filter_length_le|].
  split; [apply latest_update_None | apply latest_update_Some].
Qed.

(** *** The statistics after a refresh of the daily deals *)

Import PyFacts DailyDealsFacts.

Lemma mark_In stamp deals :
  forall i o, In o (mark_daily_deals stamp i deals) ->
              exists d t, In d deals /\ o = Product.set_daily_deal d true t.
Proof.
  induction deals as [|d deals IH]; intros i o; cbn [mark_daily_deals]; [intros []|].
  intros [<-|H].
  - exists d, (stamp i). split; [now left | reflexivity].
  - destruct (IH _ _ H) as (d' & t & Hd' & ->). exists d', t. split; [now right | reflexivity].
Qed.

Section Refresh.

Variables (now : datetime) (stamp : nat -> datetime) (r_num : nat) (rand : nat -> nat).
Variable table : list Product.t.
Hypothesis table_keys : NoDup (map Product.id table).

(** The result of the refresh. *)
Variable r : DealsResult.
Hypothesis r_def : r = refresh_daily_deals now stamp r_num rand table.

Lemma refresh_table :
  deals_table r
  = flush_products (mark_daily_deals stamp 0 (daily_deals r)) (deals_cleared r)
  /\ deals_cleared r = clear_daily_deals now table
  /\ deals_candidates r = candidates (deals_cleared r)
  /\ daily_deals r
     = sample rand (deals_candidates r)
         (Nat.min (num_deals r) (length (deals_candidates r)))
  /\ num_deals r = randint r_num 8 12.
Proof. rewrite r_def. repeat split. Qed.

Lemma refresh_cleared_keys : NoDup (map Product.id (deals_cleared r)).
Proof.
  destruct refresh_table as (_ & -> & _). now rewrite clear_ids.
Qed.

Lemma refresh_deals :
  length (daily_deals r) = Nat.min (num_deals r) (length (deals_candidates r))
  /\ (forall d, In d (daily_deals r) ->
        In d (deals_cleared r) /\ is_candidate d = true)
  /\ NoDup (map Product.id (daily_deals r)).
Proof.
  destruct refresh_table as (_ & _ & Hc & Hd & _).
  assert (Hk : NoDup (map Product.id (deals_candidates r))).
  { rewrite Hc. apply candidates_NoDup, refresh_cleared_keys. }
  destruct (sample_sub rand (deals_candidates r)
              (Nat.min (num_deals r) (length (deals_candidates r)))
              (Nat.le_min_r _ _) Hk)
    as (Hlen & Hsub & Hnd & _).
  rewrite <- Hd in Hlen, Hsub, Hnd.
  split; [exact Hlen|]. split; [|exact Hnd].
  intros d Hd'. apply (candidates_In (deals_cleared r)). rewrite <- Hc. now apply Hsub.
Qed.

(** Every row after the refresh is a row of the cleared table, under the
    same key and as active as it was. *)
Lemma refresh_row (q : Product.t) :
  In q (deals_table r) ->
  exists row, In row (deals_cleared r)
              /\ Product.id q = Product.id row
              /\ Product.is_active q = Product.is_active row.
Proof.
  destruct refresh_table as (-> & _). unfold flush_products.
  intros Hq. apply in_map_iff in Hq as (row & <- & Hrow). exists row.
  split; [exact Hrow|].
  destruct (find_product (Product.id row) _) as [o|] eqn:Hfind; [|auto].
  apply (find_key_Some _ Product.id) in Hfind as [Ho Hid].
  apply mark_In in Ho as (d & t & Hd & ->). cbn in Hid |- *.
  destruct refresh_deals as (_ & Hsub & _).
  assert (d = row) as ->; [|auto].
  apply (key_inj _ Product.id (deals_cleared r)); auto using refresh_cleared_keys.
  now apply Hsub.
Qed.

Lemma refresh_flagged (q : Product.t) :
  In q (deals_table r) ->
  (Product.is_daily_deal q = Some true
   <-> In (Product.id q) (map Product.id (daily_deals r))).
Proof.
  destruct refresh_table as (Ht & Hc & _). rewrite Ht. intros Hq.
  apply (flush_marked_flag stamp (daily_deals r) (deals_cleared r) q); [|exact Hq].
  intros p Hp. rewrite Hc in Hp. now apply (clear_unflagged now table).
Qed.

Lemma refresh_keys : map Product.id (deals_table r) = map Product.id (deals_cleared r).
Proof. destruct refresh_table as (-> & _). apply flush_ids. Qed.

Lemma is_true_iff (b : option bool) : is_true b = true <-> b = Some true.
Proof. destruct b as [[]|]; cbn; split; congruence. Qed.

(** The rows flagged after the refresh are as many as the deals selected. *)
Lemma refresh_flag_count :
  length (filter (fun p => is_true (Product.is_daily_deal p)) (deals_table r))
  = length (daily_deals r).
Proof.
  destruct refresh_deals as (_ & Hsub & Hndd).
  rewrite <- (length_map Product.id), <- (length_map Product.id (daily_deals r)).
  apply Permutation_length, NoDup_Permutation; [|exact Hndd|].
  - apply NoDup_key_filter. rewrite refresh_keys. apply refresh_cleared_keys.
  - intros x. split.
    + intros Hx. apply in_map_iff in Hx as (q & <- & Hq).
      apply filter_In in Hq as [Hq Hf]. apply refresh_flagged; [exact Hq|].
      now apply is_true_iff.
    + intros Hx.
      assert (Hxt : In x (map Product.id (deals_table r))).
      { rewrite refresh_keys. apply in_map_iff in Hx as (d & <- & Hd).
        apply in_map. now apply Hsub. }
      apply in_map_iff in Hxt as (q & <- & Hq).
      apply in_map. apply filter_In. split; [exact Hq|].
      apply is_true_iff. now apply refresh_flagged.
Qed.

(** A row flagged after the refresh is active. *)
Lemma refresh_flagged_active (q : Product.t) :
  In q (deals_table r) -> Product.is_daily_deal q = Some true ->
  Product.is_active q = Some true.
Proof.
  intros Hq Hflag. destruct refresh_deals as (_ & Hsub & _).
  apply refresh_flagged in Hflag; [|exact Hq].
  apply in_map_iff in Hflag as (d & Hid & Hd).
  destruct (Hsub d Hd) as [Hdc Hcand].
  destruct (refresh_row q Hq) as (row & Hrow & Hqid & Hact).
  assert (d = row) as ->.
  { apply (key_inj _ Product.id (deals_cleared r)); auto using refresh_cleared_keys.
    congruence. }
  rewrite Hact. now apply is_candidate_true in Hcand.
Qed.

Lemma refresh_active_column :
  map Product.is_active (deals_table r) = map Product.is_active table.
Proof.
  destruct refresh_table as (Ht & Hc & _).
  rewrite Ht. unfold flush_products. rewrite Hc at 1. unfold clear_daily_deals.
  rewrite !map_map. apply map_ext_in. intros p Hp.
  set (row := if is_true (Product.is_daily_deal p)
              then Product.set_daily_deal p false now else p).
  assert (Hrow : In row (deals_cleared r)).
  { rewrite Hc. unfold clear_daily_deals. apply in_map_iff. now exists p. }
  assert (Hact : Product.is_active row = Product.is_active p).
  { unfold row. now destruct (is_true (Product.is_daily_deal p)). }
  assert (Hq : In (match find_product (Product.id row)
                           (mark_daily_deals stamp 0 (daily_deals r)) with
                   | Some o => o
                   | None => row
                   end) (deals_table r)).
  { rewrite Ht. unfold flush_products. apply in_map_iff. now exists row. }
  destruct (refresh_row _ Hq) as (row' & Hrow' & Hid & Hact').
  assert (Hsame : Product.id row' = Product.id row).
  { rewrite <- Hid.
    destruct (find_product (Product.id row) _) as [o|] eqn:Hfind; [|reflexivity].
    now apply (find_key_Some _ Product.id) in Hfind as [_ Hoid]. }
  assert (row' = row) as ->.
  { apply (key_inj _ Product.id (deals_cleared r)); auto using refresh_cleared_keys. }
  now rewrite <- Hact.
Qed.

End Refresh.

(** X12. After a refresh, the number of daily deals the statistics report
    is the number of products the refresh selected, at most 12; the number
    of products and of active products is what it was. *)
Theorem stats_after_refresh now stamp r_num rand table :
  NoDup (map Product.id table) ->
  let r := refresh_daily_deals now stamp r_num rand table in
  let s := get_monitoring_stats (deals_table r) in
  daily_deals_count s = length (daily_deals r)
  /\ daily_deals_count s <= 12
  /\ total_products s = length table
  /\ active_products s = active_products (get_monitoring_stats table).
Proof.
  intros Hnd. cbv zeta.
  set (r := refresh_daily_deals now stamp r_num rand table).
  assert (Hr : r = refresh_daily_deals now stamp r_num rand table) by reflexivity.
  clearbody r.
  assert (Hcount : daily_deals_count (get_monitoring_stats (deals_table r))
                   = length (daily_deals r))
    by exact (refresh_flag_count now stamp r_num rand table Hnd r Hr).
  split; [exact Hcount|]. split; [|split].
  - rewrite Hcount.
    destruct (refresh_deals now stamp r_num rand table Hnd r Hr) as (Hlen & _).
    destruct (refresh_table now stamp r_num rand table r Hr) as (_ & _ & _ & _ & Hn).
    rewrite Hlen, Hn.
    pose proof (randint_range r_num 8 12 ltac:(lia)). lia.
  - cbn [get_monitoring_stats total_products].
    rewrite <- (length_map Product.id), (refresh_keys now stamp r_num rand table r Hr).
    destruct (refresh_table now stamp r_num rand table r Hr) as (_ & -> & _).
    now rewrite clear_ids, length_map.
  - cbn [get_monitoring_stats active_products].
    apply (count_by_column Product.is_active).
    exact (refresh_active_column now stamp r_num rand table Hnd r Hr).
Qed.

Lemma stats_after_refresh_witness :
  let table := [Examples.product 1 (Some 80%float) (Some 100%float) (Some 20%float)
                  false 0%Z;
                Examples.product 2 (Some 95%float) (Some 100%float) (Some 5%float)
                  true 0%Z] in
  let r := refresh_daily_deals Examples.three_hours (fun _ => Examples.three_hours)
             3 (fun _ => 7) table in
  length (daily_deals r) = 1
  /\ daily_deals_count (get_monitoring_stats (deals_table r)) = length (daily_deals r).
Proof.
  split; [reflexivity|].
  refine (proj1 (stats_after_refresh Examples.three_hours (fun _ => Examples.three_hours)
                   3 (fun _ => 7) _ _)).
  repeat constructor; cbn; intuition discriminate.
Defined.

(** *** Retention sweeps *)

Lemma sweep_twice (t1 t2 : datetime) (l : list ClickTracking.t) :
  let old := fun t c => before (ClickTracking.clicked_at c) t in
  filter (fun c => negb (old t2 c)) (filter (fun c => negb (old t1 c)) l)
  = filter (fun c => negb (old (Z.max t1 t2) c)) l
  /\ length (filter (old t1) l)
     + length (filter (old t2) (filter (fun c => negb (old t1 c)) l))
     = length (filter (old (Z.max t1 t2)) l).
Proof.
  intros old. induction l as [|c l [IH1 IH2]]; [split; reflexivity|].
  assert (Hc : old (Z.max t1 t2) c = old t1 c || old t2 c).
  { unfold old, before. destruct (ClickTracking.clicked_at c) as [t|]; [|reflexivity].
    destruct (Z.ltb_spec t (Z.max t1 t2)), (Z.ltb_spec t t1), (Z.ltb_spec t t2);
      cbn; try reflexivity; lia. }
  cbn [filter]. rewrite Hc.
  destruct (old t1 c) eqn:E1; cbn [negb orb filter length].
  - split; [exact IH1 | lia].
  - destruct (old t2 c) eqn:E2; cbn [negb filter length].
    + split; [exact IH1 | lia].
    + split; [now rewrite IH1 | exact IH2].
Qed.

(** X13. Retention sweeps compose: a sweep followed by another leaves the
    database, and deletes in total the number of rows, of one sweep at the
    later of the two times; a sweep that is not later than the one before it
    deletes nothing. *)
Theorem cleanup_sweeps_compose (now1 now2 : datetime) (db : Database) :
  let a := cleanup_old_data now1 db in
  let b := cleanup_old_data now2 (fst a) in
  fst b = fst (cleanup_old_data (Z.max now1 now2) db)
  /\ snd a + snd b = snd (cleanup_old_data (Z.max now1 now2) db)
  /\ ((now2 <= now1)%Z -> fst b = fst a /\ snd b = 0).
Proof.
  intros a b.
  destruct (sweep_twice (now1 - days_90)%Z (now2 - days_90)%Z (click_tracking db))
    as [H1 H2].
  rewrite Z.sub_max_distr_r in H1, H2.
  assert (Hfst : fst b = fst (cleanup_old_data (Z.max now1 now2) db)).
  { unfold b, a, cleanup_old_data. cbn [fst products users click_tracking].
    now rewrite H1. }
  assert (Hsnd : snd a + snd b = snd (cleanup_old_data (Z.max now1 now2) db)).
  { unfold b, a, cleanup_old_data. cbn [fst snd products users click_tracking].
    exact H2. }
  split; [exact Hfst|]. split; [exact Hsnd|].
  intros Hle. rewrite Z.max_l in Hfst, Hsnd by lia.
  split; [exact Hfst|]. fold a in Hsnd. lia.
Qed.

End MonitorFacts.

(** ** bot_handlers.py: clicks and the retention sweep *)

Module ClickFacts.

Import Db PriceMonitor Clicks DbFacts KeyFacts.
Open Scope nat_scope.
Open Scope list_scope.

Lemma next_click_id_fresh (clicks : list ClickTracking.t) :
  ~ In (next_click_id clicks) (map ClickTracking.id clicks).
Proof. apply next_key_fresh. Qed.

(** X14. A click by a registered user, with a telegram id, user key and
    product id that SQLite can store, is recorded as one new row, under a key
    no other click has, for that user and product and at the reading of the
    clock; products and users are untouched and the call does not raise. The
    row survives every retention sweep up to 90 days after the click and is
    removed by every later one. With a product id SQLite cannot store, the
    call raises and no row is added. *)
Theorem click_recorded_then_swept (now : datetime) (telegram_user_id product_id : Z)
        (db : Database) (user : User.t) :
  sqlite_integer telegram_user_id = true ->
  find (fun u => User.telegram_id u =? telegram_user_id)%Z (users db) = Some user ->
  sqlite_integer (User.id user) = true ->
  (sqlite_integer product_id = false ->
   track_click now telegram_user_id product_id db = (db, true))
  /\ (sqlite_integer product_id = true ->
      let db' := fst (track_click now telegram_user_id product_id db) in
      snd (track_click now telegram_user_id product_id db) = false
      /\ exists c,
          click_tracking db' = click_tracking db ++ [c]
          /\ products db' = products db
          /\ users db' = users db
          /\ ClickTracking.user_id c = Some (User.id user)
          /\ ClickTracking.product_id c = Some product_id
          /\ ClickTracking.clicked_at c = Some now
          /\ ~ In (ClickTracking.id c) (map ClickTracking.id (click_tracking db))
          /\ (forall now', (now' - days_90 <= now)%Z ->
                In c (click_tracking (fst (cleanup_old_data now' db'))))
          /\ (forall now', (now < now' - days_90)%Z ->
                ~ In c (click_tracking (fst (cleanup_old_data now' db'))))).
Proof.
  intros Htid Hfind Huid. unfold track_click. rewrite Htid, Hfind, Huid.
  cbn [negb andb]. split; intros Hpid; rewrite Hpid; cbn [negb]; [reflexivity|].
  cbv zeta. cbn [fst snd]. split; [reflexivity|].
  eexists. split; [reflexivity|].
  cbn [products users click_tracking ClickTracking.user_id ClickTracking.product_id
       ClickTracking.clicked_at ClickTracking.id].
  repeat (split; [reflexivity|]).
  split; [apply next_click_id_fresh|].
  split; intros now' Hnow'; unfold cleanup_old_data; cbn [fst click_tracking].
  - rewrite filter_app. apply in_or_app. right.
    cbn [filter ClickTracking.clicked_at before].
    destruct (Z.ltb_spec now (now' - days_90)); [lia|]. now left.
  - intros Hin. apply filter_In in Hin as [_ Hkeep].
    cbn [ClickTracking.clicked_at before] in Hkeep.
    destruct (Z.ltb_spec now (now' - days_90)); [discriminate | lia].
Qed.

Lemma click_recorded_then_swept_witness :
  (exists c,
      click_tracking (fst (track_click 5%Z 1001%Z 7%Z
                             (Examples.sample_db [Examples.user 1 1001 true])))
      = [c]
      /\ ClickTracking.user_id c = Some 1%Z)
  /\ track_click 5%Z 1001%Z (2 ^ 63)%Z (Examples.sample_db [Examples.user 1 1001 true])
     = (Examples.sample_db [Examples.user 1 1001 true], true).
Proof.
  destruct (click_recorded_then_swept 5%Z 1001%Z 7%Z
              (Examples.sample_db [Examples.user 1 1001 true])
              (Examples.user 1 1001 true) eq_refl eq_refl eq_refl)
    as (_ & Hok).
  destruct (Hok eq_refl) as (_ & c & Hc & _ & _ & Hu & _).
  split; [exists c; split; [exact Hc | exact Hu]|].
  exact (proj1 (click_recorded_then_swept 5%Z 1001%Z (2 ^ 63)%Z
                  (Examples.sample_db [Examples.user 1 1001 true])
                  (Examples.user 1 1001 true) eq_refl eq_refl eq_refl) eq_refl).
Defined.

End ClickFacts.

(** ** notifications.py and price_monitor.py: who is contacted *)

Module DeliveryFacts.

Import Db PyStr Py PriceMonitor Notifications Monitoring.
Import DbFacts PyFacts DailyDealsFacts NotificationFacts MonitorFacts.
Open Scope nat_scope.
Open Scope list_scope.

Section Unicode.

Variable unicode_lower : string -> string.

(** *** Price-drop alerts *)

(** X15. Handing price drops to the notifier contacts nobody: every alert
    ends in the query for users with notifications enabled, which names a
    column [User] does not have; each drop leaves one error line in the log,
    no message is attempted and the users table is as it was. *)
Theorem price_drop_handover_contacts_nobody (sends : nat -> nat -> Z -> SendResult)
        (k : nat) (price_drops : list PriceDrop) (db : Database) :
  let h := _notify_price_drops unicode_lower sends k price_drops db in
  ho_attempts h = []
  /\ ho_users h = users db
  /\ ho_log h = repeat ErrorPriceDropAlert (length price_drops).
Proof.
  cbv zeta. revert k db.
  induction price_drops as [|d rest IH]; intros k db; cbn [_notify_price_drops].
  - repeat split.
  - rewrite price_drop_alert_never_sends.
    cbn [users_after log attempts ho_attempts ho_users ho_log].
    destruct (IH (S k) {| products := products db; users := users db;
                          click_tracking := click_tracking db |})
      as (Ha & Hu & Hl).
    rewrite Ha, Hu, Hl. repeat split.
Qed.

(** *** The daily pass *)

Section Transport.

Variable send : nat -> Z -> SendResult.

Lemma daily_loop_table_map recipients i st :
  ls_table (daily_loop unicode_lower send i recipients st)
  = map (settle unicode_lower send i recipients) (ls_table st).
Proof.
  apply nth_error_ext. intros k. now rewrite daily_loop_table, nth_error_map.
Qed.

Lemma daily_pass_shape (db : Database) :
  todays_deals (products db) <> [] ->
  attempts (send_daily_deals_notification unicode_lower send db)
  = map User.telegram_id (filter (fun u => is_true (User.is_active u)) (users db))
  /\ users_after (send_daily_deals_notification unicode_lower send db)
     = map (settle unicode_lower send 0 (filter (fun u => is_true (User.is_active u)) (users db))) (users db).
Proof.
  intros Hdeals. unfold send_daily_deals_notification.
  destruct (todays_deals (products db)); [congruence|].
  rewrite filter_by_is_active. cbn [attempts users_after].
  rewrite daily_loop_attempts, daily_loop_table_map. now cbn.
Qed.

Lemma daily_pass_idle (db : Database) :
  todays_deals (products db) = [] ->
  send_daily_deals_notification unicode_lower send db
  = {| users_after := users db; log := [InfoNoDailyDeals];
       attempts := []; raised := false |}.
Proof. intros H. unfold send_daily_deals_notification. now rewrite H. Qed.

(** A row after the loop is the row before it, or a recipient deactivated. *)
Lemma settle_cases recipients :
  forall i row,
    settle unicode_lower send i recipients row = row
    \/ exists u, In u recipients /\ settle unicode_lower send i recipients row = User.set_is_active u false.
Proof.
  induction recipients as [|u rest IH]; intros i row; cbn [settle]; [now left|].
  match goal with
  | |- context [settle unicode_lower send (S i) rest ?x] => set (row' := x)
  end.
  assert (Hrow' : row' = row \/ row' = User.set_is_active u false).
  { unfold row'. destruct (send i (User.telegram_id u)) as [|e]; [now left|].
    destruct (bot_was_blocked unicode_lower e && (User.id row =? User.id u)%Z); auto. }
  destruct (IH (S i) row') as [H|(v & Hv & H)].
  - rewrite H. destruct Hrow' as [->| ->]; [now left|].
    right. exists u. split; [now left | reflexivity].
  - right. exists v. split; [now right | exact H].
Qed.

(** A row that is active after the pass is a row of the table before it,
    which the pass left alone. *)
Lemma active_after (users : list User.t) recipients i (row' : User.t) :
  In row' (map (settle unicode_lower send i recipients) users) -> is_true (User.is_active row') = true ->
  In row' users /\ settle unicode_lower send i recipients row' = row'.
Proof.
  intros Hin Hact. apply in_map_iff in Hin as (row & Hrow' & Hrow).
  destruct (settle_cases recipients i row) as [H|(u & _ & H)].
  - rewrite H in Hrow'. subst row'. auto.
  - rewrite H in Hrow'. subst row'. discriminate Hact.
Qed.

End Transport.

(** X16. A user who blocked the bot is not contacted again. When a daily
    pass fails to deliver to a recipient with a message containing "bot was
    blocked", the next daily pass over the resulting users table (whatever
    the transport does then) does not attempt that user; and the second pass
    attempts no one the first did not. *)
Theorem blocked_user_not_contacted_again (send1 send2 : nat -> Z -> SendResult)
        (db : Database) (i : nat) (u : User.t) (e : string) :
  todays_deals (products db) <> [] ->
  NoDup (map User.id (users db)) ->
  NoDup (map User.telegram_id (users db)) ->
  nth_error (filter (fun u => is_true (User.is_active u)) (users db)) i = Some u ->
  send1 i (User.telegram_id u) = TelegramError e ->
  bot_was_blocked unicode_lower e = true ->
  let r1 := send_daily_deals_notification unicode_lower send1 db in
  let db' := {| products := products db; users := users_after r1;
                click_tracking := click_tracking db |} in
  let r2 := send_daily_deals_notification unicode_lower send2 db' in
  In (User.telegram_id u) (attempts r1)
  /\ ~ In (User.telegram_id u) (attempts r2)
  /\ incl (attempts r2) (attempts r1).
Proof.
  intros Hdeals Hnd Hndt Hi He Hb. cbv zeta.
  destruct (daily_pass_shape send1 db Hdeals) as [Ha1 Hu1].
  set (r1 := send_daily_deals_notification unicode_lower send1 db) in *.
  set (db' := {| products := products db; users := users_after r1;
                 click_tracking := click_tracking db |}).
  destruct (daily_pass_shape send2 db' Hdeals) as [Ha2 _].
  cbn [db' users] in Ha2. rewrite Ha1, Ha2, Hu1.
  set (recipients := filter (fun u => is_true (User.is_active u)) (users db)) in *.
  assert (Hur : In u recipients) by (eapply nth_error_In; eauto).
  assert (Huu : In u (users db)) by (apply filter_In in Hur; tauto).
  assert (Hkeep : forall row',
             In row' (filter (fun u => is_true (User.is_active u)) (map (settle unicode_lower send1 0 recipients) (users db))) ->
             In row' recipients /\ settle unicode_lower send1 0 recipients row' = row').
  { intros row' Hrow'. apply filter_In in Hrow' as [Hin Hact].
    destruct (active_after send1 _ _ _ _ Hin Hact) as [Hrow Hsame].
    split; [|exact Hsame]. apply filter_In. auto. }
  split; [now apply in_map|]. split.
  - intros Hin. apply in_map_iff in Hin as (row' & Htid & Hrow').
    assert (Hact : is_true (User.is_active row') = true) by (apply filter_In in Hrow'; tauto).
    destruct (Hkeep row' Hrow') as [Hrec Hsame].
    assert (row' = u) as ->.
    { apply (key_inj _ User.telegram_id (users db)); auto.
      apply filter_In in Hrec. tauto. }
    assert (Hndr : NoDup (map User.id recipients)) by now apply NoDup_key_filter.
    rewrite (settle_recipient unicode_lower send1 recipients 0 i u Hndr Hi) in Hsame.
    cbn [Nat.add] in Hsame. rewrite He, Hb in Hsame.
    rewrite <- Hsame in Hact. discriminate Hact.
  - intros tid Hin. apply in_map_iff in Hin as (row' & <- & Hrow').
    apply in_map. now apply Hkeep.
Qed.

(** *** From the refresh to the announcement *)

(** X17. What the daily pass announces after a refresh is what the refresh
    selected: the announced products are flagged, active products whose keys
    are those of selected deals, as many as were selected up to five; when
    nothing was selected nobody is contacted, and otherwise every active
    user is. *)
Theorem refresh_then_notify now stamp r_num rand (send : nat -> Z -> SendResult)
        (db : Database) :
  NoDup (map Product.id (products db)) ->
  let r := refresh_daily_deals now stamp r_num rand (products db) in
  let db' := {| products := deals_table r; users := users db;
                click_tracking := click_tracking db |} in
  let n := send_daily_deals_notification unicode_lower send db' in
  (forall q, In q (todays_deals (deals_table r)) ->
     In (Product.id q) (map Product.id (daily_deals r))
     /\ Product.is_daily_deal q = Some true
     /\ Product.is_active q = Some true)
  /\ length (todays_deals (deals_table r)) = Nat.min 5 (length (daily_deals r))
  /\ (daily_deals r = [] ->
      attempts n = [] /\ log n = [InfoNoDailyDeals] /\ users_after n = users db)
  /\ (daily_deals r <> [] ->
      attempts n = map User.telegram_id (filter (fun u => is_true (User.is_active u)) (users db))).
Proof.
  intros Hnd. cbv zeta.
  set (r := refresh_daily_deals now stamp r_num rand (products db)).
  assert (Hr : r = refresh_daily_deals now stamp r_num rand (products db))
    by reflexivity.
  clearbody r.
  set (db' := {| products := deals_table r; users := users db;
                 click_tracking := click_tracking db |}).
  assert (Hfilter : filter (fun p => is_true (Product.is_daily_deal p)
                                     && is_true (Product.is_active p)) (deals_table r)
                    = filter (fun p => is_true (Product.is_daily_deal p)) (deals_table r)).
  { apply filter_ext_in. intros q Hq.
    destruct (is_true (Product.is_daily_deal q)) eqn:E; [|reflexivity].
    apply is_true_iff in E.
    now rewrite (refresh_flagged_active now stamp r_num rand (products db) Hnd r Hr q Hq E). }
  assert (Hlen : length (todays_deals (deals_table r))
                 = Nat.min 5 (length (daily_deals r))).
  { unfold todays_deals. rewrite Hfilter, length_firstn.
    now rewrite (refresh_flag_count now stamp r_num rand (products db) Hnd r Hr). }
  split; [|split; [exact Hlen|split]].
  - intros q Hq. unfold todays_deals in Hq. apply In_firstn in Hq.
    rewrite Hfilter in Hq. apply filter_In in Hq as [Hq Hflag].
    apply is_true_iff in Hflag.
    split; [|split; [exact Hflag|]].
    + now apply (refresh_flagged now stamp r_num rand (products db) r Hr).
    + now apply (refresh_flagged_active now stamp r_num rand (products db) Hnd r Hr).
  - intros Hnone. rewrite Hnone in Hlen. cbn [length] in Hlen.
    rewrite Nat.min_0_r in Hlen. apply length_zero_iff_nil in Hlen.
    rewrite (daily_pass_idle send db' Hlen). repeat split.
  - intros Hsome.
    assert (Hdeals : todays_deals (products db') <> []).
    { cbn [db' products]. intros Hnil. rewrite Hnil in Hlen. cbn [length] in Hlen.
      revert Hsome Hlen. destruct (daily_deals r); cbn [length]; [congruence | lia]. }
    now destruct (daily_pass_shape send db' Hdeals) as [Ha _].
Qed.

End Unicode.

Lemma blocked_user_not_contacted_again_witness :
  let db := Examples.sample_db [Examples.user 1 1001 true; Examples.user 2 1002 true] in
  let send1 := fun (i : nat) (_ : Z) =>
                 match i with
                 | 0 => TelegramError "Forbidden: bot was blocked by the user"
                 | _ => Delivered
                 end in
  let r1 := send_daily_deals_notification Examples.ascii_only send1 db in
  let db' := {| products := products db; users := users_after r1;
                click_tracking := click_tracking db |} in
  attempts (send_daily_deals_notification Examples.ascii_only (fun _ _ => Delivered) db') = [1002%Z]
  /\ ~ In 1001%Z (attempts (send_daily_deals_notification Examples.ascii_only (fun _ _ => Delivered) db')).
Proof.
  split; [reflexivity|].
  refine (proj1 (proj2
            (blocked_user_not_contacted_again Examples.ascii_only
               (fun (i : nat) (_ : Z) =>
                  match i with
                  | 0 => TelegramError "Forbidden: bot was blocked by the user"
                  | _ => Delivered
                  end)
               (fun _ _ => Delivered)
               (Examples.sample_db [Examples.user 1 1001 true; Examples.user 2 1002 true])
               0 (Examples.user 1 1001 true)
               "Forbidden: bot was blocked by the user" _ _ _ _ _ _))).
  - discriminate.
  - repeat constructor; cbn; intuition discriminate.
  - repeat constructor; cbn; intuition discriminate.
  - reflexivity.
  - reflexivity.
  - reflexivity.
Defined.

Lemma refresh_then_notify_witness :
  let db := Examples.sample_db [Examples.user 1 1001 true] in
  let r := refresh_daily_deals Examples.three_hours (fun _ => Examples.three_hours)
             3 (fun _ => 7) (products db) in
  length (todays_deals (deals_table r)) = Nat.min 5 (length (daily_deals r)).
Proof.
  refine (proj1 (proj2
            (refresh_then_notify Examples.ascii_only Examples.three_hours (fun _ => Examples.three_hours)
               3 (fun _ => 7) (fun _ _ => Delivered)
               (Examples.sample_db [Examples.user 1 1001 true]) _))).
  repeat constructor. intros [].
Defined.

End DeliveryFacts.

(** ** notifications.py: UserPreferences *)

Module PrefsFacts.

Import Prefs.
Open Scope nat_scope.
Open Scope list_scope.







End PrefsFacts.

(** ** database.py: the default stores *)

Module DefaultsFacts.

Import Db Defaults KeyFacts.
Open Scope nat_scope.
Open Scope list_scope.

Lemma next_store_id_fresh (table : list Store.t) :
  ~ In (next_store_id table) (map Store.id table).
Proof. apply next_key_fresh. Qed.

Lemma has_store_iff (store_name : string) (table : list Store.t) :
  has_store store_name table = true <-> In store_name (map Store.name table).
Proof.
  unfold has_store. rewrite existsb_exists, in_map_iff. split.
  - intros (s & Hs & E). apply String.eqb_eq in E. now exists s.
  - intros (s & E & Hs). exists s. split; [exact Hs|]. now apply String.eqb_eq.
Qed.

Lemma has_store_app (store_name : string) (table added : list Store.t) :
  has_store store_name table = true -> has_store store_name (table ++ added) = true.
Proof.
  rewrite !has_store_iff, map_app, in_app_iff. auto.
Qed.

(** What the loop does to a table, for any list of names. *)
Lemma add_stores_spec (stamp : nat -> datetime) (names : list string) :
  forall (i : nat) (table : list Store.t),
    exists added,
      add_stores stamp i names table = table ++ added
      /\ (forall s, In s added ->
            In (Store.name s) names
            /\ has_store (Store.name s) table = false
            /\ Store.website_url s = None
            /\ Store.affiliate_network s = None
            /\ Store.commission_rate s = Some 0%float)
      /\ (forall n, In n names ->
            has_store n (add_stores stamp i names table) = true)
      /\ (NoDup (map Store.id table) ->
          NoDup (map Store.id (add_stores stamp i names table)))
      /\ (NoDup (map Store.name table) ->
          NoDup (map Store.name (add_stores stamp i names table))).
Proof.
  induction names as [|n names IH]; intros i table; cbn [add_stores].
  - exists []. rewrite app_nil_r. split; [reflexivity|].
    split; [intros s []|]. split; [intros n []|]. split; auto.
  - destruct (has_store n table) eqn:Hn.
    + destruct (IH (S i) table) as (added & Heq & Hadded & Hall & Hid & Hname).
      exists added. split; [exact Heq|]. split; [|split; [|auto]].
      * intros s Hs. destruct (Hadded s Hs) as (H1 & H2). split; [now right | exact H2].
      * intros m [<-|Hm]; [|now apply Hall].
        rewrite Heq. now apply has_store_app.
    + set (store := new_store (stamp i) table n).
      destruct (IH (S i) (table ++ [store]))
        as (added & Heq & Hadded & Hall & Hid & Hname).
      exists (store :: added).
      split; [now rewrite Heq, <- app_assoc|].
      assert (Hmono : forall m, has_store m (table ++ [store]) = false ->
                                has_store m table = false).
      { intros m Hm. destruct (has_store m table) eqn:E; [|reflexivity].
        now rewrite (has_store_app _ _ _ E) in Hm. }
      split; [|split; [|split]].
      * intros s [<-|Hs].
        -- cbn. repeat split; auto.
        -- destruct (Hadded s Hs) as (H1 & H2 & H3).
           split; [now right|]. split; [now apply Hmono | exact H3].
      * intros m [<-|Hm]; [|now apply Hall].
        rewrite Heq. apply has_store_app, has_store_iff.
        rewrite map_app, in_app_iff. right. now left.
      * intros Hnd. apply Hid. rewrite map_app. cbn [map].
        apply NoDup_snoc; [exact Hnd | apply next_store_id_fresh].
      * intros Hnd. apply Hname. rewrite map_app. cbn [map].
        apply NoDup_snoc; [exact Hnd|].
        intros Hin. apply has_store_iff in Hin. cbn in Hin. congruence.
Qed.

(** A table that has every name is left as it is. *)
Lemma add_stores_nothing (stamp : nat -> datetime) (names : list string) :
  forall (i : nat) (table : list Store.t),
    (forall n, In n names -> has_store n table = true) ->
    add_stores stamp i names table = table.
Proof.
  induction names as [|n names IH]; intros i table H; cbn [add_stores]; [reflexivity|].
  rewrite (H n (or_introl eq_refl)). apply IH. intros m Hm. apply H. now right.
Qed.

(** X19. Adding the default stores keeps every row of the stores table and
    appends, for the supported names that no row has, one row each with the
    column defaults; afterwards every supported name has a row, keys and
    names that were unique are still unique, and adding the default stores
    again changes nothing. *)
Theorem default_stores_complete (stamp stamp' : nat -> datetime) (table : list Store.t) :
  let after := add_default_stores stamp table in
  (exists added,
      after = table ++ added
      /\ forall s, In s added ->
           In (Store.name s) SUPPORTED_STORES
           /\ has_store (Store.name s) table = false
           /\ Store.website_url s = None
           /\ Store.affiliate_network s = None
           /\ Store.commission_rate s = Some 0%float)
  /\ (forall n, In n SUPPORTED_STORES -> In n (map Store.name after))
  /\ (NoDup (map Store.id table) -> NoDup (map Store.id after))
  /\ (NoDup (map Store.name table) -> NoDup (map Store.name after))
  /\ add_default_stores stamp' after = after.
Proof.
  cbv zeta. unfold add_default_stores.
  destruct (add_stores_spec stamp SUPPORTED_STORES 0 table)
    as (added & Heq & Hadded & Hall & Hid & Hname).
  split; [exists added; split; assumption|].
  split; [intros n Hn; apply has_store_iff, Hall; exact Hn|].
  split; [exact Hid|]. split; [exact Hname|].
  apply add_stores_nothing. exact Hall.
Qed.

End DefaultsFacts.

(** ** product_scraper.py: categorising a title *)

Module ScraperFacts.

Import PyStr Defaults Scraper PyStrFacts.
Open Scope string_scope.

(** A text that contains [b] contains every part of [b]. *)
Lemma contains_part (pre a post s : string) :
  contains (pre ++ a ++ post) s = true -> contains a s = true.
Proof.
  rewrite !contains_true_iff. intros (x & y & ->).
  exists (x ++ pre), (post ++ y). now rewrite !app_assoc.
Qed.

Lemma mens_words_false_iff (text : string) :
  any_in mens_words text = false <->
  contains "men" text = false /\ contains "male" text = false
  /\ contains "boy" text = false.
Proof.
  unfold any_in, mens_words. cbn [existsb]. rewrite orb_false_r.
  destruct (contains "men" text) eqn:E1.
  - split; [discriminate | intros (H & _); discriminate].
  - assert (E2 : contains "mens" text = false).
    { destruct (contains "mens" text) eqn:E; [|reflexivity].
      now rewrite (contains_part "" "men" "s" text E) in E1. }
    assert (E3 : contains "men's" text = false).
    { destruct (contains "men's" text) eqn:E; [|reflexivity].
      now rewrite (contains_part "" "men" "'s" text E) in E1. }
    rewrite E2, E3. cbn [orb].
    destruct (contains "male" text), (contains "boy" text); cbn; intuition congruence.
Qed.

Lemma womens_words_iff (text : string) :
  contains "men" text = false -> contains "male" text = false ->
  (any_in womens_words text = true
   <-> contains "girl" text = true \/ contains "ladies" text = true).
Proof.
  intros E1 E2. unfold any_in, womens_words. cbn [existsb]. rewrite orb_false_r.
  assert (W1 : contains "women" text = false).
  { destruct (contains "women" text) eqn:E; [|reflexivity].
    now rewrite (contains_part "wo" "men" "" text E) in E1. }
  assert (W2 : contains "womens" text = false).
  { destruct (contains "womens" text) eqn:E; [|reflexivity].
    now rewrite (contains_part "wo" "men" "s" text E) in E1. }
  assert (W3 : contains "women's" text = false).
  { destruct (contains "women's" text) eqn:E; [|reflexivity].
    now rewrite (contains_part "wo" "men" "'s" text E) in E1. }
  assert (W4 : contains "female" text = false).
  { destruct (contains "female" text) eqn:E; [|reflexivity].
    now rewrite (contains_part "fe" "male" "" text E) in E2. }
  rewrite W1, W2, W3, W4. cbn [orb]. apply orb_true_iff.
Qed.

(** X20. A title is categorised under a key of [Config.CATEGORIES], and
    under women's clothing only when it names no electronics keyword, names
    a clothing keyword, and contains "girl" or "ladies" while containing
    none of "men", "male" and "boy"; so a title that contains "women" or
    "female", in any letter case, is never categorised as women's
    clothing. *)
Theorem categorize_product_range (unicode_lower : string -> string) (title : string) :
  let text := lower unicode_lower title in
  In (_categorize_product unicode_lower title) CATEGORY_KEYS
  /\ (_categorize_product unicode_lower title = "womens_clothing" <->
      any_in electronics_keywords text = false
      /\ any_in clothing_keywords text = true
      /\ contains "men" text = false
      /\ contains "male" text = false
      /\ contains "boy" text = false
      /\ (contains "girl" text = true \/ contains "ladies" text = true))
  /\ (contains "women" text = true \/ contains "female" text = true ->
      _categorize_product unicode_lower title <> "womens_clothing").
Proof.
  cbv zeta. set (text := lower unicode_lower title).
  assert (Hkey : In (_categorize_product unicode_lower title) CATEGORY_KEYS).
  { unfold _categorize_product. fold text.
    destruct (any_in electronics_keywords text); [cbn; tauto|].
    destruct (any_in clothing_keywords text).
    - destruct (any_in mens_words text); [cbn; tauto|].
      destruct (any_in womens_words text); cbn; tauto.
    - destruct (any_in beauty_keywords text); [cbn; tauto|].
      destruct (any_in kitchen_keywords text); [cbn; tauto|].
      destruct (any_in household_keywords text); cbn; tauto. }
  assert (Hiff : _categorize_product unicode_lower title = "womens_clothing" <->
                 any_in electronics_keywords text = false
                 /\ any_in clothing_keywords text = true
                 /\ contains "men" text = false
                 /\ contains "male" text = false
                 /\ contains "boy" text = false
                 /\ (contains "girl" text = true \/ contains "ladies" text = true)).
  { unfold _categorize_product. fold text.
    destruct (any_in electronics_keywords text);
      [split; [discriminate | intros (H & _); discriminate]|].
    destruct (any_in clothing_keywords text).
    - destruct (any_in mens_words text) eqn:Em.
      + split; [discriminate|]. intros (_ & _ & H1 & H2 & H3 & _).
        assert (Hf : any_in mens_words text = false)
          by (apply mens_words_false_iff; auto).
        congruence.
      + apply mens_words_false_iff in Em as (H1 & H2 & H3).
        destruct (any_in womens_words text) eqn:Ew.
        * split; [|reflexivity]. intros _. repeat split; auto.
          now apply womens_words_iff.
        * split; [discriminate|]. intros (_ & _ & _ & _ & _ & H).
          apply (womens_words_iff text H1 H2) in H. congruence.
    - destruct (any_in beauty_keywords text);
        [split; [discriminate | intros (_ & H & _); discriminate]|].
      destruct (any_in kitchen_keywords text);
        [split; [discriminate | intros (_ & H & _); discriminate]|].
      destruct (any_in household_keywords text);
        split; try discriminate; intros (_ & H & _); discriminate. }
  split; [exact Hkey|]. split; [exact Hiff|].
  intros Hw Hcat. apply Hiff in Hcat as (_ & _ & H1 & H2 & _).
  destruct Hw as [Hw|Hw].
  - now rewrite (contains_part "wo" "men" "" text Hw) in H1.
  - now rewrite (contains_part "fe" "male" "" text Hw) in H2.
Qed.

End ScraperFacts.

(** ** bot_handlers.py: registration and who is contacted *)

Module RegistrationFacts.

Import Db Notifications Registration.
Import DbFacts KeyFacts NotificationFacts DeliveryFacts.
Open Scope nat_scope.
Open Scope list_scope.







End RegistrationFacts.
